(** * timebloc: the calendar service ([src/lib/calendar-service.ts])

    A shallow embedding of the [CalendarService] class: the in-memory
    connection table (a JavaScript [Map]), the two provider fetchers, the
    aggregator, the token operations, and the properties the specification
    states about them; then the callers of the service in
    [src/app/page.tsx] (the calendar handlers of the page and the
    placement of events in the time grid) and further properties of both.

    Conventions of the embedding.
    - Asynchronous methods are run to completion one after the other (the
      service has a single logical thread of control); a method is a
      function from the world before the call to a completion and the world
      after it.
    - A thrown exception is the [Throw] completion; state changes made
      before the throw persist, as in JavaScript.
    - Platform built-ins ([fetch], [atob], [JSON.parse], [Date.now],
      [new Date(s)], [toISOString], the Firebase SDK) and the Tauri backend
      are interfaces (type classes); the service code is written over them.
    - Provider responses and the manual-token payload are modelled at the
      TypeScript types the source declares for them.
    - Where the source leaves a recursion unbounded (the retry after a
      refresh, the iteration over the live table) the function takes a
      fuel argument; [None] is a run that did not finish within it, and
      the statements give the fuel that suffices. *)

From Stdlib Require Import String Ascii List ZArith Bool Lia Arith.
From Stdlib Require Import Permutation Sorted DecimalString.
Import ListNotations.

Local Open Scope list_scope.

Notation "a +++ b" := (String.append a b)
  (at level 60, right associativity) : string_scope.

(* ================================================================= *)
(** * Strings *)

(** [String.prototype.includes]: [needle] occurs somewhere in [hay]. *)
Fixpoint includes (needle hay : string) : bool :=
  if String.prefix needle hay then true
  else match hay with
       | EmptyString => false
       | String _ hay' => includes needle hay'
       end.

(** Decimal rendering of a non-negative integer inside a template string. *)
Definition String_of_nat (n : nat) : string :=
  NilZero.string_of_uint (Nat.to_uint n).

(** JavaScript truthiness of a string and of an optional string
    ([undefined] and [""] are falsy). *)
Definition truthy (s : string) : bool :=
  negb (String.eqb s EmptyString).

Definition truthy_opt (o : option string) : bool :=
  match o with
  | Some s => truthy s
  | None => false
  end.

(** [a || b] on optional strings, with a string default at the end. *)
Definition or_else (o : option string) (d : string) : string :=
  match o with
  | Some s => if truthy s then s else d
  | None => d
  end.

(* ================================================================= *)
(** * Numbers, dates, errors and completions *)

(** The numbers the service computes with are integers or [NaN]. *)
Inductive JsNumber : Type :=
| Num (z : Z)
| NaN.

(** A [Date] object: a time value in milliseconds since the epoch, or the
    Invalid Date. *)
Inductive JsDate : Type :=
| ValidDate (ms : Z)
| InvalidDate.

(** [Date.prototype.getTime]. *)
Definition getTime (d : JsDate) : JsNumber :=
  match d with
  | ValidDate ms => Num ms
  | InvalidDate => NaN
  end.

(** Subtraction; only the sign of the result is ever used. *)
Definition js_sub (a b : JsNumber) : JsNumber :=
  match a, b with
  | Num x, Num y => Num (x - y)
  | _, _ => NaN
  end.

(** A thrown value: its [name], the [code] property when it has one, and
    its message. *)
Record JsError : Type := mkError {
  name : string;
  code : option string;
  message : string
}.

(** [new Error(msg)]. *)
Definition Error (msg : string) : JsError :=
  {| name := "Error"; code := None; message := msg |}.

(** [new RangeError(msg)]. *)
Definition RangeError (msg : string) : JsError :=
  {| name := "RangeError"; code := None; message := msg |}.

(** [Error.prototype.toString], as a template string renders an error. *)
Definition Error_toString (e : JsError) : string :=
  if String.eqb (name e) "" then message e
  else if String.eqb (message e) "" then name e
  else (name e +++ ": " +++ message e)%string.

Inductive completion (A : Type) : Type :=
| Return (a : A)
| Throw (e : JsError).

Arguments Return {A} a.
Arguments Throw {A} e.

(* ================================================================= *)
(** * [Map<string, V>]

    The ECMAScript [Map]: a list of entries in insertion order.  [delete]
    and [clear] empty an entry in place, [set] overwrites the value of an
    existing key in place and appends a new key at the end, so that an
    iteration in progress (an index into the list) sees later changes. *)

Module JsMap.
Section Defs.
Context {V : Type}.

Definition t : Type := list (option (string * V)).

Definition empty : t := [].

Fixpoint get (k : string) (m : t) : option V :=
  match m with
  | [] => None
  | Some (k', v) :: m' => if String.eqb k' k then Some v else get k m'
  | None :: m' => get k m'
  end.

Definition has (k : string) (m : t) : bool :=
  match get k m with
  | Some _ => true
  | None => false
  end.

Fixpoint set (k : string) (v : V) (m : t) : t :=
  match m with
  | [] => [Some (k, v)]
  | Some (k', v') :: m' =>
      if String.eqb k' k then Some (k', v) :: m'
      else Some (k', v') :: set k v m'
  | None :: m' => None :: set k v m'
  end.

Fixpoint delete (k : string) (m : t) : t :=
  match m with
  | [] => []
  | Some (k', v') :: m' =>
      if String.eqb k' k then None :: m'
      else Some (k', v') :: delete k m'
  | None :: m' => None :: delete k m'
  end.

Definition clear (m : t) : t := map (fun _ => None) m.

Fixpoint entries (m : t) : list (string * V) :=
  match m with
  | [] => []
  | Some e :: m' => e :: entries m'
  | None :: m' => entries m'
  end.

Definition keys (m : t) : list string := map fst (entries m).

Definition values (m : t) : list V := map snd (entries m).

Definition size (m : t) : nat := length (entries m).

(** What a real [Map] always satisfies: no key occurs twice. *)
Definition wf (m : t) : Prop := NoDup (keys m).

End Defs.
Arguments t V : clear implicits.
End JsMap.

(* ================================================================= *)
(** * [Array.prototype.sort] with a comparison function

    ECMAScript: the sort is stable, and [SortCompare] reads a [NaN] result
    of the comparison function as [+0].  The model is the stable insertion
    sort; for a consistent comparison function every conforming
    implementation returns the same array (see
    [Array_sort_is_the_stable_sort] for the one comparison function the
    service uses).  A comparison function that is not consistent (for
    the service: one applied to an event whose start is the Invalid
    Date, where it yields [NaN]) leaves the order to the implementation;
    the insertion sort then gives one arrangement of the elements among
    those an engine may return, and the statements about the order of a
    sorted list are made for lists whose events all have a start time. *)

Section ArraySort.
Context {A : Type}.
Variable comparefn : A -> A -> JsNumber.

Definition SortCompare (x y : A) : Z :=
  match comparefn x y with
  | Num v => v
  | NaN => 0%Z
  end.

Fixpoint sort_insert (x : A) (l : list A) : list A :=
  match l with
  | [] => [x]
  | y :: l' =>
      if (0 <? SortCompare x y)%Z then y :: sort_insert x l'
      else x :: l
  end.

Fixpoint Array_sort (l : list A) : list A :=
  match l with
  | [] => []
  | x :: l' => sort_insert x (Array_sort l')
  end.

End ArraySort.

(* ================================================================= *)
(** * Data model *)

Record CalendarConnection : Type := mkConnection {
  id : string;
  provider : string;
  email : string;
  accessToken : string;
  refreshToken : option string;
  expiresAt : Z;
  connectedAt : Z
}.

Record CalendarEvent : Type := mkEvent {
  ev_id : string;
  title : string;
  start : JsDate;
  end_ : JsDate;
  isAllDay : bool;
  description : option string;
  location : option string;
  ev_provider : string
}.

(** The row the backend command [get_calendar_connections] returns and
    [save_firebase_calendar_connection] takes. *)
Record BackendConnection : Type := mkBackendConnection {
  b_id : string;
  b_provider : string;
  account_name : string;
  access_token : string;
  refresh_token : option string;
  expires_at : Z;
  connected_at : Z
}.

(** An item of the Google Calendar [events] response, at the type the
    source annotates it with. *)
Record GoogleTime : Type := mkGoogleTime {
  dateTime : option string;
  date : option string
}.

Record GoogleItem : Type := mkGoogleItem {
  g_id : string;
  summary : option string;
  g_start : GoogleTime;
  g_end : GoogleTime;
  g_description : option string;
  g_location : option string
}.

(** [data.items]: [None] when the property is missing or not an array. *)
Record GoogleData : Type := mkGoogleData {
  items : option (list GoogleItem)
}.

(** An item of the Microsoft Graph [calendarview] response. *)
Record MicrosoftLocation : Type := mkMicrosoftLocation {
  displayName : option string
}.

Record MicrosoftItem : Type := mkMicrosoftItem {
  m_id : string;
  subject : option string;
  m_start : string;
  m_end : string;
  m_isAllDay : bool;
  bodyPreview : option string;
  m_location : option MicrosoftLocation
}.

(** [data.value]: [None] when the property is missing or not an array. *)
Record MicrosoftData : Type := mkMicrosoftData {
  value : option (list MicrosoftItem)
}.

(** The decoded manual-token payload
    [{provider, email, uid, accessToken, idToken}]. *)
Record AuthData : Type := mkAuthData {
  a_provider : string;
  a_email : string;
  a_uid : string;
  a_accessToken : string;
  a_idToken : string
}.

(** What the service reads of a Firebase [User] and [UserCredential]. *)
Record User : Type := mkUser {
  uid : string;
  u_email : option string;
  providerData : list string;
  getIdToken : completion string
}.

Record UserCredential : Type := mkUserCredential {
  user : option User;
  googleCredential : completion (option string);
  oauthCredential : completion (option string)
}.

(** A call of the global [fetch]. *)
Record HttpRequest : Type := mkRequest {
  url : string;
  headers : list (string * string)
}.

Inductive HttpOutcome : Type :=
| NetworkError (e : JsError)
| Response (status : nat) (body : string).

(** Decimal rendering of an integer inside a template string. *)
Definition String_of_Z (z : Z) : string :=
  NilZero.string_of_int (Z.to_int z).

(** [calendarProviders]: the closed set of supported providers (the icon
    and the Firebase provider object play no part in the logic). *)
Record CalendarProvider : Type := mkProvider {
  cp_id : string;
  cp_name : string
}.

Definition calendarProviders : list CalendarProvider :=
  [ {| cp_id := "google"; cp_name := "Google Calendar" |};
    {| cp_id := "microsoft"; cp_name := "Microsoft Outlook" |} ].

(* ================================================================= *)
(** * The collaborators *)

(** Built-ins of the JavaScript platform, the Firebase SDK and the shell
    the application runs in. *)
Class Platform : Type := {
  (** the successive readings of [Date.now()] *)
  clock : nat -> Z;
  (** [new Date(s)] *)
  newDate : string -> JsDate;
  (** [toISOString] of a valid date *)
  toISOString : Z -> string;
  (** [String.prototype.trim] *)
  trim : string -> string;
  (** [atob]; throws on input that is not base64 *)
  atob : string -> completion string;
  (** [JSON.parse] of the manual-token payload; throws on malformed JSON *)
  JSON_parse : string -> completion AuthData;
  (** the global [fetch]: rejects on a network failure *)
  fetch : HttpRequest -> HttpOutcome;
  (** [response.json()] of each provider's response body *)
  json_google : string -> completion GoogleData;
  json_microsoft : string -> completion MicrosoftData;
  (** [typeof window !== 'undefined'] *)
  hasWindow : bool;
  (** ['__TAURI__' in window] *)
  tauriMarker : bool;
  (** [open] of [@tauri-apps/api/shell] *)
  shell_open : string -> completion unit;
  signInWithPopup : string -> completion UserCredential;
  signInWithRedirect : string -> completion unit;
  getRedirectResult : completion (option UserCredential)
}.

(** The Credential Store behind the Tauri [invoke] commands; a command
    that rejects is a [Throw]. *)
Class CredentialStore : Type := {
  Store : Type;
  get_calendar_connections : Store -> completion (list BackendConnection);
  save_firebase_calendar_connection :
    BackendConnection -> Store -> completion Store;
  remove_calendar_connection : string -> Store -> completion Store
}.

(* ================================================================= *)
(** * The service *)

Section Service.
Context {platform : Platform} {store : CredentialStore}.

(** The state a method runs in: the two fields of the [CalendarService]
    object, the backend, the number of [Date.now()] readings taken so
    far and the network calls issued so far. *)
Record World : Type := mkWorld {
  connections : JsMap.t CalendarConnection;
  isInitialized : bool;
  backend : Store;
  ticks : nat;
  requests : list HttpRequest
}.

Definition with_connections (m : JsMap.t CalendarConnection) (w : World)
  : World :=
  {| connections := m; isInitialized := isInitialized w;
     backend := backend w; ticks := ticks w; requests := requests w |}.

Definition with_isInitialized (b : bool) (w : World) : World :=
  {| connections := connections w; isInitialized := b;
     backend := backend w; ticks := ticks w; requests := requests w |}.

Definition with_backend (b : Store) (w : World) : World :=
  {| connections := connections w; isInitialized := isInitialized w;
     backend := b; ticks := ticks w; requests := requests w |}.

Definition with_ticks (n : nat) (w : World) : World :=
  {| connections := connections w; isInitialized := isInitialized w;
     backend := backend w; ticks := n; requests := requests w |}.

Definition with_requests (l : list HttpRequest) (w : World) : World :=
  {| connections := connections w; isInitialized := isInitialized w;
     backend := backend w; ticks := ticks w; requests := l |}.

(** ** The monad of methods

    [None] is a run that did not finish within the recursion budget. *)
Definition M (A : Type) : Type := World -> option (completion A * World).

Definition ret {A} (a : A) : M A := fun w => Some (Return a, w).

Definition throw {A} (e : JsError) : M A := fun w => Some (Throw e, w).

Definition diverge {A} : M A := fun _ => None.

Definition bind {A B} (m : M A) (k : A -> M B) : M B :=
  fun w =>
    match m w with
    | None => None
    | Some (Return a, w') => k a w'
    | Some (Throw e, w') => Some (Throw e, w')
    end.

(** [try { m } catch (error) { h error }]. *)
Definition try_catch {A} (m : M A) (h : JsError -> M A) : M A :=
  fun w =>
    match m w with
    | None => None
    | Some (Return a, w') => Some (Return a, w')
    | Some (Throw e, w') => h e w'
    end.

(** A platform call that either returns or throws, without touching the
    world. *)
Definition lift {A} (c : completion A) : M A :=
  fun w => Some (c, w).

Definition modify (f : World -> World) : M unit :=
  fun w => Some (Return tt, f w).

Definition when (b : bool) (m : M unit) : M unit :=
  if b then m else ret tt.

End Service.

Declare Scope js_scope.
Delimit Scope js_scope with js.
Notation "x <- m ;; k" := (bind m (fun x => k))
  (at level 61, m at next level, right associativity) : js_scope.
Notation "m ;;; k" := (bind m (fun _ => k))
  (at level 61, right associativity) : js_scope.

Section Operations.
Context {platform : Platform} {store : CredentialStore}.
Local Open Scope string_scope.
Local Open Scope js_scope.

(** [Date.now()]: the next reading of the clock. *)
Definition Date_now : M Z :=
  fun w => Some (Return (clock (ticks w)), with_ticks (S (ticks w)) w).

(** [d.toISOString()]: a [RangeError] on the Invalid Date. *)
Definition Date_toISOString (d : JsDate) : M string :=
  match d with
  | ValidDate ms => ret (toISOString ms)
  | InvalidDate => throw (RangeError "Invalid time value")
  end.

(** [await fetch(url, {headers})]: the call is issued, then resolves to
    status and body text or rejects. *)
Definition http_fetch (req : HttpRequest) : M (nat * string) :=
  fun w =>
    let w' := with_requests (requests w ++ [req]) w in
    match fetch req with
    | NetworkError e => Some (Throw e, w')
    | Response status body => Some (Return (status, body), w')
    end.

(** [response.ok]. *)
Definition response_ok (status : nat) : bool :=
  (200 <=? status)%nat && (status <=? 299)%nat.

(** [for (const x of xs) { body x }] over an array. *)
Fixpoint forEach {A} (body : A -> M unit) (xs : list A) : M unit :=
  match xs with
  | [] => ret tt
  | x :: xs' => body x ;;; forEach body xs'
  end.

(** ** [loadConnections] *)

Definition connection_of_backend (conn : BackendConnection)
  : M CalendarConnection :=
  cid <- (if truthy (b_id conn) then ret (b_id conn)
          else now <- Date_now ;;
               ret (b_provider conn +++ "-" +++ String_of_Z now)) ;;
  exp <- (if negb (expires_at conn =? 0)%Z then ret (expires_at conn)
          else now <- Date_now ;; ret (now + 3600 * 1000)%Z) ;;
  con <- (if negb (connected_at conn =? 0)%Z then ret (connected_at conn)
          else Date_now) ;;
  ret {| id := cid;
         provider := b_provider conn;
         email := account_name conn;
         accessToken := access_token conn;
         refreshToken :=
           (if truthy_opt (refresh_token conn) then refresh_token conn
            else None);
         expiresAt := exp;
         connectedAt := con |}.

Definition loadConnections : M unit :=
  try_catch
    (backendConnections <-
       (fun w => lift (get_calendar_connections (backend w)) w) ;;
     modify (fun w => with_connections (JsMap.clear (connections w)) w) ;;;
     forEach
       (fun conn =>
          connection <- connection_of_backend conn ;;
          modify (fun w =>
            with_connections
              (JsMap.set (id connection) connection (connections w)) w))
       backendConnections)
    (fun _ => ret tt).

(** ** [saveConnectionToBackend] *)

Definition backend_of_connection (connection : CalendarConnection)
  : BackendConnection :=
  {| b_id := id connection;
     b_provider := provider connection;
     account_name := email connection;
     access_token := accessToken connection;
     refresh_token := refreshToken connection;
     expires_at := expiresAt connection;
     connected_at := connectedAt connection |}.

Definition saveConnectionToBackend (connection : CalendarConnection)
  : M unit :=
  fun w =>
    match save_firebase_calendar_connection
            (backend_of_connection connection) (backend w) with
    | Return b' => Some (Return tt, with_backend b' w)
    | Throw e => Some (Throw e, w)
    end.

(** ** [removeConnection] *)

Definition removeConnection (connectionId : string) : M unit :=
  modify (fun w =>
    with_connections (JsMap.delete connectionId (connections w)) w) ;;;
  (fun w =>
     match remove_calendar_connection connectionId (backend w) with
     | Return b' => Some (Return tt, with_backend b' w)
     | Throw _ => Some (Return tt, w)
     end).

(** ** [getConnections] *)

Definition getConnections (w : World) : list CalendarConnection :=
  JsMap.values (connections w).

(** ** [refreshToken] (the method; [refreshToken] is the record field) *)

Definition refreshToken_ (connection : CalendarConnection)
  : M (option CalendarConnection) :=
  if negb (truthy_opt (refreshToken connection)) then ret None
  else if String.eqb (provider connection) "google" then ret None
  else if String.eqb (provider connection) "microsoft" then ret None
  else ret None.

(** The expiry check both fetchers start with.  [connection] is the
    function's own variable, so a reassignment here is seen by the rest
    of the [try] block and by the [catch] block alike; nothing in this
    step can throw. *)
Definition refreshIfExpired (connection : CalendarConnection)
  : M CalendarConnection :=
  if negb (expiresAt connection =? 0)%Z then
    now <- Date_now ;;
    if (expiresAt connection <? now)%Z then
      refreshedConnection <- refreshToken_ connection ;;
      match refreshedConnection with
      | Some c => ret c
      | None => ret connection
      end
    else ret connection
  else ret connection.

(** ** Normalisation of provider items *)

Definition googleEvent (item : GoogleItem) : CalendarEvent :=
  {| ev_id := g_id item;
     title := or_else (summary item) "(No title)";
     start := newDate (or_else (dateTime (g_start item))
                         (or_else (date (g_start item)) ""));
     end_ := newDate (or_else (dateTime (g_end item))
                        (or_else (date (g_end item)) ""));
     isAllDay := truthy_opt (date (g_start item));
     description := g_description item;
     location := g_location item;
     ev_provider := "google" |}.

Definition microsoftEvent (item : MicrosoftItem) : CalendarEvent :=
  {| ev_id := m_id item;
     title := or_else (subject item) "(No title)";
     start := newDate (m_start item);
     end_ := newDate (m_end item);
     isAllDay := m_isAllDay item;
     description := bodyPreview item;
     location := match m_location item with
                 | Some l => displayName l
                 | None => None
                 end;
     ev_provider := "microsoft" |}.

(** ** The requests *)

Definition bearer_headers (connection : CalendarConnection)
  : list (string * string) :=
  [ ("Authorization", "Bearer " +++ accessToken connection);
    ("Content-Type", "application/json") ].

Definition googleRequest (connection : CalendarConnection)
    (timeMin timeMax : string) : HttpRequest :=
  {| url := "https://www.googleapis.com/calendar/v3/calendars/primary/events?timeMin="
            +++ timeMin +++ "&timeMax=" +++ timeMax
            +++ "&singleEvents=true&orderBy=startTime";
     headers := bearer_headers connection |}.

Definition microsoftRequest (connection : CalendarConnection)
    (startTime endTime : string) : HttpRequest :=
  {| url := "https://graph.microsoft.com/v1.0/me/calendarview?startDateTime="
            +++ startTime +++ "&endDateTime=" +++ endTime;
     headers := bearer_headers connection |}.

Definition googleApiError (status : nat) (errorText : string) : JsError :=
  Error ("Google Calendar API error: " +++ String_of_nat status
         +++ " - " +++ errorText).

Definition microsoftApiError (status : nat) (errorText : string)
  : JsError :=
  Error ("Microsoft Graph API error: " +++ String_of_nat status
         +++ " - " +++ errorText).

(** How the [try] block (or the [catch] block) of a fetcher returns:
    with the events, or with
    [return this.fetch...CalendarEvents(refreshedConnection, ...)], the
    retry, whose promise is returned without [await] and so settles
    outside the [try] statement. *)
Inductive FetchReturn : Type :=
| Events (events : list CalendarEvent)
| Retry (refreshedConnection : CalendarConnection).

(** The [catch] block of both fetchers.  [removeConnection] is called
    without [await]: its [delete] runs at once, within the call; the
    backend command it then issues is taken here as issued right away. *)
Definition fetch_catch (connection : CalendarConnection) (error : JsError)
  : M FetchReturn :=
  when (includes "401" (message error))
       (removeConnection (id connection)) ;;;
  ret (Events []).

(** ** [fetchGoogleCalendarEvents]

    [fetchGoogle_try] is the [try] block after the expiry check; [fuel]
    bounds the number of retries. *)
Definition fetchGoogle_try
    (connection : CalendarConnection) (startDate endDate : JsDate)
  : M FetchReturn :=
  timeMin <- Date_toISOString startDate ;;
  timeMax <- Date_toISOString endDate ;;
  response <- http_fetch (googleRequest connection timeMin timeMax) ;;
  let (status, body) := response in
  if negb (response_ok status) then
    let errorText := body in
    refreshedConnection <-
      (if (status =? 401)%nat then refreshToken_ connection
       else ret None) ;;
    match refreshedConnection with
    | Some c => ret (Retry c)
    | None => throw (googleApiError status errorText)
    end
  else
    data <- lift (json_google body) ;;
    match items data with
    | None => ret (Events [])
    | Some l => ret (Events (map googleEvent l))
    end.

Fixpoint fetchGoogleCalendarEvents (fuel : nat)
    (connection : CalendarConnection) (startDate endDate : JsDate)
  : M (list CalendarEvent) :=
  match fuel with
  | O => diverge
  | S fuel' =>
      (* the logging before the [try] block renders both dates *)
      Date_toISOString startDate ;;;
      Date_toISOString endDate ;;;
      connection' <- refreshIfExpired connection ;;
      returned <- try_catch
                    (fetchGoogle_try connection' startDate endDate)
                    (fetch_catch connection') ;;
      match returned with
      | Events events => ret events
      | Retry c => fetchGoogleCalendarEvents fuel' c startDate endDate
      end
  end.

(** ** [fetchMicrosoftCalendarEvents] *)
Definition fetchMicrosoft_try
    (connection : CalendarConnection) (startDate endDate : JsDate)
  : M FetchReturn :=
  startTime <- Date_toISOString startDate ;;
  endTime <- Date_toISOString endDate ;;
  response <- http_fetch (microsoftRequest connection startTime endTime) ;;
  let (status, body) := response in
  if negb (response_ok status) then
    let errorText := body in
    refreshedConnection <-
      (if (status =? 401)%nat then refreshToken_ connection
       else ret None) ;;
    match refreshedConnection with
    | Some c => ret (Retry c)
    | None => throw (microsoftApiError status errorText)
    end
  else
    data <- lift (json_microsoft body) ;;
    match value data with
    | None => ret (Events [])
    | Some l => ret (Events (map microsoftEvent l))
    end.

Fixpoint fetchMicrosoftCalendarEvents (fuel : nat)
    (connection : CalendarConnection) (startDate endDate : JsDate)
  : M (list CalendarEvent) :=
  match fuel with
  | O => diverge
  | S fuel' =>
      connection' <- refreshIfExpired connection ;;
      returned <- try_catch
                    (fetchMicrosoft_try connection' startDate endDate)
                    (fetch_catch connection') ;;
      match returned with
      | Events events => ret events
      | Retry c => fetchMicrosoftCalendarEvents fuel' c startDate endDate
      end
  end.

(** ** [getAllCalendarEvents] *)

(** The comparison function of the final sort:
    [(a, b) => a.start.getTime() - b.start.getTime()]. *)
Definition byStart (a b : CalendarEvent) : JsNumber :=
  js_sub (getTime (start a)) (getTime (start b)).

(** The dispatch on the provider inside the loop body; [events] starts
    out as the empty array. *)
Definition fetchFor (fuel : nat) (connection : CalendarConnection)
    (startDate endDate : JsDate) : M (list CalendarEvent) :=
  if String.eqb (provider connection) "google" then
    fetchGoogleCalendarEvents fuel connection startDate endDate
  else if String.eqb (provider connection) "microsoft" then
    fetchMicrosoftCalendarEvents fuel connection startDate endDate
  else ret [].

(** The body of the loop for one connection: the [try] block fetches and
    pushes, the [catch] block only logs. *)
Definition fetchInto (fuel : nat) (allEvents : list CalendarEvent)
    (connection : CalendarConnection) (startDate endDate : JsDate)
  : M (list CalendarEvent) :=
  try_catch
    (events <- fetchFor fuel connection startDate endDate ;;
     ret (allEvents ++ events)%list)
    (fun _ => ret allEvents).

(** [for (const connection of this.connections.values())]: the iterator
    is an index into the live entry list; emptied entries are skipped. *)
Fixpoint forOfConnections (fuel : nat) (index : nat)
    (allEvents : list CalendarEvent) (startDate endDate : JsDate)
  : M (list CalendarEvent) :=
  match fuel with
  | O => diverge
  | S fuel' =>
      fun w =>
        match nth_error (connections w) index with
        | None => ret allEvents w
        | Some None =>
            forOfConnections fuel' (S index) allEvents startDate endDate w
        | Some (Some (_, connection)) =>
            (allEvents' <-
               fetchInto fuel' allEvents connection startDate endDate ;;
             forOfConnections fuel' (S index) allEvents'
               startDate endDate) w
        end
  end.

Definition getAllCalendarEvents (fuel : nat) (startDate endDate : JsDate)
  : M (list CalendarEvent) :=
  allEvents <- forOfConnections fuel 0 [] startDate endDate ;;
  ret (Array_sort byStart allEvents).

(** The connection id both authentication paths derive:
    [`${providerId}-${uid}`]. *)
Definition derivedId (providerId uid : string) : string :=
  providerId +++ "-" +++ uid.

(** ** [processAuthToken] *)

Definition invalidTokenError : JsError :=
  Error "Invalid token format. Please try authentication again.".

Definition processAuthToken (providerId token : string)
  : M CalendarConnection :=
  try_catch
    (decoded <- lift (atob (trim token)) ;;
     authData <- lift (JSON_parse decoded) ;;
     if negb (String.eqb (a_provider authData) providerId) then
       throw (Error ("Token is for " +++ a_provider authData
                     +++ " but expected " +++ providerId))
     else
       now1 <- Date_now ;;
       now2 <- Date_now ;;
       let connection :=
         {| id := derivedId providerId (a_uid authData);
            provider := providerId;
            email := a_email authData;
            accessToken := a_accessToken authData;
            refreshToken := None;
            expiresAt := (now1 + 3600 * 1000)%Z;
            connectedAt := now2 |} in
       modify (fun w =>
         with_connections
           (JsMap.set (id connection) connection (connections w)) w) ;;;
       saveConnectionToBackend connection ;;;
       ret connection)
    (fun _ => throw invalidTokenError).

(** ** [getProviderIdFromUser] *)

Fixpoint providerFromData (data : list string) : option string :=
  match data with
  | [] => None
  | p :: data' =>
      if String.eqb p "google.com" then Some "google"
      else if String.eqb p "microsoft.com" then Some "microsoft"
      else providerFromData data'
  end.

Definition getProviderIdFromUser (u : User) : completion string :=
  match providerFromData (providerData u) with
  | Some p => Return p
  | None =>
      match providerData u with
      | firstProvider :: _ =>
          if includes "google" firstProvider then Return "google"
          else if includes "microsoft" firstProvider
               then Return "microsoft"
          else Throw (Error "Could not determine provider from user data")
      | [] => Throw (Error "Could not determine provider from user data")
      end
  end.

(** ** [processAuthResult] *)

(** The token extraction: the provider credential first, the identity
    token of the session as a fallback; every failure on the way is
    caught and leaves the empty string. *)
Definition extractAccessToken (providerId : string)
    (result : UserCredential) (u : User) : string :=
  let fromCredential :=
    if String.eqb providerId "google" then googleCredential result
    else if String.eqb providerId "microsoft" then oauthCredential result
    else Return None in
  match fromCredential with
  | Throw _ => ""
  | Return credential =>
      let accessToken := or_else credential "" in
      if truthy accessToken then accessToken
      else match getIdToken u with
           | Return t => t
           | Throw _ => ""
           end
  end.

Definition processAuthResult (result : option UserCredential)
  : M CalendarConnection :=
  match result with
  | None => throw (Error "Authentication failed - no result received")
  | Some result =>
      match user result with
      | None => throw (Error "Authentication failed - no result received")
      | Some u =>
          providerId <- lift (getProviderIdFromUser u) ;;
          let accessToken := extractAccessToken providerId result u in
          if negb (truthy accessToken) then
            throw (Error
              "Failed to get access token from authentication result")
          else
            now1 <- Date_now ;;
            now2 <- Date_now ;;
            let connection :=
              {| id := derivedId providerId (uid u);
                 provider := providerId;
                 email := or_else (u_email u) "";
                 accessToken := accessToken;
                 refreshToken := None;
                 expiresAt := (now1 + 3600 * 1000)%Z;
                 connectedAt := now2 |} in
            modify (fun w =>
              with_connections
                (JsMap.set (id connection) connection (connections w))
                w) ;;;
            saveConnectionToBackend connection ;;;
            ret connection
      end
  end.

(** ** [connectProvider] *)

Definition inTauri : bool := hasWindow && tauriMarker.

Definition authTokenNeeded (providerId : string) : JsError :=
  Error ("AUTH_TOKEN_NEEDED:" +++ providerId).

(** The inner [try] block: the interactive step. *)
Definition interactiveSignIn (providerId : string) : M UserCredential :=
  if inTauri then
    (* whatever [open] does, the block ends in the same throw *)
    try_catch
      (lift (shell_open ("https://www.phenx.io/timebloc?provider="
                         +++ providerId)) ;;;
       throw (authTokenNeeded providerId))
      (fun _ => throw (authTokenNeeded providerId))
  else lift (signInWithPopup providerId).

(** The [catch (popupError)] block. *)
Definition popupFallback (providerId : string) (popupError : JsError)
  : M UserCredential :=
  let errorCode := match code popupError with
                   | Some c => c
                   | None => ""
                   end in
  let errorMessage := message popupError in
  if String.eqb errorCode "auth/popup-blocked"
     || String.eqb errorCode "auth/popup-closed-by-user"
     || includes "popup" errorMessage then
    if inTauri then
      try_catch
        (lift (signInWithRedirect providerId) ;;;
         throw (Error
           "Redirect initiated. Please wait for the authentication to complete."))
        (fun redirectError =>
           throw (Error
             ("Authentication failed. Please try again. Error: "
              +++ Error_toString redirectError)))
    else
      lift (signInWithRedirect providerId) ;;;
      throw (Error
        "Redirect initiated. The page will reload after authentication.")
  else throw popupError.

Definition connectProvider (providerId : string) : M CalendarConnection :=
  match find (fun p => String.eqb (cp_id p) providerId)
             calendarProviders with
  | None => throw (Error ("Provider " +++ providerId +++ " not supported"))
  | Some _ =>
      result <- try_catch (interactiveSignIn providerId)
                          (popupFallback providerId) ;;
      processAuthResult (Some result)
  end.

(** ** [initialize]

    The message the method schedules with [setTimeout] once a pending
    redirect has been turned into a connection is an effect on the
    window, one second later; the world does not record it. *)

Definition initialize : M unit :=
  fun w =>
    if isInitialized w then ret tt w
    else
      (try_catch
         (result <- lift getRedirectResult ;;
          match result with
          | Some r => processAuthResult (Some r) ;;; ret tt
          | None => ret tt
          end)
         (fun _ => ret tt) ;;;
       loadConnections ;;;
       modify (with_isInitialized true)) w.

End Operations.

(* ================================================================= *)
(** * Auxiliary notions for the statements *)

Section Notions.
Context {platform : Platform} {store : CredentialStore}.
Local Open Scope string_scope.

(** Every insertion in the source is [connections.set(c.id, c)]: the key
    of an entry is the id of its connection. *)
Definition keyed (m : JsMap.t CalendarConnection) : Prop :=
  Forall (fun e => fst e = id (snd e)) (JsMap.entries m).

(** The invariant of the connection table. *)
Definition table_ok (m : JsMap.t CalendarConnection) : Prop :=
  JsMap.wf m /\ keyed m.

(** The world a [removeConnection] leaves. *)
Definition afterRemove (connectionId : string) (w : World) : World :=
  let w1 :=
    with_connections (JsMap.delete connectionId (connections w)) w in
  match remove_calendar_connection connectionId (backend w1) with
  | Return b' => with_backend b' w1
  | Throw _ => w1
  end.

(** How the [try] block of the Google fetcher completes once the
    request has been issued. *)
Definition googleTryOutcome (connection : CalendarConnection)
    (s e : Z) : completion (list CalendarEvent) :=
  match fetch (googleRequest connection (toISOString s) (toISOString e))
  with
  | NetworkError err => Throw err
  | Response status body =>
      if negb (response_ok status) then
        Throw (googleApiError status body)
      else
        match json_google body with
        | Throw err => Throw err
        | Return data =>
            Return (match items data with
                    | None => []
                    | Some l => map googleEvent l
                    end)
        end
  end.

Definition microsoftTryOutcome (connection : CalendarConnection)
    (s e : Z) : completion (list CalendarEvent) :=
  match fetch (microsoftRequest connection (toISOString s)
                 (toISOString e))
  with
  | NetworkError err => Throw err
  | Response status body =>
      if negb (response_ok status) then
        Throw (microsoftApiError status body)
      else
        match json_microsoft body with
        | Throw err => Throw err
        | Return data =>
            Return (match value data with
                    | None => []
                    | Some l => map microsoftEvent l
                    end)
        end
  end.

(** The world the [catch] block of a fetcher leaves, given how the
    [try] block completed. *)
Definition afterFetch (connection : CalendarConnection)
    (outcome : completion (list CalendarEvent)) (w : World) : World :=
  match outcome with
  | Return _ => w
  | Throw err =>
      if includes "401" (message err) then afterRemove (id connection) w
      else w
  end.

Definition asReturn (c : completion (list CalendarEvent))
  : completion FetchReturn :=
  match c with
  | Return events => Return (Events events)
  | Throw err => Throw err
  end.

Definition eventsOf (c : completion (list CalendarEvent))
  : list CalendarEvent :=
  match c with
  | Return events => events
  | Throw _ => []
  end.

(** The events one connection adds to [allEvents]. *)
Definition contribution (startDate endDate : JsDate)
    (connection : CalendarConnection) : list CalendarEvent :=
  match startDate, endDate with
  | ValidDate s, ValidDate e =>
      if String.eqb (provider connection) "google" then
        eventsOf (googleTryOutcome connection s e)
      else if String.eqb (provider connection) "microsoft" then
        eventsOf (microsoftTryOutcome connection s e)
      else []
  | _, _ => []
  end.

(** A fetch for [connection] returns [events] / raises. *)
Definition returns (startDate endDate : JsDate)
    (connection : CalendarConnection) (events : list CalendarEvent)
  : Prop :=
  exists fuel w0 w1,
    fetchFor fuel connection startDate endDate w0
    = Some (Return events, w1).

Definition raises (startDate endDate : JsDate)
    (connection : CalendarConnection) : Prop :=
  exists fuel w0 err w1,
    fetchFor fuel connection startDate endDate w0
    = Some (Throw err, w1).


(** What a fetch may do to the table: nothing, or evict its own
    connection. *)
Definition table_step (connection : CalendarConnection) (w w' : World)
  : Prop :=
  connections w' = connections w \/
  connections w' = JsMap.delete (id connection) (connections w).

(** A successful authentication of the account [userId] of provider
    [providerId], by a pasted token or by [connectProvider], taking the
    world [w] to [w'] and returning [c]. *)
Definition authenticatedAs (w : World) (providerId userId : string)
    (c : CalendarConnection) (w' : World) : Prop :=
  (exists requested token decoded authData,
      processAuthToken requested token w = Some (Return c, w') /\
      atob (trim token) = Return decoded /\
      JSON_parse decoded = Return authData /\
      a_provider authData = providerId /\
      a_uid authData = userId)
  \/
  (exists requested result u,
      connectProvider requested w = Some (Return c, w') /\
      signInWithPopup requested = Return result /\
      user result = Some u /\
      getProviderIdFromUser u = Return providerId /\
      uid u = userId).

(** The world of the service object when the module has just built it. *)
Definition initialWorld (b : Store) : World :=
  {| connections := JsMap.empty; isInitialized := false; backend := b;
     ticks := 0; requests := [] |}.

(** One call of a method of the service, run to completion. *)
Inductive call : World -> World -> Prop :=
| call_initialize w r w' :
    initialize w = Some (r, w') -> call w w'
| call_connectProvider providerId w r w' :
    connectProvider providerId w = Some (r, w') -> call w w'
| call_loadConnections w r w' :
    loadConnections w = Some (r, w') -> call w w'
| call_saveConnectionToBackend c w r w' :
    saveConnectionToBackend c w = Some (r, w') -> call w w'
| call_fetchGoogle fuel c startDate endDate w r w' :
    fetchGoogleCalendarEvents fuel c startDate endDate w = Some (r, w') ->
    call w w'
| call_fetchMicrosoft fuel c startDate endDate w r w' :
    fetchMicrosoftCalendarEvents fuel c startDate endDate w
    = Some (r, w') ->
    call w w'
| call_getAllCalendarEvents fuel startDate endDate w r w' :
    getAllCalendarEvents fuel startDate endDate w = Some (r, w') ->
    call w w'
| call_refreshToken c w r w' :
    refreshToken_ c w = Some (r, w') -> call w w'
| call_processAuthToken providerId token w r w' :
    processAuthToken providerId token w = Some (r, w') -> call w w'
| call_removeConnection connectionId w r w' :
    removeConnection connectionId w = Some (r, w') -> call w w'.

(** The worlds the service can be in. *)
Inductive reachable : World -> Prop :=
| reachable_initial b : reachable (initialWorld b)
| reachable_call w w' : reachable w -> call w w' -> reachable w'.

(** What an authentication may do to the table: nothing, or store one
    connection under its id. *)
Definition table_stores (w w' : World) : Prop :=
  connections w' = connections w \/
  exists c, connections w' = JsMap.set (id c) c (connections w).

(** An event that carries a start time, and the order on start times. *)
Definition hasStartTime (ev : CalendarEvent) : Prop :=
  exists ms, start ev = ValidDate ms.

Definition startsNoLater (a b : CalendarEvent) : Prop :=
  exists x y, start a = ValidDate x /\ start b = ValidDate y /\ (x <= y)%Z.

Definition startsAt (t : Z) (ev : CalendarEvent) : bool :=
  match start ev with
  | ValidDate ms => (ms =? t)%Z
  | InvalidDate => false
  end.

End Notions.

(* ================================================================= *)
(** * The loop of [getAllCalendarEvents] over the fetch methods

    [this.fetchGoogleCalendarEvents] and
    [this.fetchMicrosoftCalendarEvents] are properties of the service
    object, looked up at each call: the loop of [getAllCalendarEvents]
    runs whatever the two properties hold, and a test of the aggregator
    replaces them to make the fetch of one connection raise.  Below is
    that loop written over the two methods; over the service's own two
    fetchers it is [getAllCalendarEvents].

    The service's own Google fetcher raises to the loop when a date of
    the range is invalid and, at run time, when the record it is given
    has no access token (its second statement reads
    [connection.accessToken.length] before the [try], and
    [processAuthToken] stores the token of the pasted payload
    unchecked); the statements about the loop hold for any behaviour of
    the two methods and so for both. *)

Section Loop.
Context {platform : Platform} {store : CredentialStore}.
Local Open Scope string_scope.
Local Open Scope js_scope.

(** The two methods; the first argument bounds the retries of a call,
    as in the service's own fetchers. *)
Record FetchMethods : Type := mkFetchMethods {
  googleFetcher :
    nat -> CalendarConnection -> JsDate -> JsDate
    -> M (list CalendarEvent);
  microsoftFetcher :
    nat -> CalendarConnection -> JsDate -> JsDate
    -> M (list CalendarEvent)
}.


Definition fetchForVia (methods : FetchMethods) (fuel : nat)
    (connection : CalendarConnection) (startDate endDate : JsDate)
  : M (list CalendarEvent) :=
  if String.eqb (provider connection) "google" then
    googleFetcher methods fuel connection startDate endDate
  else if String.eqb (provider connection) "microsoft" then
    microsoftFetcher methods fuel connection startDate endDate
  else ret [].

Definition fetchIntoVia (methods : FetchMethods) (fuel : nat)
    (allEvents : list CalendarEvent) (connection : CalendarConnection)
    (startDate endDate : JsDate) : M (list CalendarEvent) :=
  try_catch
    (events <- fetchForVia methods fuel connection startDate endDate ;;
     ret (allEvents ++ events)%list)
    (fun _ => ret allEvents).

Fixpoint forOfConnectionsVia (methods : FetchMethods) (fuel : nat)
    (index : nat) (allEvents : list CalendarEvent)
    (startDate endDate : JsDate) : M (list CalendarEvent) :=
  match fuel with
  | O => diverge
  | S fuel' =>
      fun w =>
        match nth_error (connections w) index with
        | None => ret allEvents w
        | Some None =>
            forOfConnectionsVia methods fuel' (S index) allEvents
              startDate endDate w
        | Some (Some (_, connection)) =>
            (allEvents' <-
               fetchIntoVia methods fuel' allEvents connection
                 startDate endDate ;;
             forOfConnectionsVia methods fuel' (S index) allEvents'
               startDate endDate) w
        end
  end.

Definition getAllCalendarEventsVia (methods : FetchMethods) (fuel : nat)
    (startDate endDate : JsDate) : M (list CalendarEvent) :=
  allEvents <- forOfConnectionsVia methods fuel 0 [] startDate endDate ;;
  ret (Array_sort byStart allEvents).




End Loop.

(* ================================================================= *)
(** * Object identity: what [getConnections] hands out

    The service never writes to a connection object after creating it, so
    the rest of this development treats connections as values.  What a
    caller can do through the array that [getConnections] returns depends
    on which objects are shared; here the heap is explicit: the table
    holds references, [Array.from(this.connections.values())] allocates a
    new array holding the same references. *)

Module Shared.

Definition ref : Type := nat.

Inductive Obj : Type :=
| ConnectionObj (c : CalendarConnection)
| ArrayObj (elems : list ref).

Definition Heap : Type := list Obj.

Record State : Type := mkState {
  heap : Heap;
  connections : JsMap.t ref
}.

Definition alloc (o : Obj) (h : Heap) : ref * Heap :=
  (length h, h ++ [o]).

Fixpoint update (p : ref) (o : Obj) (h : Heap) : Heap :=
  match h, p with
  | [], _ => []
  | _ :: h', O => o :: h'
  | x :: h', S p' => x :: update p' o h'
  end.

Definition deref (h : Heap) (p : ref) : option CalendarConnection :=
  match nth_error h p with
  | Some (ConnectionObj c) => Some c
  | _ => None
  end.

(** [this.connections.set(connection.id, connection)] for a connection
    object just built from an object literal. *)
Definition storeConnection (c : CalendarConnection) (st : State) : State :=
  let (p, h) := alloc (ConnectionObj c) (heap st) in
  {| heap := h; connections := JsMap.set (id c) p (connections st) |}.

(** [getConnections()]: the reference to the new array, and the state
    with that array allocated. *)
Definition getConnections (st : State) : ref * State :=
  let (r, h) := alloc (ArrayObj (JsMap.values (connections st)))
                  (heap st) in
  (r, {| heap := h; connections := connections st |}).

(** What a caller can do with the returned array [r]: change the array
    itself (push, pop, splice, sort, assignment to an index: any
    function of its elements), or assign to a field of the record at
    some index. *)
Inductive Mutation : Type :=
| ArrayWrite (f : list ref -> list ref)
| FieldWrite (index : nat) (f : CalendarConnection -> CalendarConnection).

Definition mutate (r : ref) (h : Heap) (mu : Mutation) : Heap :=
  match nth_error h r with
  | Some (ArrayObj elems) =>
      match mu with
      | ArrayWrite f => update r (ArrayObj (f elems)) h
      | FieldWrite index f =>
          match nth_error elems index with
          | Some p =>
              match nth_error h p with
              | Some (ConnectionObj c) => update p (ConnectionObj (f c)) h
              | _ => h
              end
          | None => h
          end
      end
  | _ => h
  end.

Definition mutateAll (r : ref) (mus : list Mutation) (st : State)
  : State :=
  {| heap := fold_left (mutate r) mus (heap st);
     connections := connections st |}.

(** The manager's internal state: the table, each key with the record
    its reference denotes. *)
Definition internal (st : State)
  : list (option (string * option CalendarConnection)) :=
  map (option_map (fun e => (fst e, deref (heap st) (snd e))))
      (connections st).

(** Every reference in the table denotes a connection object. *)
Definition heap_ok (st : State) : Prop :=
  Forall (fun p => exists c, nth_error (heap st) p = Some (ConnectionObj c))
         (JsMap.values (connections st)).

Definition isArrayWrite (mu : Mutation) : Prop :=
  match mu with
  | ArrayWrite _ => True
  | FieldWrite _ _ => False
  end.

End Shared.

(* ================================================================= *)
(** * What a fetch does besides returning events *)

Section Effects.
Context {platform : Platform} {store : CredentialStore}.
Local Open Scope string_scope.

(** The test the [catch] block of a fetcher applies to what the [try]
    block threw: [error.message.includes('401')]. *)
Definition unauthorized (outcome : completion (list CalendarEvent))
  : bool :=
  match outcome with
  | Return _ => false
  | Throw err => includes "401" (message err)
  end.

(** The network calls one turn of the aggregator's loop issues. *)
Definition requestsFor (startDate endDate : JsDate)
    (connection : CalendarConnection) : list HttpRequest :=
  match startDate, endDate with
  | ValidDate s, ValidDate e =>
      if String.eqb (provider connection) "google" then
        [googleRequest connection (toISOString s) (toISOString e)]
      else if String.eqb (provider connection) "microsoft" then
        [microsoftRequest connection (toISOString s) (toISOString e)]
      else []
  | _, _ => []
  end.

(** Whether that turn evicts the connection. *)
Definition evicted (startDate endDate : JsDate)
    (connection : CalendarConnection) : bool :=
  match startDate, endDate with
  | ValidDate s, ValidDate e =>
      if String.eqb (provider connection) "google" then
        unauthorized (googleTryOutcome connection s e)
      else if String.eqb (provider connection) "microsoft" then
        unauthorized (microsoftTryOutcome connection s e)
      else false
  | _, _ => false
  end.

(** What the loop leaves of an entry of the table. *)
Definition sweep (startDate endDate : JsDate)
    (slot : option (string * CalendarConnection))
  : option (string * CalendarConnection) :=
  match slot with
  | Some (k, connection) =>
      if evicted startDate endDate connection then None
      else Some (k, connection)
  | None => None
  end.

(** The condition under which [connectProvider] answers a failed popup
    with a redirect. *)
Definition popupTrouble (popupError : JsError) : bool :=
  String.eqb (match code popupError with Some c => c | None => "" end)
    "auth/popup-blocked"
  || String.eqb (match code popupError with Some c => c | None => "" end)
       "auth/popup-closed-by-user"
  || includes "popup" (message popupError).

(** A connection that [loadConnections] reads back as it was saved:
    none of the defaults of the loader applies to its row. *)
Definition storable (c : CalendarConnection) : Prop :=
  id c <> "" /\ expiresAt c <> 0%Z /\ connectedAt c <> 0%Z
  /\ refreshToken c <> Some "".

End Effects.

(* ================================================================= *)
(** * The calendar handlers of the page ([src/app/page.tsx])

    The callers of the service: the handlers behind the calendar
    settings and the synchronisation, and the placement of the events in
    the time grid.  A handler runs to completion; the state below is the
    component state once React has applied the updates the handler
    made, together with the messages the handler shows by [alert]. *)

Module Page.

(** An element of the [calendarConnections] state. *)
Record ConnectionSummary : Type := mkSummary {
  s_id : string;
  s_provider : string;
  s_email : string;
  s_connectedAt : Z
}.

Record State : Type := mkState {
  calendarConnections : list ConnectionSummary;
  calendarEvents : list CalendarEvent;
  isConnectingCalendar : bool;
  showTokenInput : bool;
  authToken : string;
  pendingProvider : string;
  currentDate : string;
  (** the messages the handlers show by [alert], oldest first (the
      message the service schedules after finalising a pending redirect
      is not a handler's and is not recorded here) *)
  alerts : list string
}.

Definition setCalendarConnections (l : list ConnectionSummary)
    (p : State) : State :=
  {| calendarConnections := l; calendarEvents := calendarEvents p;
     isConnectingCalendar := isConnectingCalendar p;
     showTokenInput := showTokenInput p; authToken := authToken p;
     pendingProvider := pendingProvider p; currentDate := currentDate p;
     alerts := alerts p |}.

Definition setCalendarEvents (l : list CalendarEvent) (p : State)
  : State :=
  {| calendarConnections := calendarConnections p; calendarEvents := l;
     isConnectingCalendar := isConnectingCalendar p;
     showTokenInput := showTokenInput p; authToken := authToken p;
     pendingProvider := pendingProvider p; currentDate := currentDate p;
     alerts := alerts p |}.

Definition setIsConnectingCalendar (b : bool) (p : State) : State :=
  {| calendarConnections := calendarConnections p;
     calendarEvents := calendarEvents p;
     isConnectingCalendar := b;
     showTokenInput := showTokenInput p; authToken := authToken p;
     pendingProvider := pendingProvider p; currentDate := currentDate p;
     alerts := alerts p |}.

Definition setShowTokenInput (b : bool) (p : State) : State :=
  {| calendarConnections := calendarConnections p;
     calendarEvents := calendarEvents p;
     isConnectingCalendar := isConnectingCalendar p;
     showTokenInput := b; authToken := authToken p;
     pendingProvider := pendingProvider p; currentDate := currentDate p;
     alerts := alerts p |}.

Definition setAuthToken (s : string) (p : State) : State :=
  {| calendarConnections := calendarConnections p;
     calendarEvents := calendarEvents p;
     isConnectingCalendar := isConnectingCalendar p;
     showTokenInput := showTokenInput p; authToken := s;
     pendingProvider := pendingProvider p; currentDate := currentDate p;
     alerts := alerts p |}.

Definition setPendingProvider (s : string) (p : State) : State :=
  {| calendarConnections := calendarConnections p;
     calendarEvents := calendarEvents p;
     isConnectingCalendar := isConnectingCalendar p;
     showTokenInput := showTokenInput p; authToken := authToken p;
     pendingProvider := s; currentDate := currentDate p;
     alerts := alerts p |}.

(** [alert(msg)]. *)
Definition alert (msg : string) (p : State) : State :=
  {| calendarConnections := calendarConnections p;
     calendarEvents := calendarEvents p;
     isConnectingCalendar := isConnectingCalendar p;
     showTokenInput := showTokenInput p; authToken := authToken p;
     pendingProvider := pendingProvider p; currentDate := currentDate p;
     alerts := alerts p ++ [msg] |}.

(** [String.prototype.split] with a one-character separator. *)
Fixpoint split (sep : ascii) (s : string) : list string :=
  match s with
  | EmptyString => [EmptyString]
  | String a s' =>
      if Ascii.eqb a sep then EmptyString :: split sep s'
      else match split sep s' with
           | x :: l => String a x :: l
           | [] => [String a EmptyString]
           end
  end.

(** The line feed of the template strings. *)
Definition newline : string := String (ascii_of_nat 10) EmptyString.

(** [getHours] and [getMinutes] of a valid date, in the local time zone
    of the machine. *)
Class LocalTime : Type := {
  getHours : Z -> Z;
  getMinutes : Z -> Z;
  getHours_range : forall ms, (0 <= getHours ms < 24)%Z;
  getMinutes_range : forall ms, (0 <= getMinutes ms < 60)%Z
}.

(** [a <= b] and [a > b] on numbers: false when an operand is [NaN]. *)
Definition js_le (a b : JsNumber) : bool :=
  match a, b with
  | Num x, Num y => (x <=? y)%Z
  | _, _ => false
  end.

Definition js_gt (a b : JsNumber) : bool :=
  match a, b with
  | Num x, Num y => (y <? x)%Z
  | _, _ => false
  end.

Section Handlers.
Context {platform : Platform} {store : CredentialStore}.
Context {locale : LocalTime}.
Local Open Scope string_scope.
Local Open Scope js_scope.

(** ** [loadCalendarConnections] *)

Definition summarize (conn : CalendarConnection) : ConnectionSummary :=
  {| s_id := id conn; s_provider := provider conn;
     s_email := email conn; s_connectedAt := connectedAt conn |}.

Definition loadCalendarConnections (p : State) (w : World)
  : option (State * World) :=
  match initialize w with
  | None => None
  | Some (Return _, w1) =>
      Some (setCalendarConnections
              (map summarize (getConnections w1)) p, w1)
  | Some (Throw _, w1) => Some (p, w1)
  end.

(** ** [connectCalendarProvider] *)

Definition connectedMessage (connection : CalendarConnection) : string :=
  "Successfully connected " +++ provider connection
  +++ " calendar for " +++ email connection +++ "!".

(** The [catch] block. *)
Definition connectFailed (error : JsError) (p : State) : State :=
  let errorMessage := message error in
  if String.prefix "AUTH_TOKEN_NEEDED:" errorMessage then
    (* the array has a second element: the message contains a colon *)
    let provider := nth 1 (split ":" errorMessage) "" in
    let authUrl := "https://www.phenx.io/timebloc?provider=" +++ provider in
    alert ("If the browser didn't open automatically, please visit:"
           +++ newline +++ authUrl +++ newline +++ newline
           +++ "Then copy the token and paste it in the next dialog.")
      (setAuthToken ""
         (setShowTokenInput true (setPendingProvider provider p)))
  else if includes "complete authentication in your browser"
            errorMessage then
    alert "Calendar authentication opened in your browser. Please complete the sign-in process there, then try connecting again."
      p
  else if match code error with
          | Some c => String.eqb c "auth/popup-blocked"
          | None => false
          end then
    alert "Popup was blocked. Please allow popups for this app or try again."
      p
  else alert ("Failed to connect calendar: " +++ errorMessage) p.

Definition connectCalendarProvider (providerId : string) (p : State)
    (w : World) : option (State * World) :=
  let p1 := setIsConnectingCalendar true p in
  match (initialize ;;; connectProvider providerId) w with
  | None => None
  | Some (Return connection, w1) =>
      match loadCalendarConnections p1 w1 with
      | None => None
      | Some (p2, w2) =>
          Some (setIsConnectingCalendar false
                  (alert (connectedMessage connection) p2), w2)
      end
  | Some (Throw error, w1) =>
      Some (setIsConnectingCalendar false (connectFailed error p1), w1)
  end.

(** ** [submitAuthToken] *)

Definition submitAuthToken (p : State) (w : World)
  : option (State * World) :=
  if negb (truthy (trim (authToken p)))
     || negb (truthy (pendingProvider p)) then Some (p, w)
  else
    let p1 := setIsConnectingCalendar true p in
    match processAuthToken (pendingProvider p) (authToken p) w with
    | None => None
    | Some (Return connection, w1) =>
        let p2 :=
          setPendingProvider ""
            (setAuthToken "" (setShowTokenInput false p1)) in
        match loadCalendarConnections p2 w1 with
        | None => None
        | Some (p3, w2) =>
            Some (setIsConnectingCalendar false
                    (alert (connectedMessage connection) p3), w2)
        end
    | Some (Throw error, w1) =>
        Some (setIsConnectingCalendar false
                (alert ("Failed to process token: " +++ message error)
                   p1), w1)
    end.

(** ** [disconnectCalendar] *)

Definition disconnectCalendar (connectionId : string) (p : State)
    (w : World) : option (State * World) :=
  match (initialize ;;; removeConnection connectionId) w with
  | None => None
  | Some (Return _, w1) => loadCalendarConnections p w1
  | Some (Throw _, w1) => Some (p, w1)
  end.

(** ** [syncCalendars] *)

Definition dayStart (p : State) : JsDate :=
  newDate (currentDate p +++ "T00:00:00").

Definition dayEnd (p : State) : JsDate :=
  newDate (currentDate p +++ "T23:59:59").

Definition syncCalendars (fuel : nat) (p : State) (w : World)
  : option (State * World) :=
  match (initialize ;;;
         getAllCalendarEvents fuel (dayStart p) (dayEnd p)) w with
  | None => None
  | Some (Return events, w1) => Some (setCalendarEvents events p, w1)
  | Some (Throw _, w1) => Some (p, w1)
  end.

(** ** [getEventsForTime] *)

(** [d.getHours() * 60 + d.getMinutes()]. *)
Definition minuteOfDay (d : JsDate) : JsNumber :=
  match d with
  | ValidDate ms => Num (getHours ms * 60 + getMinutes ms)
  | InvalidDate => NaN
  end.

Definition getEventsForTime (p : State) (startMinutes : Z)
  : list CalendarEvent :=
  filter
    (fun event =>
       let eventMinutes := minuteOfDay (start event) in
       let eventEndMinutes := minuteOfDay (end_ event) in
       js_le eventMinutes (Num startMinutes)
       && js_gt eventEndMinutes (Num startMinutes))
    (calendarEvents p).

(** The slots the time grid asks [getEventsForTime] for: [hour * 60] and
    [hour * 60 + 30] of each of the 24 rows. *)
Definition gridSlots : list Z :=
  flat_map
    (fun hourIndex =>
       let hour := Z.of_nat hourIndex in
       [(hour * 60)%Z; (hour * 60 + 30)%Z])
    (seq 0 24).

End Handlers.
End Page.

(* ================================================================= *)
(** * A sample platform and store

    Small stand-ins for the collaborators, to run the model on concrete
    inputs. *)

Module Sample.
Local Open Scope string_scope.

(** Modelled from the spec: the Credential Store (the Rust backend is
    not among the sources), with the operations the spec lists for it:
    list, upsert by id, delete by id. *)
Fixpoint upsert (r : BackendConnection) (l : list BackendConnection)
  : list BackendConnection :=
  match l with
  | [] => [r]
  | x :: l' =>
      if String.eqb (b_id x) (b_id r) then r :: l' else x :: upsert r l'
  end.

Definition store : CredentialStore :=
  {| Store := list BackendConnection;
     get_calendar_connections := fun l => Return l;
     save_firebase_calendar_connection := fun r l => Return (upsert r l);
     remove_calendar_connection :=
       fun k l =>
         Return (filter (fun x => negb (String.eqb (b_id x) k)) l) |}.

(** A timed and an all-day Google item. *)
Definition timedItem : GoogleItem :=
  {| g_id := "g-late"; summary := Some "Review";
     g_start := {| dateTime := Some "30"; date := None |};
     g_end := {| dateTime := Some "40"; date := None |};
     g_description := None; g_location := None |}.

Definition allDayItem : GoogleItem :=
  {| g_id := "g-early"; summary := None;
     g_start := {| dateTime := None; date := Some "10" |};
     g_end := {| dateTime := None; date := Some "20" |};
     g_description := None; g_location := None |}.

Definition googleItems : list GoogleItem := [timedItem; allDayItem].

Definition microsoftItems : list MicrosoftItem :=
  [ {| m_id := "m-mid"; subject := Some "Standup";
       m_start := "20"; m_end := "25"; m_isAllDay := false;
       bodyPreview := None; m_location := None |};
    {| m_id := "m-early"; subject := Some "Holiday";
       m_start := "10"; m_end := "20"; m_isAllDay := true;
       bodyPreview := None;
       m_location := Some {| displayName := Some "Home" |} |} ].

Definition popupCredential : UserCredential :=
  {| user := Some {| uid := "u1"; u_email := Some "ann@example.org";
                     providerData := ["google.com"];
                     getIdToken := Return "id-token" |};
     googleCredential := Return (Some "tok-g");
     oauthCredential := Return None |}.

Definition bearerOf (req : HttpRequest) : string :=
  match headers req with
  | (_, v) :: _ => v
  | [] => ""
  end.

(** Dates are written as decimal milliseconds; a token is its own
    base64 form; the server answers by bearer token. *)
Definition platform : Platform :=
  {| clock := fun n => (1700000000000 + Z.of_nat n)%Z;
     newDate := fun s =>
       if String.eqb s "" then InvalidDate
       else match NilZero.uint_of_string s with
            | Some u => ValidDate (Z.of_nat (Nat.of_uint u))
            | None => InvalidDate
            end;
     toISOString := String_of_Z;
     trim := fun s => s;
     atob := fun s =>
       if String.eqb s "%%%" then
         Throw {| name := "InvalidCharacterError"; code := None;
                  message := "The string to be decoded is not correctly encoded." |}
       else Return s;
     JSON_parse := fun s =>
       if String.eqb s "google:u1" then
         Return {| a_provider := "google"; a_email := "ann@example.org";
                   a_uid := "u1"; a_accessToken := "tok-g";
                   a_idToken := "id-token" |}
       else if String.eqb s "microsoft:u2" then
         Return {| a_provider := "microsoft";
                   a_email := "bob@example.org";
                   a_uid := "u2"; a_accessToken := "tok-m";
                   a_idToken := "id-token" |}
       else Throw {| name := "SyntaxError"; code := None;
                     message := "Unexpected token" |};
     fetch := fun req =>
       if String.eqb (bearerOf req) "Bearer tok-g" then Response 200 "G"
       else if String.eqb (bearerOf req) "Bearer tok-m"
            then Response 200 "M"
       else if String.eqb (bearerOf req) "Bearer tok-old"
            then Response 401 "Unauthorized"
       else if String.eqb (bearerOf req) "Bearer tok-err"
            then Response 500 "boom"
       else NetworkError {| name := "TypeError"; code := None;
                            message := "Failed to fetch" |};
     json_google := fun body =>
       if String.eqb body "G"
       then Return {| items := Some googleItems |}
       else Throw {| name := "SyntaxError"; code := None;
                     message := "Unexpected token" |};
     json_microsoft := fun body =>
       if String.eqb body "M"
       then Return {| value := Some microsoftItems |}
       else Throw {| name := "SyntaxError"; code := None;
                     message := "Unexpected token" |};
     hasWindow := true;
     tauriMarker := false;
     shell_open := fun _ => Return tt;
     signInWithPopup := fun _ => Return popupCredential;
     signInWithRedirect := fun _ => Return tt;
     getRedirectResult := Return None |}.

Definition connectionWith (cid prov token : string) : CalendarConnection :=
  {| id := cid; provider := prov; email := "ann@example.org";
     accessToken := token; refreshToken := None;
     expiresAt := 1700000000500; connectedAt := 1690000000000 |}.

Definition google1 : CalendarConnection :=
  connectionWith "google-u1" "google" "tok-g".
Definition microsoft2 : CalendarConnection :=
  connectionWith "microsoft-u2" "microsoft" "tok-m".
Definition googleOld : CalendarConnection :=
  connectionWith "google-u3" "google" "tok-old".
Definition microsoftOld : CalendarConnection :=
  connectionWith "microsoft-u4" "microsoft" "tok-old".
Definition googleErr : CalendarConnection :=
  connectionWith "google-u5" "google" "tok-err".
Definition googleDown : CalendarConnection :=
  connectionWith "google-u6" "google" "tok-down".
Definition yahoo7 : CalendarConnection :=
  connectionWith "yahoo-u7" "yahoo" "tok-y".

Definition tableOf (l : list CalendarConnection)
  : JsMap.t CalendarConnection :=
  map (fun c => Some (id c, c)) l.

Definition worldOf (l : list CalendarConnection)
  : @World store :=
  {| connections := tableOf l; isInitialized := true;
     backend := map (@backend_of_connection) l : @Store store;
     ticks := 0; requests := [] |}.

Definition range_start : JsDate := ValidDate 0.
Definition range_end : JsDate := ValidDate 100.

Definition googleEvents : list CalendarEvent :=
  map (@googleEvent platform) googleItems.
Definition microsoftEvents : list CalendarEvent :=
  map (@microsoftEvent platform) microsoftItems.

(** The result and the world of a run that returned. *)
Definition returned {A} (default : A * @World store)
    (r : option (completion A * @World store)) : A * @World store :=
  match r with
  | Some (Return a, w) => (a, w)
  | _ => default
  end.

(** The account [u1] of Google authenticated twice: by a pasted token,
    then through the popup. *)
Definition firstAuth : CalendarConnection * @World store :=
  returned (google1, worldOf [])
    (@processAuthToken platform store "google" "google:u1"
       (worldOf [microsoft2])).

Definition secondAuth : CalendarConnection * @World store :=
  returned (google1, worldOf [])
    (@connectProvider platform store "google" (snd firstAuth)).

(** The ids and all-day flags of the events a run returned. *)
Definition summaryOf
    (r : option (completion (list CalendarEvent) * @World store))
  : option (list (string * bool)) :=
  match r with
  | Some (Return events, _) =>
      Some (map (fun ev => (ev_id ev, isAllDay ev)) events)
  | _ => None
  end.

(** A service started over a store that holds a row of an unknown
    provider and a Google row. *)
Definition started : unit * @World store :=
  returned (tt, worldOf [])
    (@initialize platform store
       (@initialWorld store
          [@backend_of_connection yahoo7; @backend_of_connection google1])).

(** A heap with two connection objects and the table over them. *)
Definition sharedState : Shared.State :=
  {| Shared.heap := [Shared.ConnectionObj google1;
                     Shared.ConnectionObj microsoft2];
     Shared.connections := [Some ("google-u1", 0);
                            Some ("microsoft-u2", 1)] |}.

Definition arrayMutations : list Shared.Mutation :=
  [ Shared.ArrayWrite (fun l => 7 :: l);
    Shared.ArrayWrite (@rev Shared.ref);
    Shared.ArrayWrite (fun _ => []) ].

(** [result[0].accessToken = "overwritten"]. *)
Definition fieldMutation : Shared.Mutation :=
  Shared.FieldWrite 0
    (fun c => {| id := id c; provider := provider c; email := email c;
                 accessToken := "overwritten";
                 refreshToken := refreshToken c;
                 expiresAt := expiresAt c;
                 connectedAt := connectedAt c |}).

(** ** Further stand-ins *)

(** The sample platform with another shell, popup and server. *)
Definition platformWith (marker : bool)
    (opener : string -> completion unit)
    (popup : string -> completion UserCredential)
    (redirectResult : completion (option UserCredential))
    (server : HttpRequest -> HttpOutcome) : Platform :=
  {| clock := @clock platform;
     newDate := @newDate platform;
     toISOString := @toISOString platform;
     trim := @trim platform;
     atob := @atob platform;
     JSON_parse := @JSON_parse platform;
     fetch := server;
     json_google := @json_google platform;
     json_microsoft := @json_microsoft platform;
     hasWindow := true;
     tauriMarker := marker;
     shell_open := opener;
     signInWithPopup := popup;
     signInWithRedirect := @signInWithRedirect platform;
     getRedirectResult := redirectResult |}.

(** The desktop shell, where the browser cannot even be opened. *)
Definition tauriPlatform : Platform :=
  platformWith true
    (fun _ => Throw (Error "shell scope not allowed"))
    (@signInWithPopup platform) (Return None) (@fetch platform).

(** A browser that blocks popups. *)
Definition popupBlocked : JsError :=
  {| name := "FirebaseError"; code := Some "auth/popup-blocked";
     message := "Firebase: Error (auth/popup-blocked)." |}.

Definition blockedPlatform : Platform :=
  platformWith false (fun _ => Return tt)
    (fun _ => Throw popupBlocked) (Return None) (@fetch platform).

(** A gateway in front of the provider that answers 502 and quotes the
    provider's status in the body. *)
Definition gatewayPlatform : Platform :=
  platformWith false (fun _ => Return tt)
    (@signInWithPopup platform) (Return None)
    (fun _ => Response 502 "upstream answered 401").

(** A server whose 200 response carries no [items] array. *)
Definition bareGoogle : Platform :=
  {| clock := @clock platform;
     newDate := @newDate platform;
     toISOString := @toISOString platform;
     trim := @trim platform;
     atob := @atob platform;
     JSON_parse := @JSON_parse platform;
     fetch := fun _ => Response 200 "{}";
     json_google := fun _ => Return {| items := None |};
     json_microsoft := fun _ => Return {| value := None |};
     hasWindow := true;
     tauriMarker := false;
     shell_open := fun _ => Return tt;
     signInWithPopup := @signInWithPopup platform;
     signInWithRedirect := @signInWithRedirect platform;
     getRedirectResult := Return None |}.

(** A store that lists its rows and rejects every change. *)
Definition readOnlyStore : CredentialStore :=
  {| Store := list BackendConnection;
     get_calendar_connections := fun l => Return l;
     save_firebase_calendar_connection :=
       fun _ _ => Throw (Error "database is locked");
     remove_calendar_connection :=
       fun _ _ => Throw (Error "database is locked") |}.

Definition readOnlyWorld (l : list CalendarConnection)
  : @World readOnlyStore :=
  {| connections := tableOf l; isInitialized := true;
     backend := map (@backend_of_connection) l : @Store readOnlyStore;
     ticks := 0; requests := [] |}.

(** A service not yet initialised over the rows of [l]. *)
Definition coldWorld (l : list CalendarConnection) : @World store :=
  @initialWorld store (map (@backend_of_connection) l).

(** Local time is UTC. *)
Definition utc : Page.LocalTime :=
  {| Page.getHours := fun ms => ((ms / 3600000) mod 24)%Z;
     Page.getMinutes := fun ms => ((ms / 60000) mod 60)%Z;
     Page.getHours_range :=
       fun ms => Z.mod_pos_bound (ms / 3600000) 24 eq_refl;
     Page.getMinutes_range :=
       fun ms => Z.mod_pos_bound (ms / 60000) 60 eq_refl |}.

(** The page before anything has happened, on a given day. *)
Definition pageOn (day : string) : Page.State :=
  {| Page.calendarConnections := []; Page.calendarEvents := [];
     Page.isConnectingCalendar := false; Page.showTokenInput := false;
     Page.authToken := ""; Page.pendingProvider := "";
     Page.currentDate := day; Page.alerts := [] |}.

(** The page with the token dialog open for Google and a token typed. *)
Definition pageWithToken (token : string) : Page.State :=
  Page.setAuthToken token
    (Page.setShowTokenInput true
       (Page.setPendingProvider "google" (pageOn "0"))).

(** An event from [from] to [to] milliseconds into the day. *)
Definition eventBetween (from to : Z) : CalendarEvent :=
  {| ev_id := "e"; title := "Call"; start := ValidDate from;
     end_ := ValidDate to; isAllDay := false; description := None;
     location := None; ev_provider := "google" |}.

Definition pageShowing (events : list CalendarEvent) : Page.State :=
  Page.setCalendarEvents events (pageOn "0").

(** The sample platform with a calendar: the two ends of 1 May 2024
    parse to the ends of the sample range. *)
Definition calendarPlatform : Platform :=
  {| clock := @clock platform;
     newDate := fun s =>
       if String.eqb s "2024-05-01T00:00:00" then range_start
       else if String.eqb s "2024-05-01T23:59:59" then range_end
       else @newDate platform s;
     toISOString := @toISOString platform;
     trim := @trim platform;
     atob := @atob platform;
     JSON_parse := @JSON_parse platform;
     fetch := @fetch platform;
     json_google := @json_google platform;
     json_microsoft := @json_microsoft platform;
     hasWindow := true;
     tauriMarker := false;
     shell_open := @shell_open platform;
     signInWithPopup := @signInWithPopup platform;
     signInWithRedirect := @signInWithRedirect platform;
     getRedirectResult := Return None |}.

(** The account [u1] of Google connected through the popup, and by a
    pasted token, on an empty table. *)
Definition popupAuth : CalendarConnection * @World store :=
  returned (google1, worldOf [])
    (@connectProvider platform store "google" (worldOf [])).

Definition tokenAuth : CalendarConnection * @World store :=
  returned (google1, worldOf [])
    (@processAuthToken platform store "google" "google:u1"
       (worldOf [])).

(** The aggregator under test: the Google method is replaced by one
    that raises for the connection [google-u6], as reading the length
    of a missing token does, and is the service's own for the others. *)
Definition tokenLengthError : JsError :=
  {| name := "TypeError"; code := None;
     message := "Cannot read properties of undefined (reading 'length')" |}.

Definition stubbedFetchers : @FetchMethods store :=
  {| googleFetcher := fun fuel c startDate endDate =>
       if String.eqb (id c) "google-u6" then throw tokenLengthError
       else @fetchGoogleCalendarEvents platform store fuel c
              startDate endDate;
     microsoftFetcher := @fetchMicrosoftCalendarEvents platform store |}.

End Sample.

(* ================================================================= *)
(** * Properties *)

(** ** Strings *)

Lemma prefix_append (s t : string) : String.prefix s (s +++ t)%string = true.
Proof.
  induction s as [|a s IH]; simpl.
  - destruct t; reflexivity.
  - destruct (Ascii.ascii_dec a a) as [_|n]; [exact IH | congruence].
Qed.

Lemma includes_unfold (n h : string) :
  includes n h =
  if String.prefix n h then true
  else match h with
       | EmptyString => false
       | String _ h' => includes n h'
       end.
Proof. destruct h; reflexivity. Qed.

Lemma includes_here (n t : string) : includes n (n +++ t)%string = true.
Proof. rewrite includes_unfold, prefix_append. reflexivity. Qed.

Lemma includes_self (n : string) : includes n n = true.
Proof.
  assert (H: (n +++ "")%string = n).
  { induction n; simpl; congruence. }
  rewrite <- H at 2. apply includes_here.
Qed.

Lemma includes_append_r (n s t : string) :
  includes n t = true -> includes n (s +++ t)%string = true.
Proof.
  intros H. induction s as [|a s IH]; simpl.
  - exact H.
  - change (includes n (String a (s +++ t)) = true).
    rewrite includes_unfold, IH.
    destruct (String.prefix n (String a (s +++ t))); reflexivity.
Qed.

Lemma includes_middle (n s t : string) :
  includes n (s +++ n +++ t)%string = true.
Proof. apply includes_append_r, includes_here. Qed.

(** ** The [Map] *)

Module JsMapFacts.
Section Facts.
Context {V : Type}.
Implicit Types (m : JsMap.t V) (k : string) (v : V).

Lemma get_In_keys k m :
  JsMap.get k m <> None <-> In k (JsMap.keys m).
Proof.
  unfold JsMap.keys.
  induction m as [|[[k' v']|] m IH]; simpl.
  - split; [congruence | tauto].
  - destruct (String.eqb_spec k' k) as [->|Hne].
    + split; [auto | congruence].
    + rewrite IH. split; [auto | intros [H|H]; [congruence | exact H]].
  - exact IH.
Qed.

Lemma get_None_keys k m :
  JsMap.get k m = None <-> ~ In k (JsMap.keys m).
Proof.
  rewrite <- get_In_keys. destruct (JsMap.get k m); split; intros H.
  - discriminate.
  - exfalso. apply H. discriminate.
  - intros H'. congruence.
  - reflexivity.
Qed.

Lemma get_set_same k v m : JsMap.get k (JsMap.set k v m) = Some v.
Proof.
  induction m as [|[[k' v']|] m IH]; simpl.
  - rewrite String.eqb_refl. reflexivity.
  - destruct (String.eqb_spec k' k) as [->|Hne]; simpl.
    + rewrite String.eqb_refl. reflexivity.
    + destruct (String.eqb_spec k' k); [contradiction | exact IH].
  - exact IH.
Qed.

Lemma get_set_other k k0 v m :
  k <> k0 -> JsMap.get k0 (JsMap.set k v m) = JsMap.get k0 m.
Proof.
  intros Hne.
  induction m as [|[[k' v']|] m IH]; simpl.
  - destruct (String.eqb_spec k k0); [contradiction | reflexivity].
  - destruct (String.eqb_spec k' k) as [->|Hne']; simpl.
    + destruct (String.eqb_spec k k0); [contradiction | reflexivity].
    + rewrite IH. reflexivity.
  - exact IH.
Qed.

Lemma keys_set_present k v m :
  JsMap.get k m <> None -> JsMap.keys (JsMap.set k v m) = JsMap.keys m.
Proof.
  unfold JsMap.keys.
  induction m as [|[[k' v']|] m IH]; simpl; intros H.
  - congruence.
  - destruct (String.eqb_spec k' k) as [->|Hne]; simpl.
    + reflexivity.
    + rewrite IH by exact H. reflexivity.
  - apply IH, H.
Qed.

Lemma keys_set_absent k v m :
  JsMap.get k m = None ->
  JsMap.keys (JsMap.set k v m) = JsMap.keys m ++ [k].
Proof.
  unfold JsMap.keys.
  induction m as [|[[k' v']|] m IH]; simpl; intros H.
  - reflexivity.
  - destruct (String.eqb_spec k' k) as [->|Hne]; simpl.
    + discriminate.
    + rewrite IH by exact H. reflexivity.
  - apply IH, H.
Qed.

Lemma size_keys m : JsMap.size m = length (JsMap.keys m).
Proof. unfold JsMap.size, JsMap.keys. rewrite length_map. reflexivity. Qed.

(** Overwriting an existing key leaves the size alone. *)
Lemma size_set_present k v m :
  JsMap.get k m <> None -> JsMap.size (JsMap.set k v m) = JsMap.size m.
Proof.
  intros H. rewrite !size_keys, keys_set_present by exact H. reflexivity.
Qed.

Lemma size_set_absent k v m :
  JsMap.get k m = None ->
  JsMap.size (JsMap.set k v m) = S (JsMap.size m).
Proof.
  intros H. rewrite !size_keys, keys_set_absent by exact H.
  rewrite length_app. simpl. lia.
Qed.

Lemma wf_set k v m : JsMap.wf m -> JsMap.wf (JsMap.set k v m).
Proof.
  unfold JsMap.wf. intros Hwf.
  destruct (JsMap.get k m) eqn:E.
  - rewrite keys_set_present by congruence. exact Hwf.
  - rewrite keys_set_absent by exact E.
    apply NoDup_app; [exact Hwf | repeat constructor; simpl; tauto | ].
    intros x Hx [<-|[]]. apply get_None_keys in E. contradiction.
Qed.

Lemma wf_empty : JsMap.wf (@JsMap.empty V).
Proof. constructor. Qed.

Lemma entries_clear m : JsMap.entries (JsMap.clear m) = [].
Proof. induction m as [|[[k' v']|] m IH]; simpl; auto. Qed.

Lemma wf_clear m : JsMap.wf (JsMap.clear m).
Proof.
  unfold JsMap.wf, JsMap.keys. rewrite entries_clear. constructor.
Qed.

(** A property of entries that the new entry has survives a [set]. *)
Lemma Forall_entries_set (P : string * V -> Prop) k v m :
  Forall P (JsMap.entries m) -> P (k, v) ->
  Forall P (JsMap.entries (JsMap.set k v m)).
Proof.
  intros H Hkv.
  induction m as [|[[k' v']|] m IH]; simpl in *.
  - constructor; [exact Hkv | constructor].
  - inversion H; subst.
    destruct (String.eqb_spec k' k) as [->|Hne]; simpl.
    + constructor; assumption.
    + constructor; [assumption | apply IH; assumption].
  - apply IH, H.
Qed.

Lemma Forall_entries_delete (P : string * V -> Prop) k m :
  Forall P (JsMap.entries m) ->
  Forall P (JsMap.entries (JsMap.delete k m)).
Proof.
  intros H.
  induction m as [|[[k' v']|] m IH]; simpl in *; auto.
  inversion H; subst.
  destruct (String.eqb k' k); simpl; auto.
Qed.

Lemma length_delete k m : length (JsMap.delete k m) = length m.
Proof.
  induction m as [|[[k' v']|] m IH]; simpl; auto.
  destruct (String.eqb k' k); simpl; auto.
Qed.

Lemma In_entries_delete k m e :
  In e (JsMap.entries (JsMap.delete k m)) -> In e (JsMap.entries m).
Proof.
  induction m as [|[[k' v']|] m IH]; simpl; auto.
  destruct (String.eqb k' k); simpl; intuition.
Qed.

Lemma entries_delete_wf k m :
  JsMap.wf m ->
  JsMap.entries (JsMap.delete k m)
  = filter (fun e => negb (String.eqb (fst e) k)) (JsMap.entries m).
Proof.
  unfold JsMap.wf, JsMap.keys.
  induction m as [|[[k' v']|] m IH]; simpl; intros Hwf; auto.
  inversion Hwf as [|? ? Hnotin Hwf']; subst.
  destruct (String.eqb_spec k' k) as [->|Hne]; simpl.
  - symmetry. apply List.forallb_filter_id.
    apply forallb_forall. intros [k1 v1] Hin. simpl.
    destruct (String.eqb_spec k1 k) as [->|]; [|reflexivity].
    exfalso. apply Hnotin. apply (in_map fst) in Hin. exact Hin.
  - rewrite IH by exact Hwf'. reflexivity.
Qed.

Lemma wf_delete k m : JsMap.wf m -> JsMap.wf (JsMap.delete k m).
Proof.
  intros Hwf. unfold JsMap.wf, JsMap.keys.
  rewrite entries_delete_wf by exact Hwf.
  unfold JsMap.wf, JsMap.keys in Hwf.
  induction (JsMap.entries m) as [|e es IH]; simpl; [constructor|].
  simpl in Hwf. inversion Hwf as [|? ? Hnotin Hwf']; subst.
  destruct (negb (String.eqb (fst e) k)); simpl; [|auto].
  constructor; [|auto].
  intros Hin. apply Hnotin. apply in_map_iff in Hin.
  destruct Hin as [x [Hx Hin]]. apply filter_In in Hin.
  rewrite <- Hx. apply in_map, Hin.
Qed.

Lemma get_delete_same k m :
  JsMap.wf m -> JsMap.get k (JsMap.delete k m) = None.
Proof.
  intros Hwf. apply get_None_keys. unfold JsMap.keys.
  rewrite entries_delete_wf by exact Hwf.
  intros Hin. apply in_map_iff in Hin. destruct Hin as [e [He Hin]].
  apply filter_In in Hin. destruct Hin as [_ Hneq].
  rewrite He, String.eqb_refl in Hneq. discriminate.
Qed.

(** A [delete] touches no entry behind the first one that holds the
    key. *)
Lemma delete_app_here k v pre suf :
  exists pre' x,
    JsMap.delete k (pre ++ Some (k, v) :: suf) = pre' ++ x :: suf
    /\ length pre' = length pre.
Proof.
  induction pre as [|[[k' v']|] pre IH]; simpl.
  - exists [], None. rewrite String.eqb_refl. auto.
  - destruct (String.eqb k' k).
    + exists (None :: pre), (Some (k, v)). auto.
    + destruct IH as [pre' [x [E L]]].
      exists (Some (k', v') :: pre'), x. rewrite E. simpl. auto.
  - destruct IH as [pre' [x [E L]]].
    exists (None :: pre'), x. rewrite E. simpl. auto.
Qed.

End Facts.
End JsMapFacts.

(** ** The sort *)

Section SortFacts.
Context {A : Type}.
Variable comparefn : A -> A -> JsNumber.

Lemma sort_insert_perm x l :
  Permutation (sort_insert comparefn x l) (x :: l).
Proof.
  induction l as [|y l IH]; simpl.
  - apply Permutation_refl.
  - destruct (0 <? SortCompare comparefn x y)%Z.
    + eapply perm_trans; [apply perm_skip, IH | apply perm_swap].
    + apply Permutation_refl.
Qed.

Lemma Array_sort_perm l : Permutation (Array_sort comparefn l) l.
Proof.
  induction l as [|x l IH]; simpl.
  - constructor.
  - eapply perm_trans; [apply sort_insert_perm | apply perm_skip, IH].
Qed.

Lemma Array_sort_length l : length (Array_sort comparefn l) = length l.
Proof. apply Permutation_length, Array_sort_perm. Qed.

(** Stability: an element never moves past one it does not strictly
    exceed, so the elements of any class of mutually tied elements keep
    their order. *)
Lemma filter_sort_insert (p : A -> bool) x l :
  (forall y, p x = true -> p y = true ->
             (SortCompare comparefn x y <= 0)%Z) ->
  filter p (sort_insert comparefn x l) = filter p (x :: l).
Proof.
  intros Htie.
  induction l as [|y l IH]; simpl; [reflexivity|].
  destruct (Z.ltb_spec 0 (SortCompare comparefn x y)) as [Hgt|Hle];
    simpl; [|reflexivity].
  rewrite IH. simpl.
  destruct (p x) eqn:Px; [|reflexivity].
  destruct (p y) eqn:Py; [|reflexivity].
  specialize (Htie y eq_refl Py). lia.
Qed.

Lemma filter_Array_sort (p : A -> bool) l :
  (forall x y, p x = true -> p y = true ->
               (SortCompare comparefn x y <= 0)%Z) ->
  filter p (Array_sort comparefn l) = filter p l.
Proof.
  intros Htie.
  induction l as [|x l IH]; simpl; [reflexivity|].
  rewrite filter_sort_insert by (apply Htie).
  simpl. rewrite IH. reflexivity.
Qed.

End SortFacts.

Section SortByStart.
Context {platform : Platform} {store : CredentialStore}.

Lemma startsNoLater_trans a b c :
  startsNoLater a b -> startsNoLater b c -> startsNoLater a c.
Proof.
  intros [x [y [Ha [Hb Hxy]]]] [y' [z [Hb' [Hc Hyz]]]].
  rewrite Hb in Hb'. injection Hb' as <-.
  exists x, z. repeat split; try assumption. lia.
Qed.

Lemma byStart_valid a b x y :
  start a = ValidDate x -> start b = ValidDate y ->
  SortCompare byStart a b = (x - y)%Z.
Proof.
  intros Ha Hb. unfold SortCompare, byStart. rewrite Ha, Hb.
  reflexivity.
Qed.

Lemma sort_insert_sorted x l :
  hasStartTime x -> Forall hasStartTime l ->
  StronglySorted startsNoLater l ->
  StronglySorted startsNoLater (sort_insert byStart x l).
Proof.
  intros [tx Hx] Hall Hs.
  induction l as [|y l IH]; simpl.
  - repeat constructor.
  - inversion Hall as [|? ? [ty Hy] Hall']; subst.
    inversion Hs as [|? ? Hs' Hy_le]; subst.
    rewrite (byStart_valid x y tx ty Hx Hy).
    destruct (Z.ltb_spec 0 (tx - ty)) as [Hgt|Hle].
    + constructor; [apply IH; assumption|].
      eapply Permutation_Forall;
        [apply Permutation_sym, sort_insert_perm|].
      constructor; [|exact Hy_le].
      exists ty, tx. repeat split; try assumption. lia.
    + assert (Hxy : startsNoLater x y).
      { exists tx, ty. repeat split; try assumption. lia. }
      constructor; [exact Hs|].
      constructor; [exact Hxy|].
      eapply Forall_impl; [|exact Hy_le].
      intros z Hz. eapply startsNoLater_trans; eassumption.
Qed.

(** On events that all carry a start time the result is sorted. *)
Lemma Array_sort_sorted l :
  Forall hasStartTime l ->
  StronglySorted startsNoLater (Array_sort byStart l).
Proof.
  induction l as [|x l IH]; simpl; intros Hall.
  - constructor.
  - inversion Hall; subst.
    apply sort_insert_sorted; [assumption | | apply IH; assumption].
    eapply Permutation_Forall;
      [apply Permutation_sym, Array_sort_perm | assumption].
Qed.

(** Events with the same start keep the order they were fetched in. *)
Lemma Array_sort_stable t l :
  filter (startsAt t) (Array_sort byStart l) = filter (startsAt t) l.
Proof.
  apply filter_Array_sort.
  intros x y Hx Hy. unfold startsAt in Hx, Hy.
  destruct (start x) as [tx|] eqn:Ex; [|discriminate].
  destruct (start y) as [ty|] eqn:Ey; [|discriminate].
  rewrite (byStart_valid x y tx ty Ex Ey).
  apply Z.eqb_eq in Hx, Hy. lia.
Qed.

Lemma startsAt_own ev t : start ev = ValidDate t -> startsAt t ev = true.
Proof. intros H. unfold startsAt. rewrite H. apply Z.eqb_refl. Qed.

(** Sortedness and stability fix the result: whatever stable sorting
    algorithm an engine uses, it returns this list. *)
Lemma stable_sort_unique (l1 l2 : list CalendarEvent) :
  Forall hasStartTime l1 -> Forall hasStartTime l2 ->
  StronglySorted startsNoLater l1 -> StronglySorted startsNoLater l2 ->
  (forall t, filter (startsAt t) l1 = filter (startsAt t) l2) ->
  l1 = l2.
Proof.
  revert l2.
  induction l1 as [|x l1 IH]; intros l2 H1 H2 S1 S2 Hf.
  - destruct l2 as [|y l2]; [reflexivity|].
    inversion H2 as [|? ? [ty Hy] _]; subst.
    specialize (Hf ty). simpl in Hf.
    rewrite (startsAt_own y ty Hy) in Hf. discriminate.
  - inversion H1 as [|? ? [tx Hx] H1']; subst.
    inversion S1 as [|? ? S1' Hx_le]; subst.
    destruct l2 as [|y l2].
    { specialize (Hf tx). simpl in Hf.
      rewrite (startsAt_own x tx Hx) in Hf. discriminate. }
    inversion H2 as [|? ? [ty Hy] H2']; subst.
    inversion S2 as [|? ? S2' Hy_le]; subst.
    assert (Hle1 : (tx <= ty)%Z).
    { pose proof (Hf ty) as E. simpl in E.
      rewrite (startsAt_own y ty Hy) in E.
      assert (Hin : In y (filter (startsAt ty) (x :: l1))).
      { simpl. rewrite E. left. reflexivity. }
      apply filter_In in Hin. destruct Hin as [[->|Hin] _].
      - rewrite Hx in Hy. injection Hy as ->. lia.
      - rewrite Forall_forall in Hx_le.
        destruct (Hx_le y Hin) as [a [b [Ha [Hb Hab]]]].
        rewrite Hx in Ha. rewrite Hy in Hb.
        injection Ha as <-. injection Hb as <-. exact Hab. }
    assert (Hle2 : (ty <= tx)%Z).
    { pose proof (Hf tx) as E. simpl in E.
      rewrite (startsAt_own x tx Hx) in E.
      assert (Hin : In x (filter (startsAt tx) (y :: l2))).
      { simpl. rewrite <- E. left. reflexivity. }
      apply filter_In in Hin. destruct Hin as [[->|Hin] _].
      - rewrite Hx in Hy. injection Hy as ->. lia.
      - rewrite Forall_forall in Hy_le.
        destruct (Hy_le x Hin) as [a [b [Ha [Hb Hab]]]].
        rewrite Hy in Ha. rewrite Hx in Hb.
        injection Ha as <-. injection Hb as <-. exact Hab. }
    assert (ty = tx) by lia. subst ty.
    pose proof (Hf tx) as E. simpl in E.
    rewrite (startsAt_own x tx Hx), (startsAt_own y tx Hy) in E.
    injection E as -> E.
    f_equal. apply IH; try assumption.
    intros t. specialize (Hf t). simpl in Hf.
    destruct (startsAt t y); [injection Hf as Hf|]; exact Hf.
Qed.

(** [Array_sort byStart] is the stable sort by start time. *)
Lemma Array_sort_is_the_stable_sort (l l' : list CalendarEvent) :
  Forall hasStartTime l -> Forall hasStartTime l' ->
  StronglySorted startsNoLater l' ->
  (forall t, filter (startsAt t) l' = filter (startsAt t) l) ->
  l' = Array_sort byStart l.
Proof.
  intros Hl Hl' Hs Hf. apply stable_sort_unique.
  - exact Hl'.
  - eapply Permutation_Forall;
      [apply Permutation_sym, Array_sort_perm | exact Hl].
  - exact Hs.
  - apply Array_sort_sorted, Hl.
  - intros t. rewrite Array_sort_stable. apply Hf.
Qed.

End SortByStart.

(** ** Runs of the table operations and of the fetchers *)

Section Runs.
Context {platform : Platform} {store : CredentialStore}.
Local Open Scope string_scope.

Lemma with_ticks_same (w : World) : with_ticks (ticks w) w = w.
Proof. destruct w; reflexivity. Qed.

Lemma removeConnection_run connectionId (w : World) :
  removeConnection connectionId w
  = Some (Return tt, afterRemove connectionId w).
Proof.
  unfold removeConnection, afterRemove, bind, modify. simpl.
  destruct (remove_calendar_connection connectionId (backend w));
    reflexivity.
Qed.

Lemma connections_afterRemove connectionId (w : World) :
  connections (afterRemove connectionId w)
  = JsMap.delete connectionId (connections w).
Proof.
  unfold afterRemove. simpl.
  destruct (remove_calendar_connection connectionId (backend w));
    reflexivity.
Qed.

Lemma requests_afterRemove connectionId (w : World) :
  requests (afterRemove connectionId w) = requests w.
Proof.
  unfold afterRemove. simpl.
  destruct (remove_calendar_connection connectionId (backend w));
    reflexivity.
Qed.

(** The refresh never produces a connection. *)
Lemma refreshToken_run connection (w : World) :
  refreshToken_ connection w = Some (Return None, w).
Proof.
  unfold refreshToken_.
  destruct (negb (truthy_opt (refreshToken connection)));
    [reflexivity|].
  destruct (String.eqb (provider connection) "google"); [reflexivity|].
  destruct (String.eqb (provider connection) "microsoft"); reflexivity.
Qed.

Lemma refreshIfExpired_run connection (w : World) :
  exists n,
    refreshIfExpired connection w
    = Some (Return connection, with_ticks n w).
Proof.
  unfold refreshIfExpired.
  destruct (negb (expiresAt connection =? 0)%Z).
  - exists (S (ticks w)). unfold bind, Date_now.
    destruct (expiresAt connection <? clock (ticks w))%Z.
    + rewrite refreshToken_run. reflexivity.
    + reflexivity.
  - exists (ticks w). rewrite with_ticks_same. reflexivity.
Qed.

Lemma fetch_catch_run connection err (w : World) :
  fetch_catch connection err w
  = Some (Return (Events []), afterFetch connection (Throw err) w).
Proof.
  unfold fetch_catch, afterFetch, bind, when.
  destruct (includes "401" (message err)).
  - rewrite removeConnection_run. reflexivity.
  - reflexivity.
Qed.

Lemma fetchGoogle_try_run connection s e (w : World) :
  fetchGoogle_try connection (ValidDate s) (ValidDate e) w
  = Some (asReturn (googleTryOutcome connection s e),
          with_requests
            (requests w ++
             [googleRequest connection (toISOString s) (toISOString e)])
            w).
Proof.
  unfold fetchGoogle_try, googleTryOutcome, bind, Date_toISOString, ret,
    http_fetch.
  destruct (fetch _) as [err|status body]; [reflexivity|].
  destruct (negb (response_ok status)).
  - destruct (status =? 401)%nat.
    + unfold bind. rewrite refreshToken_run. reflexivity.
    + reflexivity.
  - unfold lift. destruct (json_google body) as [data|err];
      [|reflexivity].
    destruct (items data); reflexivity.
Qed.

Lemma fetchMicrosoft_try_run connection s e (w : World) :
  fetchMicrosoft_try connection (ValidDate s) (ValidDate e) w
  = Some (asReturn (microsoftTryOutcome connection s e),
          with_requests
            (requests w ++
             [microsoftRequest connection (toISOString s)
                (toISOString e)])
            w).
Proof.
  unfold fetchMicrosoft_try, microsoftTryOutcome, bind, Date_toISOString,
    ret, http_fetch.
  destruct (fetch _) as [err|status body]; [reflexivity|].
  destruct (negb (response_ok status)).
  - destruct (status =? 401)%nat.
    + unfold bind. rewrite refreshToken_run. reflexivity.
    + reflexivity.
  - unfold lift. destruct (json_microsoft body) as [data|err];
      [|reflexivity].
    destruct (value data); reflexivity.
Qed.

(** A Google fetch over a valid range: one request, never a throw. *)
Lemma fetchGoogle_run fuel connection s e (w : World) :
  exists n,
    fetchGoogleCalendarEvents (S fuel) connection
      (ValidDate s) (ValidDate e) w
    = Some (Return (eventsOf (googleTryOutcome connection s e)),
            afterFetch connection (googleTryOutcome connection s e)
              (with_requests
                 (requests w ++
                  [googleRequest connection (toISOString s)
                     (toISOString e)])
                 (with_ticks n w))).
Proof.
  destruct (refreshIfExpired_run connection w) as [n Hn].
  exists n. simpl. unfold bind, Date_toISOString, ret. rewrite Hn.
  unfold try_catch. rewrite fetchGoogle_try_run.
  destruct (googleTryOutcome connection s e) as [events|err]; simpl.
  - reflexivity.
  - rewrite fetch_catch_run. reflexivity.
Qed.

(** Over an invalid range the logging before the [try] block throws. *)
Lemma fetchGoogle_run_invalid fuel connection startDate endDate
    (w : World) :
  startDate = InvalidDate \/ endDate = InvalidDate ->
  fetchGoogleCalendarEvents (S fuel) connection startDate endDate w
  = Some (Throw (RangeError "Invalid time value"), w).
Proof.
  intros H. simpl. unfold bind, Date_toISOString, ret, throw.
  destruct startDate; [|reflexivity].
  destruct endDate; [|reflexivity].
  destruct H; discriminate.
Qed.

Lemma fetchMicrosoft_run fuel connection s e (w : World) :
  exists n,
    fetchMicrosoftCalendarEvents (S fuel) connection
      (ValidDate s) (ValidDate e) w
    = Some (Return (eventsOf (microsoftTryOutcome connection s e)),
            afterFetch connection (microsoftTryOutcome connection s e)
              (with_requests
                 (requests w ++
                  [microsoftRequest connection (toISOString s)
                     (toISOString e)])
                 (with_ticks n w))).
Proof.
  destruct (refreshIfExpired_run connection w) as [n Hn].
  exists n. simpl. unfold bind. rewrite Hn.
  unfold try_catch. rewrite fetchMicrosoft_try_run.
  destruct (microsoftTryOutcome connection s e) as [events|err]; simpl.
  - reflexivity.
  - rewrite fetch_catch_run. reflexivity.
Qed.

(** Over an invalid range the [try] block of the Microsoft fetcher
    throws before any request and the [catch] block returns []. *)
Lemma fetchMicrosoft_run_invalid fuel connection startDate endDate
    (w : World) :
  startDate = InvalidDate \/ endDate = InvalidDate ->
  exists n,
    fetchMicrosoftCalendarEvents (S fuel) connection startDate endDate w
    = Some (Return [], with_ticks n w).
Proof.
  intros H.
  destruct (refreshIfExpired_run connection w) as [n Hn].
  exists n. simpl. unfold bind at 1. rewrite Hn.
  unfold bind, try_catch, fetchMicrosoft_try.
  destruct startDate as [s|].
  - destruct endDate as [e|]; [destruct H; discriminate|].
    reflexivity.
  - reflexivity.
Qed.

End Runs.

(** ** The aggregator *)

Section Aggregator.
Context {platform : Platform} {store : CredentialStore}.
Local Open Scope string_scope.
Local Open Scope list_scope.

Lemma table_step_afterFetch connection outcome n l (w : World) :
  table_step connection w
    (afterFetch connection outcome
       (with_requests l (with_ticks n w))).
Proof.
  unfold table_step, afterFetch.
  destruct outcome as [events|err]; [left; reflexivity|].
  destruct (includes "401" (message err)); [|left; reflexivity].
  right. rewrite connections_afterRemove. reflexivity.
Qed.

(** The dispatch with at least one unit of fuel always completes, and
    what it returns does not depend on the world. *)
Lemma fetchFor_run fuel connection startDate endDate (w : World) :
  exists r w',
    fetchFor (S fuel) connection startDate endDate w = Some (r, w')
    /\ eventsOf r = contribution startDate endDate connection
    /\ table_step connection w w'.
Proof.
  unfold fetchFor, contribution.
  destruct (String.eqb (provider connection) "google").
  - destruct startDate as [s|].
    + destruct endDate as [e|].
      * destruct (fetchGoogle_run fuel connection s e w) as [n Hn].
        rewrite Hn. eexists _, _. split; [reflexivity|].
        split; [reflexivity | apply table_step_afterFetch].
      * rewrite fetchGoogle_run_invalid by auto.
        eexists _, _. split; [reflexivity|].
        split; [reflexivity | left; reflexivity].
    + rewrite fetchGoogle_run_invalid by auto.
      eexists _, _. split; [reflexivity|].
      split; [reflexivity | left; reflexivity].
  - destruct (String.eqb (provider connection) "microsoft").
    + destruct startDate as [s|].
      * destruct endDate as [e|].
        -- destruct (fetchMicrosoft_run fuel connection s e w)
             as [n Hn].
           rewrite Hn. eexists _, _. split; [reflexivity|].
           split; [reflexivity | apply table_step_afterFetch].
        -- destruct (fetchMicrosoft_run_invalid fuel connection
                       (ValidDate s) InvalidDate w) as [n Hn]; [auto|].
           rewrite Hn. eexists _, _. split; [reflexivity|].
           split; [reflexivity | left; reflexivity].
      * destruct (fetchMicrosoft_run_invalid fuel connection
                    InvalidDate endDate w) as [n Hn]; [auto|].
        rewrite Hn. eexists _, _. split; [reflexivity|].
        split; [reflexivity | left; reflexivity].
    + eexists _, _. split; [reflexivity|].
      split; [|left; reflexivity].
      destruct startDate, endDate; reflexivity.
Qed.

Lemma fetchFor_no_fuel connection startDate endDate (w : World) r w' :
  fetchFor 0 connection startDate endDate w = Some (r, w') ->
  r = Return [] /\ contribution startDate endDate connection = [].
Proof.
  unfold fetchFor, contribution.
  destruct (String.eqb (provider connection) "google");
    [discriminate|].
  destruct (String.eqb (provider connection) "microsoft");
    [discriminate|].
  intros H. injection H as <- _.
  split; [reflexivity | destruct startDate, endDate; reflexivity].
Qed.

Lemma returns_contribution startDate endDate connection events :
  returns startDate endDate connection events ->
  contribution startDate endDate connection = events.
Proof.
  intros [fuel [w0 [w1 H]]].
  destruct fuel as [|fuel].
  - apply fetchFor_no_fuel in H. destruct H as [H1 H2].
    injection H1 as ->. exact H2.
  - destruct (fetchFor_run fuel connection startDate endDate w0)
      as [r [w' [Hr [Hev _]]]].
    rewrite Hr in H. injection H as -> _. symmetry. exact Hev.
Qed.



Lemma fetchInto_run fuel allEvents connection startDate endDate
    (w : World) :
  exists w',
    fetchInto (S fuel) allEvents connection startDate endDate w
    = Some (Return (allEvents
                    ++ contribution startDate endDate connection), w')
    /\ table_step connection w w'.
Proof.
  destruct (fetchFor_run fuel connection startDate endDate w)
    as [r [w' [Hr [Hev Hstep]]]].
  exists w'. split; [|exact Hstep].
  unfold fetchInto, try_catch, bind. rewrite Hr.
  destruct r as [events|err]; simpl in Hev; rewrite <- Hev.
  - reflexivity.
  - rewrite app_nil_r. reflexivity.
Qed.

Lemma keyed_app_inv (pre suf : JsMap.t CalendarConnection) :
  keyed (pre ++ suf) -> keyed suf.
Proof.
  unfold keyed. induction pre as [|[e|] pre IH]; simpl; auto.
  intros H. inversion H; subst. auto.
Qed.

Lemma values_cons_some k (c : CalendarConnection) m :
  JsMap.values (Some (k, c) :: m) = c :: JsMap.values m.
Proof. reflexivity. Qed.

(** The loop, started at any position of the table, visits the live
    entries from there on, each exactly once, in order. *)
Lemma forOfConnections_run startDate endDate
    (suf : JsMap.t CalendarConnection) :
  forall pre fuel allEvents (w : World),
    connections w = pre ++ suf ->
    keyed suf ->
    length suf < fuel ->
    exists w',
      forOfConnections fuel (length pre) allEvents startDate endDate w
      = Some (Return
                (allEvents
                 ++ flat_map (contribution startDate endDate)
                      (JsMap.values suf)), w').
Proof.
  induction suf as [|slot suf IH]; intros pre fuel allEvents w Hw Hk Hf.
  - destruct fuel as [|fuel]; [simpl in Hf; lia|].
    exists w. simpl. rewrite Hw.
    replace (nth_error (pre ++ []) (length pre))
      with (@None (option (string * CalendarConnection))).
    + rewrite app_nil_r. reflexivity.
    + symmetry. apply nth_error_None. rewrite app_nil_r. lia.
  - destruct fuel as [|fuel]; [simpl in Hf; lia|].
    simpl in Hf.
    assert (Hnth : nth_error (connections w) (length pre) = Some slot).
    { rewrite Hw, nth_error_app2 by lia.
      rewrite Nat.sub_diag. reflexivity. }
    simpl. rewrite Hnth.
    destruct slot as [[k connection]|].
    + destruct (fetchInto_run
                  (pred fuel) allEvents connection startDate endDate w)
        as [w1 [Hrun Hstep]].
      replace (S (pred fuel)) with fuel in Hrun by lia.
      unfold bind. rewrite Hrun.
      assert (Hkey : k = id connection).
      { unfold keyed in Hk. simpl in Hk. inversion Hk; subst.
        assumption. }
      assert (Hk' : keyed suf).
      { unfold keyed in *. simpl in Hk. inversion Hk; assumption. }
      assert (Hshape : exists pre' x,
                 connections w1 = (pre' ++ [x]) ++ suf
                 /\ length (pre' ++ [x]) = length (pre ++ [Some (k, connection)])).
      { destruct Hstep as [E|E]; rewrite E, Hw.
        - exists pre, (Some (k, connection)).
          rewrite <- app_assoc. auto.
        - rewrite <- Hkey.
          destruct (JsMapFacts.delete_app_here k connection pre suf)
            as [pre' [x [Hd Hl]]].
          exists pre', x. rewrite Hd, <- app_assoc.
          rewrite !length_app, Hl. auto. }
      destruct Hshape as [pre' [x [Hw1 Hlen]]].
      destruct (IH (pre' ++ [x]) fuel
                  (allEvents ++ contribution startDate endDate connection)
                  w1 Hw1 Hk' ltac:(lia)) as [w' Hloop].
      exists w'.
      rewrite Hlen, length_app in Hloop. simpl in Hloop.
      replace (length pre + 1) with (S (length pre)) in Hloop by lia.
      rewrite Hloop, values_cons_some. simpl.
      rewrite app_assoc. reflexivity.
    + assert (Hw1 : connections w = (pre ++ [None]) ++ suf).
      { rewrite <- app_assoc. exact Hw. }
      destruct (IH (pre ++ [None]) fuel allEvents w Hw1
                  (keyed_app_inv [None] suf Hk) ltac:(lia))
        as [w' Hloop].
      exists w'.
      rewrite length_app in Hloop. simpl in Hloop.
      replace (length pre + 1) with (S (length pre)) in Hloop by lia.
      exact Hloop.
Qed.

(** The aggregate: it always completes with a return, and returns the
    sorted concatenation of what each listed connection contributes. *)
Lemma getAllCalendarEvents_run fuel startDate endDate (w : World) :
  keyed (connections w) ->
  length (connections w) < fuel ->
  exists w',
    getAllCalendarEvents fuel startDate endDate w
    = Some (Return
              (Array_sort byStart
                 (flat_map (contribution startDate endDate)
                    (getConnections w))), w').
Proof.
  intros Hk Hf.
  destruct (forOfConnections_run startDate endDate (connections w)
              [] fuel [] w eq_refl Hk Hf) as [w' Hloop].
  exists w'. unfold getAllCalendarEvents, bind.
  simpl in Hloop. rewrite Hloop. reflexivity.
Qed.

End Aggregator.

(** ** The invariant of the connection table *)

Section Invariant.
Context {platform : Platform} {store : CredentialStore}.
Local Open Scope string_scope.
Local Open Scope list_scope.

Lemma table_ok_set c (m : JsMap.t CalendarConnection) :
  table_ok m -> table_ok (JsMap.set (id c) c m).
Proof.
  intros [Hwf Hk]. split.
  - apply JsMapFacts.wf_set, Hwf.
  - apply JsMapFacts.Forall_entries_set; [exact Hk | reflexivity].
Qed.

Lemma table_ok_delete k (m : JsMap.t CalendarConnection) :
  table_ok m -> table_ok (JsMap.delete k m).
Proof.
  intros [Hwf Hk]. split.
  - apply JsMapFacts.wf_delete, Hwf.
  - apply JsMapFacts.Forall_entries_delete, Hk.
Qed.

Lemma table_ok_clear (m : JsMap.t CalendarConnection) :
  table_ok (JsMap.clear m).
Proof.
  split; [apply JsMapFacts.wf_clear|].
  unfold keyed. rewrite JsMapFacts.entries_clear. constructor.
Qed.

Lemma table_ok_step c (w w' : World) :
  table_step c w w' -> table_ok (connections w) ->
  table_ok (connections w').
Proof.
  intros [E|E] Hok; rewrite E; [exact Hok | apply table_ok_delete, Hok].
Qed.

Lemma table_ok_stores (w w' : World) :
  table_stores w w' -> table_ok (connections w) ->
  table_ok (connections w').
Proof.
  intros [E|[c E]] Hok; rewrite E; [exact Hok | apply table_ok_set, Hok].
Qed.

Lemma saveConnectionToBackend_table c (w : World) r w' :
  saveConnectionToBackend c w = Some (r, w') ->
  connections w' = connections w.
Proof.
  unfold saveConnectionToBackend.
  destruct (save_firebase_calendar_connection _ _); intros H;
    injection H as _ <-; reflexivity.
Qed.

Lemma processAuthToken_table requested token (w : World) r w' :
  processAuthToken requested token w = Some (r, w') ->
  table_stores w w'.
Proof.
  unfold processAuthToken, try_catch, bind, lift, throw.
  destruct (atob (trim token)) as [decoded|err];
    [|intros H; injection H as _ <-; left; reflexivity].
  destruct (JSON_parse decoded) as [authData|err];
    [|intros H; injection H as _ <-; left; reflexivity].
  destruct (negb (String.eqb (a_provider authData) requested)); simpl;
    [intros H; injection H as _ <-; left; reflexivity|].
  unfold modify, ret. simpl.
  match goal with
  | |- context [saveConnectionToBackend ?c ?w1] =>
      destruct (saveConnectionToBackend c w1) as [[[[]|err] w2]|] eqn:Hs
  end; [| |discriminate];
    intros H; injection H as _ <-;
    apply saveConnectionToBackend_table in Hs; simpl in Hs;
    right;
    match type of Hs with
    | _ = JsMap.set _ ?c _ => exists c; exact Hs
    end.
Qed.

Lemma processAuthResult_table result (w : World) r w' :
  processAuthResult result w = Some (r, w') ->
  table_stores w w'.
Proof.
  unfold processAuthResult, throw.
  destruct result as [result|];
    [|intros H; injection H as _ <-; left; reflexivity].
  destruct (user result) as [u|];
    [|intros H; injection H as _ <-; left; reflexivity].
  unfold bind, lift.
  destruct (getProviderIdFromUser u) as [providerId|err];
    [|intros H; injection H as _ <-; left; reflexivity].
  destruct (negb (truthy (extractAccessToken providerId result u)));
    [intros H; injection H as _ <-; left; reflexivity|].
  unfold modify, ret. simpl.
  match goal with
  | |- context [saveConnectionToBackend ?c ?w1] =>
      destruct (saveConnectionToBackend c w1) as [[[[]|err] w2]|] eqn:Hs
  end; [| |discriminate];
    intros H; injection H as _ <-;
    apply saveConnectionToBackend_table in Hs; simpl in Hs;
    right;
    match type of Hs with
    | _ = JsMap.set _ ?c _ => exists c; exact Hs
    end.
Qed.

(** The interactive step of [connectProvider] leaves the world alone. *)
Lemma interactive_world requested (w : World) r w1 :
  try_catch (interactiveSignIn requested) (popupFallback requested) w
  = Some (r, w1) ->
  w1 = w.
Proof.
  unfold try_catch, interactiveSignIn, popupFallback.
  destruct inTauri.
  - unfold try_catch, bind, lift, throw.
    destruct (shell_open _); simpl;
      repeat match goal with
             | |- context [if ?b then _ else _] => destruct b
             end;
      unfold try_catch, bind, lift, throw;
      try destruct (signInWithRedirect requested);
      intros H; injection H as _ <-; reflexivity.
  - unfold lift.
    destruct (signInWithPopup requested) as [res|err].
    + intros H. injection H as _ <-. reflexivity.
    + repeat match goal with
             | |- context [if ?b then _ else _] => destruct b
             end;
        unfold bind, lift, throw;
        try destruct (signInWithRedirect requested);
        intros H; injection H as _ <-; reflexivity.
Qed.

Lemma connectProvider_table requested (w : World) r w' :
  connectProvider requested w = Some (r, w') ->
  table_stores w w'.
Proof.
  unfold connectProvider.
  destruct (find _ calendarProviders);
    [|intros H; injection H as _ <-; left; reflexivity].
  unfold bind at 1.
  destruct (try_catch (interactiveSignIn requested)
              (popupFallback requested) w)
    as [[[result|err] w1]|] eqn:Hi; [| |discriminate];
    apply interactive_world in Hi; subst w1.
  - apply processAuthResult_table.
  - intros H. injection H as _ <-. left. reflexivity.
Qed.

Lemma connection_of_backend_run conn (w : World) :
  exists c n,
    connection_of_backend conn w = Some (Return c, with_ticks n w).
Proof.
  unfold connection_of_backend, bind, ret, Date_now.
  destruct (truthy (b_id conn));
    destruct (negb (expires_at conn =? 0)%Z);
    destruct (negb (connected_at conn =? 0)%Z);
    simpl; eexists _, _;
    try reflexivity;
    rewrite <- (with_ticks_same w) at 1; reflexivity.
Qed.

Lemma loadConnections_loop l :
  forall (w : World) r w',
    table_ok (connections w) ->
    forEach
      (fun conn =>
         bind (connection_of_backend conn)
           (fun connection =>
              modify (fun w =>
                with_connections
                  (JsMap.set (id connection) connection (connections w))
                  w)))
      l w = Some (r, w') ->
    table_ok (connections w').
Proof.
  induction l as [|conn l IH]; intros w r w' Hok; simpl.
  - intros H. injection H as _ <-. exact Hok.
  - unfold bind at 1. unfold bind at 1.
    destruct (connection_of_backend_run conn w) as [c [n Hc]].
    rewrite Hc. unfold modify. apply IH. simpl.
    apply table_ok_set, Hok.
Qed.

Lemma loadConnections_table (w : World) r w' :
  table_ok (connections w) ->
  loadConnections w = Some (r, w') ->
  table_ok (connections w').
Proof.
  intros Hok. unfold loadConnections, try_catch.
  unfold bind at 1. unfold lift.
  destruct (get_calendar_connections (backend w)) as [l|err].
  - unfold bind at 1. unfold modify.
    match goal with
    | |- context [forEach ?body l ?w1] =>
        destruct (forEach body l w1) as [[[[]|e] w2]|] eqn:Hl
    end; [| |discriminate];
      apply loadConnections_loop in Hl;
      try apply table_ok_clear;
      intros H; injection H as _ <-; exact Hl.
  - intros H. injection H as _ <-. exact Hok.
Qed.

Lemma initialize_table (w : World) r w' :
  table_ok (connections w) ->
  initialize w = Some (r, w') ->
  table_ok (connections w').
Proof.
  intros Hok. unfold initialize.
  destruct (isInitialized w).
  - intros H. injection H as _ <-. exact Hok.
  - unfold bind at 1.
    destruct (try_catch _ _ w) as [[[[]|e] w1]|] eqn:Ht;
      [| |discriminate].
    + assert (Hok1 : table_ok (connections w1)).
      { revert Ht. unfold try_catch, bind, lift.
        destruct getRedirectResult as [[res|]|err].
        - destruct (processAuthResult (Some res) w)
            as [[[c|e] w2]|] eqn:Hp; [| |discriminate];
            apply processAuthResult_table in Hp;
            intros H; injection H as <-;
            apply (table_ok_stores _ _ Hp Hok).
        - intros H. injection H as <-. exact Hok.
        - intros H. injection H as <-. exact Hok. }
      unfold bind at 1.
      destruct (loadConnections w1) as [[[[]|e] w2]|] eqn:Hl;
        [| |discriminate];
        apply (loadConnections_table _ _ _ Hok1) in Hl;
        intros H; injection H as _ <-; exact Hl.
    + exfalso. revert Ht. unfold try_catch, bind, lift.
      destruct getRedirectResult as [[res|]|err]; try discriminate.
      destruct (processAuthResult (Some res) w) as [[[c|e'] w2]|];
        discriminate.
Qed.

Lemma fetchFor_table fuel c startDate endDate (w : World) r w' :
  fetchFor fuel c startDate endDate w = Some (r, w') ->
  table_step c w w'.
Proof.
  destruct fuel as [|fuel].
  - unfold fetchFor.
    destruct (String.eqb (provider c) "google"); [discriminate|].
    destruct (String.eqb (provider c) "microsoft"); [discriminate|].
    intros H. injection H as _ <-. left. reflexivity.
  - destruct (fetchFor_run fuel c startDate endDate w)
      as [r0 [w0 [Hrun [_ Hstep]]]].
    rewrite Hrun. intros H. injection H as _ <-. exact Hstep.
Qed.

Lemma fetchGoogle_table fuel c startDate endDate (w : World) r w' :
  fetchGoogleCalendarEvents fuel c startDate endDate w = Some (r, w') ->
  table_step c w w'.
Proof.
  destruct fuel as [|fuel]; [discriminate|].
  destruct startDate as [s|].
  - destruct endDate as [e|].
    + destruct (fetchGoogle_run fuel c s e w) as [n Hn]. rewrite Hn.
      intros H. injection H as _ <-. apply table_step_afterFetch.
    + rewrite fetchGoogle_run_invalid by auto.
      intros H. injection H as _ <-. left. reflexivity.
  - rewrite fetchGoogle_run_invalid by auto.
    intros H. injection H as _ <-. left. reflexivity.
Qed.

Lemma fetchMicrosoft_table fuel c startDate endDate (w : World) r w' :
  fetchMicrosoftCalendarEvents fuel c startDate endDate w
  = Some (r, w') ->
  table_step c w w'.
Proof.
  destruct fuel as [|fuel]; [discriminate|].
  destruct startDate as [s|].
  - destruct endDate as [e|].
    + destruct (fetchMicrosoft_run fuel c s e w) as [n Hn]. rewrite Hn.
      intros H. injection H as _ <-. apply table_step_afterFetch.
    + destruct (fetchMicrosoft_run_invalid fuel c (ValidDate s)
                  InvalidDate w) as [n Hn]; [auto|].
      rewrite Hn. intros H. injection H as _ <-. left. reflexivity.
  - destruct (fetchMicrosoft_run_invalid fuel c InvalidDate endDate w)
      as [n Hn]; [auto|].
    rewrite Hn. intros H. injection H as _ <-. left. reflexivity.
Qed.

Lemma fetchInto_table fuel allEvents c startDate endDate (w : World)
    r w' :
  fetchInto fuel allEvents c startDate endDate w = Some (r, w') ->
  table_step c w w'.
Proof.
  unfold fetchInto, try_catch, bind.
  destruct (fetchFor fuel c startDate endDate w) as [[[ev|e] w1]|] eqn:Hf;
    [| |discriminate];
    apply fetchFor_table in Hf;
    intros H; injection H as _ <-; exact Hf.
Qed.

Lemma forOfConnections_table startDate endDate fuel :
  forall index allEvents (w : World) r w',
    table_ok (connections w) ->
    forOfConnections fuel index allEvents startDate endDate w
    = Some (r, w') ->
    table_ok (connections w').
Proof.
  induction fuel as [|fuel IH]; intros index allEvents w r w' Hok;
    simpl; [discriminate|].
  destruct (nth_error (connections w) index) as [[[k c]|]|].
  - unfold bind.
    destruct (fetchInto fuel allEvents c startDate endDate w)
      as [[[ev|e] w1]|] eqn:Hf; [| |discriminate];
      apply fetchInto_table in Hf;
      pose proof (table_ok_step _ _ _ Hf Hok) as Hok1.
    + apply IH. exact Hok1.
    + intros H. injection H as _ <-. exact Hok1.
  - apply IH. exact Hok.
  - intros H. injection H as _ <-. exact Hok.
Qed.

Lemma getAllCalendarEvents_table fuel startDate endDate (w : World)
    r w' :
  table_ok (connections w) ->
  getAllCalendarEvents fuel startDate endDate w = Some (r, w') ->
  table_ok (connections w').
Proof.
  intros Hok. unfold getAllCalendarEvents, bind.
  destruct (forOfConnections fuel 0 [] startDate endDate w)
    as [[[ev|e] w1]|] eqn:Hf; [| |discriminate];
    apply (forOfConnections_table _ _ _ _ _ _ _ _ Hok) in Hf;
    intros H; injection H as _ <-; exact Hf.
Qed.

(** Every call of a method keeps the invariant of the table. *)
Lemma call_table_ok (w w' : World) :
  call w w' -> table_ok (connections w) -> table_ok (connections w').
Proof.
  intros Hcall Hok. destruct Hcall as
    [w r w' H | p w r w' H | w r w' H | c w r w' H
    | fuel c s e w r w' H | fuel c s e w r w' H | fuel s e w r w' H
    | c w r w' H | p tok w r w' H | k w r w' H].
  - eapply initialize_table; eassumption.
  - eapply table_ok_stores; [eapply connectProvider_table|]; eassumption.
  - eapply loadConnections_table; eassumption.
  - apply saveConnectionToBackend_table in H. rewrite H. exact Hok.
  - eapply table_ok_step; [eapply fetchGoogle_table|]; eassumption.
  - eapply table_ok_step; [eapply fetchMicrosoft_table|]; eassumption.
  - eapply getAllCalendarEvents_table; eassumption.
  - rewrite refreshToken_run in H. injection H as _ <-. exact Hok.
  - eapply table_ok_stores; [eapply processAuthToken_table|]; eassumption.
  - rewrite removeConnection_run in H. injection H as _ <-.
    rewrite connections_afterRemove. apply table_ok_delete, Hok.
Qed.

(** The invariant holds in every world the service can be in. *)
Lemma reachable_table_ok (w : World) :
  reachable w -> table_ok (connections w).
Proof.
  induction 1 as [b|w w' _ IH Hcall].
  - split; [apply JsMapFacts.wf_empty | constructor].
  - eapply call_table_ok; eassumption.
Qed.

End Invariant.

(* ================================================================= *)
(** * The claims of the specification *)

Section Claims.
Context {platform : Platform} {store : CredentialStore}.
Local Open Scope string_scope.
Local Open Scope list_scope.

Lemma keyed_of_entries (m : JsMap.t CalendarConnection) l :
  JsMap.entries m = map (fun c => (id c, c)) l -> keyed m.
Proof.
  unfold keyed. intros ->. apply Forall_forall.
  intros e He. apply in_map_iff in He. destruct He as [c [<- _]].
  reflexivity.
Qed.

Lemma values_of_entries (m : JsMap.t CalendarConnection) l :
  JsMap.entries m = map (fun c => (id c, c)) l -> JsMap.values m = l.
Proof.
  unfold JsMap.values. intros ->. rewrite map_map. simpl.
  apply map_id.
Qed.

(** C1.  With two connections in the table (a Google and a Microsoft
    one, in either order), whose fetches return [ev1] and [ev2] for the
    range, [getAllCalendarEvents] returns [length ev1 + length ev2]
    events: the events fetched, each once.  The events being normalized
    events of the data model (their start is a time), the list returned
    is in ascending order of start, and events of equal start are in
    fetch order (first connection first). *)
Theorem getAllCalendarEvents_merges_and_sorts :
  forall fuel startDate endDate (w : World) c1 c2 ev1 ev2,
    JsMap.entries (connections w) = [(id c1, c1); (id c2, c2)] ->
    returns startDate endDate c1 ev1 ->
    returns startDate endDate c2 ev2 ->
    length (connections w) < fuel ->
    exists result w',
      getAllCalendarEvents fuel startDate endDate w
      = Some (Return result, w')
      /\ length result = length ev1 + length ev2
      /\ Permutation result (ev1 ++ ev2)
      /\ (Forall hasStartTime (ev1 ++ ev2) ->
          StronglySorted startsNoLater result
          /\ forall t,
               filter (startsAt t) result
               = filter (startsAt t) (ev1 ++ ev2)).
Proof.
  intros fuel startDate endDate w c1 c2 ev1 ev2 Hent H1 H2 Hfuel.
  assert (Hk : keyed (connections w)).
  { apply (keyed_of_entries _ [c1; c2]). exact Hent. }
  destruct (getAllCalendarEvents_run fuel startDate endDate w Hk Hfuel)
    as [w' Hrun].
  unfold getConnections in Hrun.
  rewrite (values_of_entries _ [c1; c2] Hent) in Hrun. simpl in Hrun.
  rewrite (returns_contribution _ _ _ _ H1) in Hrun.
  rewrite (returns_contribution _ _ _ _ H2) in Hrun.
  rewrite app_nil_r in Hrun.
  exists (Array_sort byStart (ev1 ++ ev2)), w'.
  split; [exact Hrun|].
  split; [rewrite Array_sort_length, length_app; reflexivity|].
  split; [apply Array_sort_perm|].
  intros Hstart.
  split; [apply Array_sort_sorted, Hstart|].
  intros t. apply Array_sort_stable.
Qed.


(** *** The loop over the fetch methods *)








Lemma includes_401_google body :
  includes "401" (message (googleApiError 401 body)) = true.
Proof.
  exact (includes_middle "401" "Google Calendar API error: "
           (" - " +++ body)).
Qed.

Lemma includes_401_microsoft body :
  includes "401" (message (microsoftApiError 401 body)) = true.
Proof.
  exact (includes_middle "401" "Microsoft Graph API error: "
           (" - " +++ body)).
Qed.

(** Deleting the key [id c] from a table that satisfies its invariant
    removes the connections with that id and no other. *)
Lemma values_delete_id (c : CalendarConnection)
    (m : JsMap.t CalendarConnection) :
  table_ok m ->
  JsMap.values (JsMap.delete (id c) m)
  = filter (fun c' => negb (String.eqb (id c') (id c))) (JsMap.values m).
Proof.
  intros [Hwf Hk]. unfold JsMap.values.
  rewrite JsMapFacts.entries_delete_wf by exact Hwf.
  unfold keyed in Hk.
  induction (JsMap.entries m) as [|e es IH]; simpl; [reflexivity|].
  inversion Hk as [|? ? He Hk']; subst. rewrite <- He.
  destruct (negb (String.eqb (fst e) (id c))); simpl;
    rewrite IH by exact Hk'; reflexivity.
Qed.

Lemma evicted_absent (c : CalendarConnection)
    (m : JsMap.t CalendarConnection) :
  table_ok m ->
  JsMap.get (id c) (JsMap.delete (id c) m) = None
  /\ (forall c', In c' (JsMap.values (JsMap.delete (id c) m)) ->
                 id c' <> id c)
  /\ JsMap.values (JsMap.delete (id c) m)
     = filter (fun c' => negb (String.eqb (id c') (id c)))
         (JsMap.values m).
Proof.
  intros Hok. split; [apply JsMapFacts.get_delete_same, Hok|].
  split; [|apply values_delete_id, Hok].
  intros c' Hin. rewrite values_delete_id in Hin by exact Hok.
  apply filter_In in Hin. destruct Hin as [_ Hne].
  destruct (String.eqb_spec (id c') (id c)); [discriminate|assumption].
Qed.

(** C3.  A fetch whose provider call answers HTTP 401 (the refresh that
    follows never succeeds, so there is no retry that could) returns
    the empty list, does not raise, and evicts the connection: after
    the call the table has no entry under its id, [getConnections]
    lists no connection with that id, and lists every other connection
    as before.  Both fetchers. *)
Theorem fetch_401_evicts_connection :
  forall fuel c s e body (w : World),
    table_ok (connections w) ->
    (fetch (googleRequest c (toISOString s) (toISOString e))
     = Response 401 body ->
     exists w',
       fetchGoogleCalendarEvents (S fuel) c (ValidDate s) (ValidDate e) w
       = Some (Return [], w')
       /\ JsMap.get (id c) (connections w') = None
       /\ (forall c', In c' (getConnections w') -> id c' <> id c)
       /\ getConnections w'
          = filter (fun c' => negb (String.eqb (id c') (id c)))
              (getConnections w))
    /\
    (fetch (microsoftRequest c (toISOString s) (toISOString e))
     = Response 401 body ->
     exists w',
       fetchMicrosoftCalendarEvents (S fuel) c
         (ValidDate s) (ValidDate e) w
       = Some (Return [], w')
       /\ JsMap.get (id c) (connections w') = None
       /\ (forall c', In c' (getConnections w') -> id c' <> id c)
       /\ getConnections w'
          = filter (fun c' => negb (String.eqb (id c') (id c)))
              (getConnections w)).
Proof.
  intros fuel c s e body w Hok. split; intros Hresp.
  - destruct (fetchGoogle_run fuel c s e w) as [n Hrun].
    assert (Hout : googleTryOutcome c s e
                   = Throw (googleApiError 401 body)).
    { unfold googleTryOutcome. rewrite Hresp. reflexivity. }
    rewrite Hout in Hrun. eexists. split; [exact Hrun|].
    unfold afterFetch, getConnections.
    rewrite includes_401_google, connections_afterRemove. simpl.
    apply evicted_absent, Hok.
  - destruct (fetchMicrosoft_run fuel c s e w) as [n Hrun].
    assert (Hout : microsoftTryOutcome c s e
                   = Throw (microsoftApiError 401 body)).
    { unfold microsoftTryOutcome. rewrite Hresp. reflexivity. }
    rewrite Hout in Hrun. eexists. split; [exact Hrun|].
    unfold afterFetch, getConnections.
    rewrite includes_401_microsoft, connections_afterRemove. simpl.
    apply evicted_absent, Hok.
Qed.

Lemma apiError_mentions prefix status body :
  includes (String_of_nat status)
    (prefix +++ String_of_nat status +++ " - " +++ body) = true
  /\ includes body
       (prefix +++ String_of_nat status +++ " - " +++ body) = true.
Proof.
  split.
  - apply includes_middle.
  - apply includes_append_r, includes_append_r, includes_append_r,
      includes_self.
Qed.

(** C4, as amended.  On a non-2xx response the [try] block of a fetcher
    throws an error whose message contains the HTTP status and the
    body text, and the fetcher's own [catch] block catches it: the
    fetcher returns the empty list to its caller and does not raise.
    Both fetchers. *)
Theorem fetch_error_status_is_caught :
  forall fuel c s e status body (w : World),
    response_ok status = false ->
    (fetch (googleRequest c (toISOString s) (toISOString e))
     = Response status body ->
     (forall w0 : World, exists w1,
         fetchGoogle_try c (ValidDate s) (ValidDate e) w0
         = Some (Throw (googleApiError status body), w1))
     /\ includes (String_of_nat status)
          (message (googleApiError status body)) = true
     /\ includes body (message (googleApiError status body)) = true
     /\ exists w',
         fetchGoogleCalendarEvents (S fuel) c
           (ValidDate s) (ValidDate e) w
         = Some (Return [], w'))
    /\
    (fetch (microsoftRequest c (toISOString s) (toISOString e))
     = Response status body ->
     (forall w0 : World, exists w1,
         fetchMicrosoft_try c (ValidDate s) (ValidDate e) w0
         = Some (Throw (microsoftApiError status body), w1))
     /\ includes (String_of_nat status)
          (message (microsoftApiError status body)) = true
     /\ includes body (message (microsoftApiError status body)) = true
     /\ exists w',
         fetchMicrosoftCalendarEvents (S fuel) c
           (ValidDate s) (ValidDate e) w
         = Some (Return [], w')).
Proof.
  intros fuel c s e status body w Hnok. split; intros Hresp.
  - assert (Hout : googleTryOutcome c s e
                   = Throw (googleApiError status body)).
    { unfold googleTryOutcome. rewrite Hresp, Hnok. reflexivity. }
    split.
    { intros w0. eexists.
      rewrite fetchGoogle_try_run, Hout. reflexivity. }
    split; [apply apiError_mentions|].
    split; [apply apiError_mentions|].
    destruct (fetchGoogle_run fuel c s e w) as [n Hrun].
    rewrite Hout in Hrun. eexists. exact Hrun.
  - assert (Hout : microsoftTryOutcome c s e
                   = Throw (microsoftApiError status body)).
    { unfold microsoftTryOutcome. rewrite Hresp, Hnok. reflexivity. }
    split.
    { intros w0. eexists.
      rewrite fetchMicrosoft_try_run, Hout. reflexivity. }
    split; [apply apiError_mentions|].
    split; [apply apiError_mentions|].
    destruct (fetchMicrosoft_run fuel c s e w) as [n Hrun].
    rewrite Hout in Hrun. eexists. exact Hrun.
Qed.

(** C5.  A token that is not base64, or whose decoded text is not JSON,
    or whose payload names another provider than the one requested,
    makes [processAuthToken] raise the invalid-token error and leaves
    the world as it was: the connection table, the Credential Store
    and everything else. *)
Theorem processAuthToken_rejects_bad_token :
  forall providerId token (w : World),
    (exists err, atob (trim token) = Throw err) \/
    (exists decoded err,
        atob (trim token) = Return decoded /\
        JSON_parse decoded = Throw err) \/
    (exists decoded authData,
        atob (trim token) = Return decoded /\
        JSON_parse decoded = Return authData /\
        a_provider authData <> providerId) ->
    processAuthToken providerId token w
    = Some (Throw invalidTokenError, w).
Proof.
  intros providerId token w H.
  unfold processAuthToken, try_catch, bind, lift.
  destruct H as [[err H]|[[decoded [err [H1 H2]]]|
                          [decoded [authData [H1 [H2 H3]]]]]].
  - rewrite H. reflexivity.
  - rewrite H1, H2. reflexivity.
  - rewrite H1, H2.
    destruct (String.eqb_spec (a_provider authData) providerId);
      [contradiction | reflexivity].
Qed.

(** C6.  [refreshToken] reports "unavailable" for every connection and
    changes nothing; a fetch therefore issues exactly one request, and
    that request carries the connection's existing access token,
    whether or not it has expired. *)
Theorem refreshToken_always_unavailable :
  forall c (w : World),
    refreshToken_ c w = Some (Return None, w)
    /\ (forall fuel s e, exists r w',
           fetchGoogleCalendarEvents (S fuel) c
             (ValidDate s) (ValidDate e) w = Some (r, w')
           /\ requests w'
              = requests w
                ++ [googleRequest c (toISOString s) (toISOString e)])
    /\ (forall fuel s e, exists r w',
           fetchMicrosoftCalendarEvents (S fuel) c
             (ValidDate s) (ValidDate e) w = Some (r, w')
           /\ requests w'
              = requests w
                ++ [microsoftRequest c (toISOString s) (toISOString e)])
    /\ (forall a b,
           In ("Authorization", "Bearer " +++ accessToken c)
              (headers (googleRequest c a b))
           /\ In ("Authorization", "Bearer " +++ accessToken c)
                 (headers (microsoftRequest c a b))).
Proof.
  intros c w. split; [apply refreshToken_run|].
  assert (Hreq : forall outcome n l,
             requests (afterFetch c outcome
                         (with_requests l (with_ticks n w))) = l).
  { intros outcome n l. unfold afterFetch.
    destruct outcome as [events|err]; [reflexivity|].
    destruct (includes "401" (message err)); [|reflexivity].
    rewrite requests_afterRemove. reflexivity. }
  split; [|split].
  - intros fuel s e. destruct (fetchGoogle_run fuel c s e w) as [n Hrun].
    eexists _, _. split; [exact Hrun | apply Hreq].
  - intros fuel s e.
    destruct (fetchMicrosoft_run fuel c s e w) as [n Hrun].
    eexists _, _. split; [exact Hrun | apply Hreq].
  - intros a b. split; left; reflexivity.
Qed.

(** *** Authentication and the table *)

Lemma processAuthToken_inv requested token (w : World) c w' :
  processAuthToken requested token w = Some (Return c, w') ->
  exists decoded authData,
    atob (trim token) = Return decoded
    /\ JSON_parse decoded = Return authData
    /\ a_provider authData = requested
    /\ provider c = requested
    /\ id c = derivedId requested (a_uid authData)
    /\ connections w' = JsMap.set (id c) c (connections w).
Proof.
  unfold processAuthToken, try_catch, bind, lift.
  destruct (atob (trim token)) as [decoded|err] eqn:Ha; [|discriminate].
  destruct (JSON_parse decoded) as [authData|err] eqn:Hj;
    [|discriminate].
  destruct (String.eqb_spec (a_provider authData) requested)
    as [Heq|Hne]; simpl; [|discriminate].
  unfold modify, ret. simpl.
  match goal with
  | |- context [saveConnectionToBackend ?c ?w1] =>
      destruct (saveConnectionToBackend c w1) as [[[[]|err] w2]|] eqn:Hs
  end; [|discriminate|discriminate].
  intros H. injection H as <- <-.
  exists decoded, authData.
  apply saveConnectionToBackend_table in Hs. rewrite Hs.
  repeat split; auto.
Qed.

Lemma processAuthResult_inv result (w : World) c w' :
  processAuthResult (Some result) w = Some (Return c, w') ->
  exists u,
    user result = Some u
    /\ getProviderIdFromUser u = Return (provider c)
    /\ id c = derivedId (provider c) (uid u)
    /\ connections w' = JsMap.set (id c) c (connections w).
Proof.
  unfold processAuthResult.
  destruct (user result) as [u|] eqn:Hu; [|discriminate].
  unfold bind, lift.
  destruct (getProviderIdFromUser u) as [providerId|err] eqn:Hp;
    [|discriminate].
  destruct (negb (truthy (extractAccessToken providerId result u)));
    [discriminate|].
  unfold modify, ret. simpl.
  match goal with
  | |- context [saveConnectionToBackend ?c ?w1] =>
      destruct (saveConnectionToBackend c w1) as [[[[]|err] w2]|] eqn:Hs
  end; [|discriminate|discriminate].
  intros H. injection H as <- <-.
  exists u. apply saveConnectionToBackend_table in Hs. rewrite Hs.
  repeat split; auto.
Qed.

(** The interactive step changes nothing in the world, and hands on a
    credential only when the popup sign-in returned one. *)
Lemma interactive_inv requested (w : World) result w1 :
  try_catch (interactiveSignIn requested) (popupFallback requested) w
  = Some (Return result, w1) ->
  w1 = w /\ signInWithPopup requested = Return result.
Proof.
  unfold try_catch, interactiveSignIn, popupFallback.
  destruct inTauri.
  - unfold try_catch, bind, lift, throw.
    destruct (shell_open _); simpl;
      repeat match goal with
             | |- context [if ?b then _ else _] => destruct b
             end;
      unfold try_catch, bind, lift, throw;
      try destruct (signInWithRedirect requested);
      discriminate.
  - unfold lift.
    destruct (signInWithPopup requested) as [r|err].
    + intros H. injection H as <- <-. auto.
    + repeat match goal with
             | |- context [if ?b then _ else _] => destruct b
             end;
        unfold bind, lift, throw;
        try destruct (signInWithRedirect requested);
        discriminate.
Qed.

Lemma connectProvider_inv requested (w : World) c w' :
  connectProvider requested w = Some (Return c, w') ->
  exists result u,
    signInWithPopup requested = Return result
    /\ user result = Some u
    /\ getProviderIdFromUser u = Return (provider c)
    /\ id c = derivedId (provider c) (uid u)
    /\ connections w' = JsMap.set (id c) c (connections w).
Proof.
  unfold connectProvider.
  destruct (find _ calendarProviders); [|discriminate].
  unfold bind at 1.
  destruct (try_catch (interactiveSignIn requested)
              (popupFallback requested) w)
    as [[[result|err] w1]|] eqn:Hi; [|discriminate|discriminate].
  apply interactive_inv in Hi. destruct Hi as [-> Hpop].
  intros H. apply processAuthResult_inv in H.
  destruct H as [u H]. exists result, u. tauto.
Qed.

Lemma authenticatedAs_inv (w : World) providerId userId c w' :
  authenticatedAs w providerId userId c w' ->
  id c = derivedId providerId userId
  /\ provider c = providerId
  /\ connections w' = JsMap.set (id c) c (connections w).
Proof.
  intros [[requested [token [decoded [authData [H [H1 [H2 [H3 H4]]]]]]]]
         |[requested [result [u [H [H1 [H2 [H3 H4]]]]]]]].
  - apply processAuthToken_inv in H.
    destruct H as [d [a [E1 [E2 [E3 [E4 [E5 E6]]]]]]].
    rewrite H1 in E1. injection E1 as <-.
    rewrite H2 in E2. injection E2 as <-.
    split; [rewrite E5; congruence|]. split; [congruence | exact E6].
  - apply connectProvider_inv in H.
    destruct H as [r [u' [E1 [E2 [E3 [E4 E5]]]]]].
    rewrite H1 in E1. injection E1 as <-.
    rewrite H2 in E2. injection E2 as <-.
    rewrite H3 in E3. injection E3 as E3.
    split; [rewrite E4; congruence|]. split; [congruence | exact E5].
Qed.

(** In a table that satisfies its invariant no two connections share
    an id. *)
Lemma table_ok_ids (m : JsMap.t CalendarConnection) :
  table_ok m -> NoDup (map id (JsMap.values m)).
Proof.
  intros [Hwf Hk].
  replace (map id (JsMap.values m)) with (JsMap.keys m); [exact Hwf|].
  unfold JsMap.keys, JsMap.values, keyed in *.
  rewrite map_map. apply map_ext_in.
  intros e He. rewrite Forall_forall in Hk. apply Hk, He.
Qed.

(** C7.  The id of a connection is [derivedId] of the provider and of
    the provider's user id, whichever path authenticated it.  After a
    successful authentication the table holds no two connections with
    one id, and authenticating the same account again replaces the
    entry stored under that id: the second connection is the one
    stored, and the number of connections is what it was. *)
Theorem reauthentication_overwrites :
  forall (w0 : World) providerId userId c1 w1 c2 w2,
    table_ok (connections w0) ->
    authenticatedAs w0 providerId userId c1 w1 ->
    authenticatedAs w1 providerId userId c2 w2 ->
    id c1 = derivedId providerId userId
    /\ id c2 = derivedId providerId userId
    /\ NoDup (map id (getConnections w1))
    /\ NoDup (map id (getConnections w2))
    /\ JsMap.get (derivedId providerId userId) (connections w1) = Some c1
    /\ JsMap.get (derivedId providerId userId) (connections w2) = Some c2
    /\ JsMap.size (connections w2) = JsMap.size (connections w1).
Proof.
  intros w0 providerId userId c1 w1 c2 w2 Hok H1 H2.
  apply authenticatedAs_inv in H1. destruct H1 as [Hid1 [_ Hw1]].
  apply authenticatedAs_inv in H2. destruct H2 as [Hid2 [_ Hw2]].
  assert (Hok1 : table_ok (connections w1)).
  { rewrite Hw1. apply table_ok_set, Hok. }
  assert (Hok2 : table_ok (connections w2)).
  { rewrite Hw2. apply table_ok_set, Hok1. }
  split; [exact Hid1|]. split; [exact Hid2|].
  split; [apply table_ok_ids, Hok1|].
  split; [apply table_ok_ids, Hok2|].
  split; [rewrite <- Hid1, Hw1; apply JsMapFacts.get_set_same|].
  split; [rewrite <- Hid2, Hw2; apply JsMapFacts.get_set_same|].
  rewrite Hw2. apply JsMapFacts.size_set_present.
  rewrite Hid2, <- Hid1, Hw1, JsMapFacts.get_set_same. discriminate.
Qed.

(** *** Normalisation *)

(** C9.  A start object of the Google provider carries either a
    date-only field [date], a calendar date, or a date-time field
    [dateTime].  A Google event whose start carries a date reports
    [isAllDay = true]: so does every normalized event (an event with a
    start time) whose start carries the [date] field and no [dateTime].
    A timed Google event, whose start carries [dateTime] and no [date],
    reports [isAllDay = false].  A Microsoft event reports its
    [isAllDay] flag: [true] when it is set, [false] when it is not.
    The events a successful fetch returns are these normalised items. *)
Theorem isAllDay_detection :
  (forall (item : GoogleItem) d,
      date (g_start item) = Some d -> d <> "" ->
      isAllDay (googleEvent item) = true)
  /\ (forall (item : GoogleItem) d,
         newDate "" = InvalidDate ->
         dateTime (g_start item) = None ->
         date (g_start item) = Some d ->
         hasStartTime (googleEvent item) ->
         isAllDay (googleEvent item) = true)
  /\ (forall (item : GoogleItem) t,
         dateTime (g_start item) = Some t ->
         date (g_start item) = None ->
         isAllDay (googleEvent item) = false)
  /\ (forall (item : MicrosoftItem),
         isAllDay (microsoftEvent item) = m_isAllDay item)
  /\ (forall fuel c s e status body l (w : World),
         fetch (googleRequest c (toISOString s) (toISOString e))
         = Response status body ->
         response_ok status = true ->
         json_google body = Return {| items := Some l |} ->
         exists w',
           fetchGoogleCalendarEvents (S fuel) c
             (ValidDate s) (ValidDate e) w
           = Some (Return (map googleEvent l), w'))
  /\ (forall fuel c s e status body l (w : World),
         fetch (microsoftRequest c (toISOString s) (toISOString e))
         = Response status body ->
         response_ok status = true ->
         json_microsoft body = Return {| value := Some l |} ->
         exists w',
           fetchMicrosoftCalendarEvents (S fuel) c
             (ValidDate s) (ValidDate e) w
           = Some (Return (map microsoftEvent l), w')).
Proof.
  split; [|split; [|split; [|split; [|split]]]].
  - intros item d Hd Hne. simpl. rewrite Hd. simpl. unfold truthy.
    destruct (String.eqb_spec d ""); [contradiction | reflexivity].
  - intros item d Hempty Ht Hd [ms Hstart]. simpl in *.
    rewrite Ht, Hd in Hstart. rewrite Hd. simpl in *.
    unfold truthy in *.
    destruct (String.eqb_spec d "") as [->|_]; [|reflexivity].
    simpl in Hstart. rewrite Hempty in Hstart. discriminate.
  - intros item t _ Hd. simpl. rewrite Hd. reflexivity.
  - reflexivity.
  - intros fuel c s e status body l w Hresp Hok Hjson.
    destruct (fetchGoogle_run fuel c s e w) as [n Hrun].
    assert (Hout : googleTryOutcome c s e = Return (map googleEvent l)).
    { unfold googleTryOutcome. rewrite Hresp, Hok, Hjson. reflexivity. }
    rewrite Hout in Hrun. eexists. exact Hrun.
  - intros fuel c s e status body l w Hresp Hok Hjson.
    destruct (fetchMicrosoft_run fuel c s e w) as [n Hrun].
    assert (Hout : microsoftTryOutcome c s e
                   = Return (map microsoftEvent l)).
    { unfold microsoftTryOutcome. rewrite Hresp, Hok, Hjson.
      reflexivity. }
    rewrite Hout in Hrun. eexists. exact Hrun.
Qed.

(** *** Connections of an unknown provider *)

Lemma NoDup_fst_inj {B : Type} (l : list (string * B)) e1 e2 :
  NoDup (map fst l) -> In e1 l -> In e2 l -> fst e1 = fst e2 -> e1 = e2.
Proof.
  induction l as [|x l IH]; simpl; intros Hnd H1 H2 Hfst; [contradiction|].
  inversion Hnd as [|? ? Hnotin Hnd']; subst.
  destruct H1 as [->|H1], H2 as [->|H2].
  - reflexivity.
  - exfalso. apply Hnotin. rewrite Hfst. apply in_map, H2.
  - exfalso. apply Hnotin. rewrite <- Hfst. apply in_map, H1.
  - apply IH; assumption.
Qed.

Lemma flat_map_filter_nil {B C : Type} (f : B -> list C) (p : B -> bool)
    (l : list B) :
  (forall x, In x l -> p x = false -> f x = []) ->
  flat_map f (filter p l) = flat_map f l.
Proof.
  induction l as [|x l IH]; simpl; intros H; [reflexivity|].
  destruct (p x) eqn:Px; simpl.
  - rewrite IH by auto. reflexivity.
  - rewrite (H x) by auto. simpl. apply IH. auto.
Qed.

Lemma contribution_unknown startDate endDate c :
  provider c <> "google" -> provider c <> "microsoft" ->
  contribution startDate endDate c = [].
Proof.
  intros Hg Hm. unfold contribution.
  destruct (String.eqb_spec (provider c) "google"); [contradiction|].
  destruct (String.eqb_spec (provider c) "microsoft"); [contradiction|].
  destruct startDate, endDate; reflexivity.
Qed.

Lemma fetchFor_unknown fuel startDate endDate c (w : World) :
  provider c <> "google" -> provider c <> "microsoft" ->
  fetchFor fuel c startDate endDate w = Some (Return [], w).
Proof.
  intros Hg Hm. unfold fetchFor.
  destruct (String.eqb_spec (provider c) "google"); [contradiction|].
  destruct (String.eqb_spec (provider c) "microsoft"); [contradiction|].
  reflexivity.
Qed.

(** Deleting a connection that contributes nothing does not change
    what the table contributes. *)
Lemma contributions_delete startDate endDate c
    (m : JsMap.t CalendarConnection) :
  table_ok m -> In c (JsMap.values m) ->
  contribution startDate endDate c = [] ->
  flat_map (contribution startDate endDate)
    (JsMap.values (JsMap.delete (id c) m))
  = flat_map (contribution startDate endDate) (JsMap.values m).
Proof.
  intros [Hwf Hk] Hin Hnil. unfold JsMap.values.
  rewrite JsMapFacts.entries_delete_wf by exact Hwf.
  rewrite !flat_map_concat_map, !map_map, <- !flat_map_concat_map.
  apply flat_map_filter_nil.
  intros e He Hp.
  apply in_map_iff in Hin. destruct Hin as [e0 [He0 Hin0]].
  unfold keyed in Hk. rewrite Forall_forall in Hk.
  assert (Hfst : fst e = fst e0).
  { rewrite (Hk e0 Hin0), He0.
    destruct (String.eqb_spec (fst e) (id c));
      [assumption | discriminate]. }
  rewrite (NoDup_fst_inj _ e e0 Hwf He Hin0 Hfst), He0. exact Hnil.
Qed.

(** C10.  A connection of the table whose provider is neither
    ["google"] nor ["microsoft"] is dispatched to no fetcher: its turn
    in the loop yields the empty list without raising and without any
    effect, and the aggregate call returns, without raising, exactly
    what it returns when that connection is not in the table. *)
Theorem unknown_provider_contributes_nothing :
  forall fuel startDate endDate (w : World) c,
    table_ok (connections w) ->
    In c (getConnections w) ->
    provider c <> "google" ->
    provider c <> "microsoft" ->
    length (connections w) < fuel ->
    (forall fuel0 (w0 : World),
        fetchFor fuel0 c startDate endDate w0 = Some (Return [], w0))
    /\ exists result w' w'',
        getAllCalendarEvents fuel startDate endDate w
        = Some (Return result, w')
        /\ getAllCalendarEvents fuel startDate endDate
             (with_connections
                (JsMap.delete (id c) (connections w)) w)
           = Some (Return result, w'').
Proof.
  intros fuel startDate endDate w c Hok Hin Hg Hm Hfuel.
  split; [intros; apply fetchFor_unknown; assumption|].
  destruct (getAllCalendarEvents_run fuel startDate endDate w
              (proj2 Hok) Hfuel) as [w' Hrun].
  pose (w1 := with_connections (JsMap.delete (id c) (connections w)) w).
  assert (Hok1 : table_ok (connections w1)).
  { apply table_ok_delete, Hok. }
  assert (Hfuel1 : length (connections w1) < fuel).
  { simpl. rewrite JsMapFacts.length_delete. exact Hfuel. }
  destruct (getAllCalendarEvents_run fuel startDate endDate w1
              (proj2 Hok1) Hfuel1) as [w'' Hrun1].
  eexists _, w', w''. split; [exact Hrun|].
  fold w1. rewrite Hrun1. unfold getConnections. simpl.
  rewrite contributions_delete;
    [reflexivity | exact Hok | exact Hin |].
  apply contribution_unknown; assumption.
Qed.

(** What [loadConnections] stores for a backend row keeps the row's
    provider string, whatever it is. *)
Lemma connection_of_backend_provider conn (w : World) c w' :
  connection_of_backend conn w = Some (Return c, w') ->
  provider c = b_provider conn.
Proof.
  unfold connection_of_backend, bind, ret, Date_now.
  destruct (truthy (b_id conn));
    destruct (negb (expires_at conn =? 0)%Z);
    destruct (negb (connected_at conn =? 0)%Z);
    intros H; injection H as <- _; reflexivity.
Qed.

End Claims.

(** ** What the array of [getConnections] shares with the table *)

Module SharedFacts.
Import Shared.

Lemma nth_error_update_other p q o (h : Heap) :
  p <> q -> nth_error (update p o h) q = nth_error h q.
Proof.
  revert p q. induction h as [|x h IH]; intros p q Hne.
  - destruct p; reflexivity.
  - destruct p as [|p], q as [|q]; simpl; try reflexivity.
    + congruence.
    + apply IH. congruence.
Qed.

Lemma nth_error_update_same p o (h : Heap) :
  p < length h -> nth_error (update p o h) p = Some o.
Proof.
  revert p. induction h as [|x h IH]; intros p Hlt; simpl in Hlt.
  - lia.
  - destruct p as [|p]; simpl; [reflexivity | apply IH; lia].
Qed.

(** A write to the array at [r] leaves every other cell as it was. *)
Lemma mutate_array_frame r (h : Heap) mu q :
  isArrayWrite mu -> q <> r ->
  nth_error (mutate r h mu) q = nth_error h q.
Proof.
  intros Hmu Hne. unfold mutate.
  destruct (nth_error h r) as [[c|elems]|]; try reflexivity.
  destruct mu as [f|index f]; [|contradiction].
  apply nth_error_update_other. congruence.
Qed.

Lemma mutations_array_frame r mus (h : Heap) q :
  Forall isArrayWrite mus -> q <> r ->
  nth_error (fold_left (mutate r) mus h) q = nth_error h q.
Proof.
  intros Hall Hne. revert h.
  induction Hall as [|mu mus Hmu _ IH]; intros h; simpl.
  - reflexivity.
  - rewrite IH. apply mutate_array_frame; assumption.
Qed.

Lemma internal_ext (h1 h2 : Heap) (m : JsMap.t ref) :
  (forall p, In p (JsMap.values m) -> deref h1 p = deref h2 p) ->
  internal {| heap := h1; connections := m |}
  = internal {| heap := h2; connections := m |}.
Proof.
  unfold internal. simpl. intros H.
  induction m as [|[[k p]|] m IH]; simpl.
  - reflexivity.
  - rewrite (H p) by (left; reflexivity).
    f_equal. apply IH. intros q Hq. apply H. right. exact Hq.
  - f_equal. apply IH. exact H.
Qed.

(** C8, as amended.  [getConnections] returns a new array: whatever a
    caller does to that array itself (adding, removing, reordering or
    replacing its elements) leaves the manager's table and the records
    it holds unchanged. *)
Theorem getConnections_array_is_fresh :
  forall (st : State) (mus : list Mutation),
    heap_ok st ->
    Forall isArrayWrite mus ->
    internal (mutateAll (fst (getConnections st)) mus
                (snd (getConnections st)))
    = internal st.
Proof.
  intros [h m] mus Hok Hall. unfold getConnections, alloc, mutateAll.
  simpl.
  apply internal_ext. intros p Hp.
  unfold heap_ok in Hok. simpl in Hok. rewrite Forall_forall in Hok.
  destruct (Hok p Hp) as [c Hc].
  assert (Hlt : p < length h).
  { apply nth_error_Some. congruence. }
  unfold deref.
  rewrite mutations_array_frame by (assumption || lia).
  rewrite nth_error_app1 by exact Hlt. reflexivity.
Qed.

(** The elements of the returned array are the references the table
    holds: the caller and the manager share the records. *)
Lemma getConnections_shares (st : State) :
  nth_error (heap (snd (getConnections st))) (fst (getConnections st))
  = Some (ArrayObj (JsMap.values (connections st))).
Proof.
  destruct st as [h m]. unfold getConnections, alloc. simpl.
  rewrite nth_error_app2 by lia. rewrite Nat.sub_diag. reflexivity.
Qed.

(** The table of values the other sections work with is what this
    table of references denotes: storing a new connection object is
    [set] on the denoted table. *)
Lemma deref_alloc_old (h : Heap) o p :
  p < length h -> deref (h ++ [o]) p = deref h p.
Proof.
  intros Hlt. unfold deref. rewrite nth_error_app1 by exact Hlt.
  reflexivity.
Qed.

Lemma deref_alloc_new (h : Heap) c :
  deref (h ++ [ConnectionObj c]) (length h) = Some c.
Proof.
  unfold deref. rewrite nth_error_app2 by lia.
  rewrite Nat.sub_diag. reflexivity.
Qed.

Lemma internal_storeConnection (st : State) c :
  heap_ok st ->
  internal (storeConnection c st)
  = JsMap.set (id c) (Some c) (internal st).
Proof.
  destruct st as [h m]. unfold heap_ok, storeConnection, alloc, internal.
  simpl. intros Hok.
  induction m as [|[[k p]|] m IH]; simpl in *.
  - rewrite deref_alloc_new. reflexivity.
  - inversion Hok as [|? ? [c0 Hc0] Hok']; subst.
    assert (Hlt : p < length h) by (apply nth_error_Some; congruence).
    destruct (String.eqb k (id c)); simpl.
    + rewrite deref_alloc_new. f_equal.
      apply (internal_ext (h ++ [ConnectionObj c]) h m).
      intros q Hq. rewrite Forall_forall in Hok'.
      destruct (Hok' q Hq) as [c1 Hc1].
      apply deref_alloc_old, nth_error_Some. congruence.
    + rewrite deref_alloc_old by exact Hlt.
      f_equal. apply IH. exact Hok'.
  - f_equal. apply IH. exact Hok.
Qed.

End SharedFacts.

(* ================================================================= *)
(** * The claims on the sample platform *)

Module Witnesses.
Import Sample.
Local Open Scope string_scope.
Local Open Scope list_scope.

Ltac run_fetch w :=
  exists 1, w; eexists; vm_compute; reflexivity.

Ltac nodup :=
  repeat (apply NoDup_cons; [simpl; intuition discriminate|]);
  apply NoDup_nil.

Ltac sample_table_ok :=
  split; [unfold JsMap.wf; vm_compute; nodup | repeat constructor].

(** The aggregate over a Google and a Microsoft connection: four
    events, by start, the Google event first among the two that start
    at 10. *)
Example sample_aggregate :
  summaryOf
    (@getAllCalendarEvents platform store 3 range_start range_end
       (worldOf [google1; microsoft2]))
  = Some [ ("g-early", true); ("m-early", true);
           ("m-mid", false); ("g-late", false) ].
Proof. vm_compute. reflexivity. Qed.

(** A row of an unknown provider is loaded as it is, and adds nothing
    to the aggregate. *)
Example sample_started :
  map provider (getConnections (snd started)) = ["yahoo"; "google"]
  /\ @reachable platform store (snd started)
  /\ summaryOf
       (@getAllCalendarEvents platform store 3 range_start range_end
          (snd started))
     = Some [ ("g-early", true); ("g-late", false) ].
Proof.
  split; [vm_compute; reflexivity|].
  split; [|vm_compute; reflexivity].
  apply (@reachable_call platform store
           (@initialWorld store
              [@backend_of_connection yahoo7;
               @backend_of_connection google1]));
    [apply reachable_initial|].
  apply (@call_initialize platform store _ (Return tt)).
  vm_compute. reflexivity.
Qed.

Lemma getAllCalendarEvents_merges_and_sorts_witness :
  exists result w',
    @getAllCalendarEvents platform store 3 range_start range_end
      (worldOf [google1; microsoft2])
    = Some (Return result, w')
    /\ length result = length googleEvents + length microsoftEvents
    /\ Permutation result (googleEvents ++ microsoftEvents)
    /\ StronglySorted startsNoLater result
    /\ (forall t,
          filter (startsAt t) result
          = filter (startsAt t) (googleEvents ++ microsoftEvents)).
Proof.
  destruct (@getAllCalendarEvents_merges_and_sorts platform store 3
              range_start range_end (worldOf [google1; microsoft2])
              google1 microsoft2 googleEvents microsoftEvents)
    as [result [w' [Hrun [Hlen [Hperm Hsorted]]]]].
  - reflexivity.
  - run_fetch (worldOf []).
  - run_fetch (worldOf []).
  - simpl. lia.
  - exists result, w'.
    split; [exact Hrun|]. split; [exact Hlen|]. split; [exact Hperm|].
    apply Hsorted.
    repeat constructor; eexists; vm_compute; reflexivity.
Defined.





(** The same table under the service's own fetchers, where the network
    call of [google-u6] is rejected: the stubbed and the real aggregate
    return the same four events. *)
Example sample_contained_failure :
  summaryOf
    (getAllCalendarEventsVia stubbedFetchers 4 range_start range_end
       (worldOf [google1; googleDown; microsoft2]))
  = Some [ ("g-early", true); ("m-early", true);
           ("m-mid", false); ("g-late", false) ]
  /\ summaryOf
       (@getAllCalendarEvents platform store 4 range_start range_end
          (worldOf [google1; googleDown; microsoft2]))
     = Some [ ("g-early", true); ("m-early", true);
              ("m-mid", false); ("g-late", false) ].
Proof. split; vm_compute; reflexivity. Qed.

(** The store modelled from the specification upserts by id: saving a
    row whose id is already stored leaves the number of rows alone, as
    it does in the second authentication of the sample account. *)
Lemma upsert_present_length r l :
  In (b_id r) (map b_id l) -> length (upsert r l) = length l.
Proof.
  induction l as [|x l IH]; simpl; [contradiction|].
  destruct (String.eqb_spec (b_id x) (b_id r)) as [E|Hne]; simpl.
  - reflexivity.
  - intros [H|H]; [contradiction | rewrite IH by exact H; reflexivity].
Qed.

Example sample_store_size :
  length (backend (snd secondAuth) : list BackendConnection)
  = length (backend (snd firstAuth) : list BackendConnection).
Proof. vm_compute. reflexivity. Qed.

(** A fetcher that does raise to the loop: the Google fetcher renders
    the range before its [try] block, and the rendering of an invalid
    date throws.  The loop's own [try]/[catch] contains it. *)
Example google_fetch_raises_on_invalid_range :
  @raises platform store InvalidDate range_end google1
  /\ option_map fst
       (@getAllCalendarEvents platform store 3 InvalidDate range_end
          (worldOf [google1; microsoft2]))
     = Some (Return []).
Proof.
  split.
  - exists 1, (worldOf []). eexists _, _. vm_compute. reflexivity.
  - vm_compute. reflexivity.
Qed.

Lemma fetch_401_evicts_connection_witness :
  @fetch platform (@googleRequest googleOld "0" "100")
  = Response 401 "Unauthorized" /\
  exists w',
    @fetchGoogleCalendarEvents platform store 1 googleOld
      range_start range_end (worldOf [google1; googleOld])
    = Some (Return [], w')
    /\ JsMap.get (id googleOld) (connections w') = None
    /\ (forall c', In c' (getConnections w') -> id c' <> id googleOld)
    /\ getConnections w'
       = filter (fun c' => negb (String.eqb (id c') (id googleOld)))
           (getConnections (worldOf [google1; googleOld])).
Proof.
  split; [vm_compute; reflexivity|].
  apply (proj1 (@fetch_401_evicts_connection platform store 0 googleOld
                  0%Z 100%Z "Unauthorized"
                  (worldOf [google1; googleOld])
                  ltac:(sample_table_ok))).
  vm_compute. reflexivity.
Defined.

(** The same eviction on the Microsoft side. *)
Example sample_microsoft_401 :
  option_map
    (fun r => (fst r, map id (getConnections (snd r))))
    (@fetchMicrosoftCalendarEvents platform store 1 microsoftOld
       range_start range_end (worldOf [microsoftOld; google1]))
  = Some (Return [], ["google-u1"]).
Proof. vm_compute. reflexivity. Qed.

Lemma fetch_error_status_is_caught_witness :
  @fetch platform (@googleRequest googleErr "0" "100")
  = Response 500 "boom" /\
  exists w',
    @fetchGoogleCalendarEvents platform store 1 googleErr
      range_start range_end (worldOf [googleErr])
    = Some (Return [], w').
Proof.
  split; [vm_compute; reflexivity|].
  apply (proj1 (@fetch_error_status_is_caught platform store 0 googleErr
                  0%Z 100%Z 500 "boom" (worldOf [googleErr])
                  eq_refl)).
  vm_compute. reflexivity.
Defined.

(** C4, as the specification states it, fails: on an HTTP 500 the
    Google fetcher does not raise to its caller. *)
Lemma fetcher_does_not_raise_on_500 :
  @fetch platform (@googleRequest googleErr "0" "100")
  = Response 500 "boom"
  /\ ~ exists err w',
        @fetchGoogleCalendarEvents platform store 1 googleErr
          range_start range_end (worldOf [googleErr])
        = Some (Throw err, w')
        /\ includes "500" (message err) = true
        /\ includes "boom" (message err) = true.
Proof.
  split; [vm_compute; reflexivity|].
  intros [err [w' [H _]]]. vm_compute in H. discriminate.
Qed.

Lemma processAuthToken_rejects_bad_token_witness :
  @processAuthToken platform store "google" "microsoft:u2"
    (worldOf [google1])
  = Some (Throw invalidTokenError, worldOf [google1]).
Proof.
  apply (@processAuthToken_rejects_bad_token platform store).
  right. right.
  exists "microsoft:u2".
  exists {| a_provider := "microsoft"; a_email := "bob@example.org";
            a_uid := "u2"; a_accessToken := "tok-m";
            a_idToken := "id-token" |}.
  split; [reflexivity|]. split; [reflexivity|]. discriminate.
Defined.

(** The two other ways a pasted token is rejected: it is not base64, or
    what it decodes to is not JSON. *)
Example sample_malformed_tokens :
  @processAuthToken platform store "google" "%%%" (worldOf [google1])
  = Some (Throw invalidTokenError, worldOf [google1])
  /\ @processAuthToken platform store "google" "{provider:"
       (worldOf [google1])
     = Some (Throw invalidTokenError, worldOf [google1]).
Proof. split; vm_compute; reflexivity. Qed.

Lemma reauthentication_overwrites_witness :
  id (fst firstAuth) = "google-u1"
  /\ id (fst secondAuth) = "google-u1"
  /\ NoDup (map id (getConnections (snd firstAuth)))
  /\ NoDup (map id (getConnections (snd secondAuth)))
  /\ JsMap.get "google-u1" (connections (snd firstAuth))
     = Some (fst firstAuth)
  /\ JsMap.get "google-u1" (connections (snd secondAuth))
     = Some (fst secondAuth)
  /\ JsMap.size (connections (snd secondAuth))
     = JsMap.size (connections (snd firstAuth)).
Proof.
  apply (@reauthentication_overwrites platform store
           (worldOf [microsoft2]) "google" "u1"
           (fst firstAuth) (snd firstAuth)
           (fst secondAuth) (snd secondAuth)).
  - sample_table_ok.
  - left. exists "google", "google:u1", "google:u1".
    exists {| a_provider := "google"; a_email := "ann@example.org";
              a_uid := "u1"; a_accessToken := "tok-g";
              a_idToken := "id-token" |}.
    repeat split; vm_compute; reflexivity.
  - right. exists "google", popupCredential.
    exists {| uid := "u1"; u_email := Some "ann@example.org";
              providerData := ["google.com"];
              getIdToken := Return "id-token" |}.
    repeat split; vm_compute; reflexivity.
Defined.

Lemma getConnections_array_is_fresh_witness :
  Shared.internal
    (Shared.mutateAll (fst (Shared.getConnections sharedState))
       arrayMutations (snd (Shared.getConnections sharedState)))
  = Shared.internal sharedState.
Proof.
  apply SharedFacts.getConnections_array_is_fresh.
  - repeat constructor; eexists; reflexivity.
  - repeat constructor.
Defined.

(** C8, as the specification states it, fails: an assignment to a
    field of a record in the returned array changes the record the
    table holds. *)
Lemma getConnections_records_are_shared :
  Shared.heap_ok sharedState
  /\ Shared.internal
       (Shared.mutateAll (fst (Shared.getConnections sharedState))
          [fieldMutation] (snd (Shared.getConnections sharedState)))
     <> Shared.internal sharedState.
Proof.
  split.
  - repeat constructor; eexists; reflexivity.
  - vm_compute. discriminate.
Qed.

Lemma isAllDay_detection_witness :
  isAllDay (@googleEvent platform allDayItem) = true
  /\ isAllDay (@googleEvent platform timedItem) = false.
Proof.
  split.
  - apply (proj1 (proj2 (@isAllDay_detection platform store))
             allDayItem "10").
    + reflexivity.
    + reflexivity.
    + reflexivity.
    + exists 10%Z. reflexivity.
  - apply (proj1 (proj2 (proj2 (@isAllDay_detection platform store)))
             timedItem "30").
    + reflexivity.
    + reflexivity.
Defined.

Lemma unknown_provider_contributes_nothing_witness :
  (forall fuel0 (w0 : @World store),
      @fetchFor platform store fuel0 yahoo7 range_start range_end w0
      = Some (Return [], w0))
  /\ exists result w' w'',
      @getAllCalendarEvents platform store 3 range_start range_end
        (worldOf [google1; yahoo7])
      = Some (Return result, w')
      /\ @getAllCalendarEvents platform store 3 range_start range_end
           (with_connections
              (JsMap.delete (id yahoo7)
                 (connections (worldOf [google1; yahoo7])))
              (worldOf [google1; yahoo7]))
         = Some (Return result, w'').
Proof.
  apply (@unknown_provider_contributes_nothing platform store 3
           range_start range_end (worldOf [google1; yahoo7]) yahoo7).
  - sample_table_ok.
  - right. left. reflexivity.
  - discriminate.
  - discriminate.
  - simpl. lia.
Defined.

End Witnesses.
(* ================================================================= *)
(** * Further properties of the service *)

(** ** The table *)

Section TableFacts.
Local Open Scope string_scope.
Local Open Scope list_scope.

Lemma entries_app {V : Type} (a b : JsMap.t V) :
  JsMap.entries (a ++ b) = JsMap.entries a ++ JsMap.entries b.
Proof.
  induction a as [|[e|] a IH]; simpl; [reflexivity| |exact IH].
  rewrite IH. reflexivity.
Qed.

Lemma In_values_set {V : Type} k (v v' : V) (m : JsMap.t V) :
  In v' (JsMap.values (JsMap.set k v m)) ->
  v' = v \/ In v' (JsMap.values m).
Proof.
  unfold JsMap.values.
  induction m as [|[[k0 v0]|] m IH]; simpl.
  - intros [H|[]]. left. symmetry. exact H.
  - destruct (String.eqb k0 k); simpl.
    + intros [H|H]; [left; symmetry; exact H | right; right; exact H].
    + intros [H|H]; [right; left; exact H|].
      destruct (IH H) as [E|E]; [left; exact E | right; right; exact E].
  - exact IH.
Qed.

Lemma get_set_keeps {V : Type} k k' (v : V) (m : JsMap.t V) :
  JsMap.get k m <> None -> JsMap.get k (JsMap.set k' v m) <> None.
Proof.
  intros H. destruct (String.eqb_spec k' k) as [->|Hne].
  - rewrite JsMapFacts.get_set_same. discriminate.
  - rewrite JsMapFacts.get_set_other by exact Hne. exact H.
Qed.

Lemma clear_delete {V : Type} k (m : JsMap.t V) :
  JsMap.clear (JsMap.delete k m) = JsMap.clear m.
Proof.
  unfold JsMap.clear.
  induction m as [|[[k0 v0]|] m IH]; simpl; [reflexivity| |].
  - destruct (String.eqb k0 k); simpl; [reflexivity|].
    rewrite IH. reflexivity.
  - rewrite IH. reflexivity.
Qed.

Lemma set_after_clear {V : Type} k (v : V) (m0 rest : JsMap.t V) :
  JsMap.set k v (JsMap.clear m0 ++ rest)
  = JsMap.clear m0 ++ JsMap.set k v rest.
Proof.
  unfold JsMap.clear.
  induction m0 as [|x m0 IH]; simpl; [reflexivity|].
  rewrite IH. reflexivity.
Qed.

(** Storing a connection under an id the table does not hold appends
    it. *)
Lemma set_fresh_appends (l : list CalendarConnection) c :
  ~ In (id c) (map id l) ->
  JsMap.set (id c) c (map (fun c => Some (id c, c)) l)
  = map (fun c => Some (id c, c)) (l ++ [c]).
Proof.
  induction l as [|x l IH]; simpl; intros H; [reflexivity|].
  destruct (String.eqb_spec (id x) (id c)) as [E|_].
  - exfalso. apply H. left. exact E.
  - rewrite IH; [reflexivity|]. intros Hin. apply H. right. exact Hin.
Qed.

Lemma values_of_list (l : list CalendarConnection) :
  JsMap.values (map (fun c => Some (id c, c)) l) = l.
Proof.
  unfold JsMap.values.
  induction l as [|x l IH]; simpl; [reflexivity|].
  rewrite IH. reflexivity.
Qed.

(** Deleting a key from a table that satisfies its invariant removes
    the connection of that id and no other. *)
Lemma values_delete_key k (m : JsMap.t CalendarConnection) :
  table_ok m ->
  JsMap.values (JsMap.delete k m)
  = filter (fun c => negb (String.eqb (id c) k)) (JsMap.values m).
Proof.
  intros [Hwf Hk]. unfold JsMap.values.
  rewrite JsMapFacts.entries_delete_wf by exact Hwf.
  unfold keyed in Hk.
  induction (JsMap.entries m) as [|e es IH]; simpl; [reflexivity|].
  inversion Hk as [|? ? He Hk']; subst. rewrite <- He.
  destruct (negb (String.eqb (fst e) k)); simpl;
    rewrite IH by exact Hk'; reflexivity.
Qed.

(** A key the table does not hold is the id of none of its
    connections. *)
Lemma absent_key_no_value k (m : JsMap.t CalendarConnection) :
  keyed m -> JsMap.get k m = None ->
  filter (fun c => negb (String.eqb (id c) k)) (JsMap.values m)
  = JsMap.values m.
Proof.
  intros Hk Hget.
  apply JsMapFacts.get_None_keys in Hget.
  unfold JsMap.values, JsMap.keys, keyed in *.
  induction (JsMap.entries m) as [|e es IH]; simpl; [reflexivity|].
  inversion Hk as [|? ? He Hk']; subst.
  simpl in Hget.
  destruct (String.eqb_spec (id (snd e)) k) as [E|_]; simpl.
  - exfalso. apply Hget. left. rewrite He. exact E.
  - rewrite IH; [reflexivity | exact Hk' |].
    intros Hin. apply Hget. right. exact Hin.
Qed.

End TableFacts.

(** ** Starting up, loading and removing *)

Section Lifecycle.
Context {platform : Platform} {store : CredentialStore}.
Local Open Scope string_scope.
Local Open Scope list_scope.

Lemma processAuthResult_completes result (w : World) :
  exists r w',
    processAuthResult result w = Some (r, w')
    /\ requests w' = requests w
    /\ isInitialized w' = isInitialized w.
Proof.
  unfold processAuthResult, throw.
  destruct result as [result|]; [|eexists _, _; repeat split].
  destruct (user result) as [u|]; [|eexists _, _; repeat split].
  unfold bind, lift.
  destruct (getProviderIdFromUser u) as [providerId|err];
    [|eexists _, _; repeat split].
  destruct (negb (truthy (extractAccessToken providerId result u)));
    [eexists _, _; repeat split|].
  unfold Date_now, modify, saveConnectionToBackend, ret. simpl.
  destruct (save_firebase_calendar_connection _ _);
    eexists _, _; repeat split.
Qed.

(** What the loader makes of a row. *)
Lemma connection_of_backend_fields conn (w : World) :
  exists c n,
    connection_of_backend conn w = Some (Return c, with_ticks n w)
    /\ provider c = b_provider conn
    /\ email c = account_name conn
    /\ accessToken c = access_token conn
    /\ (b_id conn <> "" -> id c = b_id conn).
Proof.
  unfold connection_of_backend, bind, ret, Date_now, truthy.
  destruct (String.eqb_spec (b_id conn) "") as [E|Hne];
    destruct (negb (expires_at conn =? 0)%Z);
    destruct (negb (connected_at conn =? 0)%Z);
    simpl; eexists _, _;
    (split;
     [first [reflexivity
            | rewrite <- (with_ticks_same w) at 1; reflexivity]
     | simpl; repeat split; congruence]).
Qed.

(** The loop of [loadConnections] over the rows the backend returned. *)
Lemma load_rows rows :
  forall (w : World),
  exists w',
    forEach
      (fun conn =>
         bind (connection_of_backend conn)
           (fun connection =>
              modify (fun w =>
                with_connections
                  (JsMap.set (id connection) connection (connections w))
                  w)))
      rows w = Some (Return tt, w')
    /\ backend w' = backend w
    /\ requests w' = requests w
    /\ isInitialized w' = isInitialized w
    /\ (forall c, In c (getConnections w') ->
          In c (getConnections w)
          \/ exists row, In row rows
               /\ provider c = b_provider row
               /\ email c = account_name row
               /\ accessToken c = access_token row)
    /\ (forall k, JsMap.get k (connections w) <> None ->
          JsMap.get k (connections w') <> None)
    /\ (forall row, In row rows -> b_id row <> "" ->
          JsMap.get (b_id row) (connections w') <> None).
Proof.
  induction rows as [|conn rows IH]; intros w.
  - exists w. simpl. repeat split; auto; contradiction.
  - destruct (connection_of_backend_fields conn w)
      as [c [n [Hc [Hp [He [Ha Hid]]]]]].
    simpl. unfold bind at 1. unfold bind at 1. rewrite Hc.
    unfold modify.
    match goal with
    | |- context [forEach _ rows ?w1] =>
        destruct (IH w1) as [w' [Hrun [Hb [Hr [Hi [Hin [Hkeep Hrows]]]]]]]
    end.
    exists w'. simpl in *.
    split; [exact Hrun|].
    split; [exact Hb|]. split; [exact Hr|]. split; [exact Hi|].
    split; [|split].
    + intros c' Hc'. destruct (Hin c' Hc') as [Hold|[row [Hrow Hf]]].
      * unfold getConnections in Hold. simpl in Hold.
        apply In_values_set in Hold. destruct Hold as [->|Hold].
        -- right. exists conn. split; [left; reflexivity|]. auto.
        -- left. exact Hold.
      * right. exists row. split; [right; exact Hrow | exact Hf].
    + intros k Hk. apply Hkeep. apply get_set_keeps. exact Hk.
    + intros row [->|Hrow] Hne.
      * apply Hkeep. rewrite <- (Hid Hne).
        rewrite JsMapFacts.get_set_same. discriminate.
      * apply Hrows; assumption.
Qed.

Lemma loadConnections_completes (w : World) :
  exists w',
    loadConnections w = Some (Return tt, w')
    /\ backend w' = backend w
    /\ requests w' = requests w
    /\ isInitialized w' = isInitialized w.
Proof.
  unfold loadConnections, try_catch.
  unfold bind at 1. unfold lift.
  destruct (get_calendar_connections (backend w)) as [rows|err].
  - unfold bind at 1. unfold modify.
    match goal with
    | |- context [forEach _ rows ?w1] =>
        destruct (load_rows rows w1) as [w' [Hrun [Hb [Hr [Hi _]]]]]
    end.
    unfold modify in Hrun. exists w'. rewrite Hrun. auto.
  - exists w. auto.
Qed.

(** X2.  [loadConnections] never raises and touches neither the
    Credential Store nor the network.  When the backend rejects the
    listing, nothing changes at all.  When it returns rows, the table
    is rebuilt from them alone: nothing of the old table survives,
    every connection listed afterwards carries the provider, account
    and token of one of the rows, no two share an id, and every row
    with an id is found under it. *)
Theorem loadConnections_rebuilds_table :
  forall (w : World),
  exists w',
    loadConnections w = Some (Return tt, w')
    /\ backend w' = backend w
    /\ requests w' = requests w
    /\ (forall err,
          get_calendar_connections (backend w) = Throw err -> w' = w)
    /\ (forall rows,
          get_calendar_connections (backend w) = Return rows ->
          table_ok (connections w')
          /\ (forall c, In c (getConnections w') ->
                exists row, In row rows
                  /\ provider c = b_provider row
                  /\ email c = account_name row
                  /\ accessToken c = access_token row)
          /\ (forall row, In row rows -> b_id row <> "" ->
                JsMap.get (b_id row) (connections w') <> None)).
Proof.
  intros w. unfold loadConnections, try_catch.
  unfold bind at 1. unfold lift.
  destruct (get_calendar_connections (backend w)) as [rows|err] eqn:Hget.
  - unfold bind at 1. unfold modify.
    match goal with
    | |- context [forEach _ rows ?w1] =>
        destruct (load_rows rows w1)
          as [w' [Hrun [Hb [Hr [Hi [Hin [Hkeep Hrows]]]]]]];
        pose proof (loadConnections_loop rows w1 (Return tt) w'
                      (table_ok_clear (connections w)) Hrun) as Hok
    end.
    unfold modify in Hrun. exists w'. rewrite Hrun. simpl in *.
    split; [reflexivity|]. split; [exact Hb|]. split; [exact Hr|].
    split; [discriminate|].
    intros rows' E. injection E as <-.
    split; [exact Hok|]. split; [|exact Hrows].
    intros c Hc. destruct (Hin c Hc) as [Hold|Hnew]; [|exact Hnew].
    unfold getConnections, JsMap.values in Hold. simpl in Hold.
    rewrite JsMapFacts.entries_clear in Hold. contradiction.
  - exists w. split; [reflexivity|]. split; [reflexivity|].
    split; [reflexivity|]. split; [reflexivity|]. discriminate.
Qed.


Lemma loadConnections_unfold (w : World) :
  loadConnections w
  = match get_calendar_connections (backend w) with
    | Return rows =>
        match forEach
                (fun conn =>
                   bind (connection_of_backend conn)
                     (fun connection =>
                        modify (fun w =>
                          with_connections
                            (JsMap.set (id connection) connection
                               (connections w)) w)))
                rows
                (with_connections (JsMap.clear (connections w)) w)
        with
        | Some (Return a, w') => Some (Return a, w')
        | Some (Throw _, w') => Some (Return tt, w')
        | None => None
        end
    | Throw _ => Some (Return tt, w)
    end.
Proof.
  unfold loadConnections, try_catch.
  unfold bind at 1. unfold lift.
  destruct (get_calendar_connections (backend w)); reflexivity.
Qed.

Lemma initialize_completes (w : World) :
  exists w',
    initialize w = Some (Return tt, w')
    /\ isInitialized w' = true
    /\ requests w' = requests w
    /\ (isInitialized w = true -> w' = w).
Proof.
  unfold initialize.
  destruct (isInitialized w) eqn:Hinit.
  - exists w. auto.
  - assert (Hfirst : exists w1,
              try_catch
                (bind (lift getRedirectResult)
                   (fun result =>
                      match result with
                      | Some r =>
                          bind (processAuthResult (Some r))
                            (fun _ => ret tt)
                      | None => ret tt
                      end))
                (fun _ => ret tt) w = Some (Return tt, w1)
              /\ requests w1 = requests w).
    { unfold try_catch, bind, lift.
      destruct getRedirectResult as [[res|]|err].
      - destruct (processAuthResult_completes (Some res) w)
          as [r [w1 [Hp [Hr _]]]].
        rewrite Hp. exists w1. destruct r; auto.
      - exists w. auto.
      - exists w. auto. }
    destruct Hfirst as [w1 [H1 Hr1]].
    destruct (loadConnections_completes w1) as [w2 [H2 [_ [Hr2 _]]]].
    exists (with_isInitialized true w2).
    unfold bind at 1. rewrite H1.
    unfold bind at 1. rewrite H2.
    split; [reflexivity|]. split; [reflexivity|].
    split; [simpl; congruence | discriminate].
Qed.

(** X1.  [initialize] never raises, whatever the pending redirect and
    the backend do, issues no provider request, and leaves the service
    initialised; on an initialised service it does nothing, so a second
    call changes nothing. *)
Theorem initialize_completes_once :
  forall (w : World),
  exists w',
    initialize w = Some (Return tt, w')
    /\ isInitialized w' = true
    /\ requests w' = requests w
    /\ (isInitialized w = true -> w' = w)
    /\ initialize w' = Some (Return tt, w').
Proof.
  intros w.
  destruct (initialize_completes w) as [w' [Hrun [Hinit [Hreq Hsame]]]].
  exists w'. repeat split; try assumption.
  unfold initialize. rewrite Hinit. reflexivity.
Qed.

(** The loader reads a storable connection back from its own row. *)
Lemma connection_of_backend_storable c (w : World) :
  storable c ->
  connection_of_backend (backend_of_connection c) w
  = Some (Return c, w).
Proof.
  intros [Hid [Hexp [Hcon Hrt]]].
  unfold connection_of_backend, bind, ret, truthy. simpl.
  destruct (String.eqb_spec (id c) "") as [E|_]; [contradiction|].
  destruct (Z.eqb_spec (expiresAt c) 0) as [E|_]; [contradiction|].
  destruct (Z.eqb_spec (connectedAt c) 0) as [E|_]; [contradiction|].
  simpl. destruct c as [i p e a rt ex co]. simpl in *.
  destruct rt as [s|]; simpl; [|reflexivity].
  unfold truthy. destruct (String.eqb_spec s "") as [->|_];
    [contradiction | reflexivity].
Qed.

Lemma load_saved_rows (m0 : JsMap.t CalendarConnection) l :
  forall done (w : World),
    connections w
    = JsMap.clear m0 ++ map (fun c => Some (id c, c)) done ->
    NoDup (map id (done ++ l)) ->
    Forall storable l ->
    exists w',
      forEach
        (fun conn =>
           bind (connection_of_backend conn)
             (fun connection =>
                modify (fun w =>
                  with_connections
                    (JsMap.set (id connection) connection
                       (connections w)) w)))
        (map backend_of_connection l) w = Some (Return tt, w')
      /\ connections w'
         = JsMap.clear m0 ++ map (fun c => Some (id c, c)) (done ++ l)
      /\ ticks w' = ticks w.
Proof.
  induction l as [|c l IH]; intros done w Hw Hnd Hst.
  - exists w. rewrite app_nil_r. auto.
  - inversion Hst as [|? ? Hc Hl]; subst.
    simpl. unfold bind at 1. unfold bind at 1.
    rewrite connection_of_backend_storable by exact Hc.
    unfold modify.
    assert (Hfresh : ~ In (id c) (map id done)).
    { rewrite map_app in Hnd. simpl in Hnd.
      apply NoDup_remove_2 in Hnd. intros Hin. apply Hnd.
      apply in_or_app. left. exact Hin. }
    match goal with
    | |- context [forEach _ _ ?w1] =>
        destruct (IH (done ++ [c]) w1) as [w' [Hrun [Hconn Ht]]]
    end.
    + simpl. rewrite Hw, set_after_clear, set_fresh_appends
        by exact Hfresh. reflexivity.
    + rewrite <- app_assoc. exact Hnd.
    + exact Hl.
    + unfold modify in Hrun. exists w'. rewrite Hrun.
      rewrite <- app_assoc in Hconn. auto.
Qed.

(** X3.  Saving and loading are inverse on the stored form: when the
    backend returns the rows [saveConnectionToBackend] writes for a
    list of connections with distinct ids, none of which needs a
    default of the loader, [loadConnections] lists exactly those
    connections, in the order of the rows, without consulting the
    clock and whatever the table held before. *)
Theorem loadConnections_round_trip :
  forall (l : list CalendarConnection) (w : World),
    get_calendar_connections (backend w)
    = Return (map backend_of_connection l) ->
    NoDup (map id l) ->
    Forall storable l ->
    exists w',
      loadConnections w = Some (Return tt, w')
      /\ getConnections w' = l
      /\ ticks w' = ticks w.
Proof.
  intros l w Hget Hnd Hst.
  unfold loadConnections, try_catch.
  unfold bind at 1. unfold lift. rewrite Hget.
  unfold bind at 1. unfold modify.
  match goal with
  | |- context [forEach _ _ ?w1] =>
      destruct (load_saved_rows (connections w) l [] w1)
        as [w' [Hrun [Hconn Ht]]]
  end.
  - simpl. rewrite app_nil_r. reflexivity.
  - exact Hnd.
  - exact Hst.
  - unfold modify in Hrun. exists w'. rewrite Hrun.
    split; [reflexivity|]. split; [|exact Ht].
    unfold getConnections, JsMap.values. rewrite Hconn.
    rewrite entries_app, JsMapFacts.entries_clear. simpl.
    apply values_of_list.
Qed.

(** X4.  [removeConnection] never raises, whether the table holds the
    id or not and whether the backend accepts the removal or not.
    Afterwards no connection is stored under the id,
    [getConnections] lists the other connections as before and in the
    same order, and removing an id the table does not hold leaves the
    listing as it was.  No provider request is issued. *)
Theorem removeConnection_forgets :
  forall connectionId (w : World),
    table_ok (connections w) ->
    exists w',
      removeConnection connectionId w = Some (Return tt, w')
      /\ JsMap.get connectionId (connections w') = None
      /\ getConnections w'
         = filter (fun c => negb (String.eqb (id c) connectionId))
             (getConnections w)
      /\ (JsMap.get connectionId (connections w) = None ->
          getConnections w' = getConnections w)
      /\ requests w' = requests w.
Proof.
  intros k w Hok.
  exists (afterRemove k w).
  split; [apply removeConnection_run|].
  unfold getConnections. rewrite connections_afterRemove.
  split; [apply JsMapFacts.get_delete_same, Hok|].
  split; [apply values_delete_key, Hok|].
  split; [|apply requests_afterRemove].
  intros Habs. rewrite values_delete_key by exact Hok.
  apply absent_key_no_value; [apply Hok | exact Habs].
Qed.

(** X5.  A removal the backend rejects is silent and only in memory:
    [removeConnection] returns normally, the Credential Store is as it
    was, and the next [loadConnections] gives exactly the result and
    the world it would have given had the removal never been asked
    for. *)
Theorem rejected_removal_is_undone_by_load :
  forall connectionId (w : World) err rows,
    remove_calendar_connection connectionId (backend w) = Throw err ->
    get_calendar_connections (backend w) = Return rows ->
    exists w1,
      removeConnection connectionId w = Some (Return tt, w1)
      /\ backend w1 = backend w
      /\ loadConnections w1 = loadConnections w.
Proof.
  intros k w err rows Hrm Hget.
  exists (with_connections (JsMap.delete k (connections w)) w).
  split.
  - unfold removeConnection, bind, modify. simpl. rewrite Hrm.
    reflexivity.
  - split; [reflexivity|].
    rewrite !loadConnections_unfold. simpl. rewrite Hget.
    rewrite clear_delete. reflexivity.
Qed.

End Lifecycle.

(** ** Authentication *)

Section Authentication.
Context {platform : Platform} {store : CredentialStore}.
Local Open Scope string_scope.
Local Open Scope list_scope.

Lemma get_Some_In_values {V : Type} k (v : V) (m : JsMap.t V) :
  JsMap.get k m = Some v -> In v (JsMap.values m).
Proof.
  unfold JsMap.values.
  induction m as [|[[k0 v0]|] m IH]; simpl; [discriminate| |exact IH].
  destruct (String.eqb k0 k).
  - intros H. injection H as ->. left. reflexivity.
  - intros H. right. apply IH, H.
Qed.

Lemma providerFromData_known data p :
  providerFromData data = Some p -> p = "google" \/ p = "microsoft".
Proof.
  induction data as [|x data IH]; simpl; [discriminate|].
  destruct (String.eqb x "google.com");
    [intros H; injection H as <-; left; reflexivity|].
  destruct (String.eqb x "microsoft.com");
    [intros H; injection H as <-; right; reflexivity|].
  exact IH.
Qed.

Lemma getProviderIdFromUser_known u p :
  getProviderIdFromUser u = Return p -> p = "google" \/ p = "microsoft".
Proof.
  unfold getProviderIdFromUser.
  destruct (providerFromData (providerData u)) as [q|] eqn:Hq.
  - intros H. injection H as <-. apply (providerFromData_known _ _ Hq).
  - destruct (providerData u) as [|firstProvider rest]; [discriminate|].
    destruct (includes "google" firstProvider);
      [intros H; injection H as <-; left; reflexivity|].
    destruct (includes "microsoft" firstProvider);
      [intros H; injection H as <-; right; reflexivity | discriminate].
Qed.

(** X12.  [getProviderIdFromUser] answers ["google"] or ["microsoft"]
    and nothing else; it raises on a user without provider data; an
    exact ["google.com"] (or ["microsoft.com"]) entry anywhere in the
    provider data decides when the other one does not occur. *)
Theorem getProviderIdFromUser_decides :
  forall (u : User),
    (forall p, getProviderIdFromUser u = Return p ->
               p = "google" \/ p = "microsoft")
    /\ (providerData u = [] ->
        getProviderIdFromUser u
        = Throw (Error "Could not determine provider from user data"))
    /\ (In "google.com" (providerData u) ->
        ~ In "microsoft.com" (providerData u) ->
        getProviderIdFromUser u = Return "google")
    /\ (In "microsoft.com" (providerData u) ->
        ~ In "google.com" (providerData u) ->
        getProviderIdFromUser u = Return "microsoft").
Proof.
  intros u. split; [apply getProviderIdFromUser_known|].
  split; [|split].
  - unfold getProviderIdFromUser. intros ->. reflexivity.
  - intros Hin Hnot. unfold getProviderIdFromUser.
    replace (providerFromData (providerData u)) with (Some "google");
      [reflexivity|].
    symmetry. induction (providerData u) as [|x data IH]; simpl;
      [contradiction|].
    destruct (String.eqb_spec x "google.com") as [_|Hne]; [reflexivity|].
    destruct (String.eqb_spec x "microsoft.com") as [E|_].
    + exfalso. apply Hnot. left. exact E.
    + apply IH.
      * destruct Hin as [E|Hin]; [congruence | exact Hin].
      * intros H. apply Hnot. right. exact H.
  - intros Hin Hnot. unfold getProviderIdFromUser.
    replace (providerFromData (providerData u)) with (Some "microsoft");
      [reflexivity|].
    symmetry. induction (providerData u) as [|x data IH]; simpl;
      [contradiction|].
    destruct (String.eqb_spec x "google.com") as [E|_].
    + exfalso. apply Hnot. left. exact E.
    + destruct (String.eqb_spec x "microsoft.com") as [_|Hne];
        [reflexivity|].
      apply IH.
      * destruct Hin as [E|Hin]; [congruence | exact Hin].
      * intros H. apply Hnot. right. exact H.
Qed.

(** X6.  [connectProvider] with an id outside the supported set raises
    the not-supported error at once: the world is as it was. *)
Theorem connectProvider_rejects_unknown_provider :
  forall providerId (w : World),
    providerId <> "google" -> providerId <> "microsoft" ->
    connectProvider providerId w
    = Some (Throw (Error ("Provider " +++ providerId
                          +++ " not supported")), w).
Proof.
  intros providerId w Hg Hm. unfold connectProvider, calendarProviders.
  cbn [find cp_id].
  destruct (String.eqb_spec "google" providerId) as [E|_];
    [congruence|].
  destruct (String.eqb_spec "microsoft" providerId) as [E|_];
    [congruence|].
  reflexivity.
Qed.

Lemma find_supported providerId :
  providerId = "google" \/ providerId = "microsoft" ->
  exists config,
    find (fun p => String.eqb (cp_id p) providerId) calendarProviders
    = Some config.
Proof. intros [->| ->]; eexists; reflexivity. Qed.

Lemma popupFallback_run providerId popupError (w : World) :
  popupFallback providerId popupError w
  = if popupTrouble popupError then
      if inTauri then
        match signInWithRedirect providerId with
        | Return _ =>
            Some (Throw (Error
              ("Authentication failed. Please try again. Error: "
               +++ Error_toString (Error
                 "Redirect initiated. Please wait for the authentication to complete."))),
              w)
        | Throw redirectError =>
            Some (Throw (Error
              ("Authentication failed. Please try again. Error: "
               +++ Error_toString redirectError)), w)
        end
      else
        match signInWithRedirect providerId with
        | Return _ =>
            Some (Throw (Error
              "Redirect initiated. The page will reload after authentication."),
              w)
        | Throw redirectError => Some (Throw redirectError, w)
        end
    else Some (Throw popupError, w).
Proof.
  unfold popupFallback, popupTrouble.
  destruct (_ || _ || _); [|reflexivity].
  destruct inTauri; unfold try_catch, bind, lift, throw;
    destruct (signInWithRedirect providerId); reflexivity.
Qed.

Lemma authTokenNeeded_no_popup providerId :
  providerId = "google" \/ providerId = "microsoft" ->
  popupTrouble (authTokenNeeded providerId) = false.
Proof. intros [->| ->]; reflexivity. Qed.

Lemma connectProvider_desktop_run providerId (w : World) :
  inTauri = true ->
  providerId = "google" \/ providerId = "microsoft" ->
  connectProvider providerId w
  = Some (Throw (authTokenNeeded providerId), w).
Proof.
  intros Htauri Hsup.
  unfold connectProvider.
  destruct (find_supported providerId Hsup) as [config ->].
  assert (Hstep : try_catch (interactiveSignIn providerId)
                    (popupFallback providerId) w
                  = Some (Throw (authTokenNeeded providerId), w)).
  { unfold try_catch at 1. unfold interactiveSignIn. rewrite Htauri.
    unfold try_catch, bind, lift, throw.
    destruct (shell_open _);
      rewrite popupFallback_run, authTokenNeeded_no_popup by exact Hsup;
      reflexivity. }
  unfold bind. rewrite Hstep. reflexivity.
Qed.

(** X7.  In the desktop shell, [connectProvider] of a supported
    provider never signs in: whatever opening the browser does, it
    raises [AUTH_TOKEN_NEEDED:<provider>] and leaves the world as it
    was. *)
Theorem connectProvider_in_desktop_shell :
  forall providerId (w : World),
    inTauri = true ->
    providerId = "google" \/ providerId = "microsoft" ->
    connectProvider providerId w
    = Some (Throw (authTokenNeeded providerId), w).
Proof.
  intros providerId w Htauri Hsup.
  apply connectProvider_desktop_run; assumption.
Qed.

(** X8.  In a browser, when the popup sign-in fails [connectProvider]
    raises and leaves the world as it was.  An error that is not a
    popup trouble is raised as it is; on a popup trouble a redirect is
    started instead, and the error raised announces it, or is the
    redirect's own error. *)
Theorem connectProvider_without_credential :
  forall providerId (w : World) popupError,
    providerId = "google" \/ providerId = "microsoft" ->
    inTauri = false ->
    signInWithPopup providerId = Throw popupError ->
    exists e,
      connectProvider providerId w = Some (Throw e, w)
      /\ (popupTrouble popupError = false -> e = popupError)
      /\ (popupTrouble popupError = true ->
          signInWithRedirect providerId = Return tt ->
          e = Error
                "Redirect initiated. The page will reload after authentication.")
      /\ (popupTrouble popupError = true ->
          forall redirectError,
            signInWithRedirect providerId = Throw redirectError ->
            e = redirectError).
Proof.
  intros providerId w popupError Hsup Htauri Hpopup.
  unfold connectProvider.
  destruct (find_supported providerId Hsup) as [config ->].
  unfold bind, try_catch, interactiveSignIn. rewrite Htauri.
  unfold lift. rewrite Hpopup, popupFallback_run, Htauri.
  destruct (popupTrouble popupError).
  - destruct (signInWithRedirect providerId) as [[]|redirectError];
      eexists; (split; [reflexivity|]);
      repeat split; try discriminate; try reflexivity.
    intros _ e' H. injection H as <-. reflexivity.
  - eexists. split; [reflexivity|].
    repeat split; try discriminate; reflexivity.
Qed.

(** What a successful [processAuthResult] returns and leaves. *)
Lemma processAuthResult_success result (w : World) c w' :
  processAuthResult (Some result) w = Some (Return c, w') ->
  exists u,
    user result = Some u
    /\ getProviderIdFromUser u = Return (provider c)
    /\ id c = derivedId (provider c) (uid u)
    /\ email c = or_else (u_email u) ""
    /\ accessToken c = extractAccessToken (provider c) result u
    /\ accessToken c <> ""
    /\ refreshToken c = None
    /\ expiresAt c = (clock (ticks w) + 3600 * 1000)%Z
    /\ connectedAt c = clock (S (ticks w))
    /\ connections w' = JsMap.set (id c) c (connections w)
    /\ save_firebase_calendar_connection (backend_of_connection c)
         (backend w) = Return (backend w').
Proof.
  unfold processAuthResult, throw.
  destruct (user result) as [u|]; [|discriminate].
  unfold bind, lift.
  destruct (getProviderIdFromUser u) as [providerId|err] eqn:Hp;
    [|discriminate].
  destruct (truthy (extractAccessToken providerId result u)) eqn:Htok;
    simpl; [|discriminate].
  unfold modify, saveConnectionToBackend, ret. simpl.
  destruct (save_firebase_calendar_connection _ _) as [b'|err] eqn:Hs;
    [|discriminate].
  intros H. injection H as <- <-. simpl.
  exists u. repeat split; try reflexivity; try assumption.
  unfold truthy in Htok. intros E. rewrite E in Htok. discriminate.
Qed.

(** X9.  A connection [connectProvider] returns is complete: its
    provider is ["google"] or ["microsoft"] (as the credential says,
    not as the caller asked), its access token is not empty, it has no
    refresh token, it expires one hour after the first reading of the
    clock, it is stored in the table under its id, and it is the
    record the Credential Store accepted. *)
Theorem connectProvider_connection_is_complete :
  forall providerId (w : World) c w',
    connectProvider providerId w = Some (Return c, w') ->
    (provider c = "google" \/ provider c = "microsoft")
    /\ accessToken c <> ""
    /\ refreshToken c = None
    /\ expiresAt c = (clock (ticks w) + 3600 * 1000)%Z
    /\ connectedAt c = clock (S (ticks w))
    /\ JsMap.get (id c) (connections w') = Some c
    /\ save_firebase_calendar_connection (backend_of_connection c)
         (backend w) = Return (backend w').
Proof.
  intros providerId w c w'. unfold connectProvider.
  destruct (find _ calendarProviders); [|discriminate].
  unfold bind at 1.
  destruct (try_catch (interactiveSignIn providerId)
              (popupFallback providerId) w)
    as [[[result|err] w1]|] eqn:Hi; [| discriminate | discriminate].
  apply interactive_world in Hi. subst w1.
  intros H. apply processAuthResult_success in H.
  destruct H as [u [_ [Hp [_ [_ [_ [Htok [Hrt [Hexp [Hcon [Hc Hs]]]]]]]]]]].
  split; [apply (getProviderIdFromUser_known u), Hp|].
  repeat split; try assumption.
  rewrite Hc. apply JsMapFacts.get_set_same.
Qed.

Lemma processAuthToken_run providerId token (w : World) :
  processAuthToken providerId token w
  = match atob (trim token) with
    | Throw _ => Some (Throw invalidTokenError, w)
    | Return decoded =>
        match JSON_parse decoded with
        | Throw _ => Some (Throw invalidTokenError, w)
        | Return authData =>
            if negb (String.eqb (a_provider authData) providerId)
            then Some (Throw invalidTokenError, w)
            else
              let connection :=
                {| id := derivedId providerId (a_uid authData);
                   provider := providerId;
                   email := a_email authData;
                   accessToken := a_accessToken authData;
                   refreshToken := None;
                   expiresAt := (clock (ticks w) + 3600 * 1000)%Z;
                   connectedAt := clock (S (ticks w)) |} in
              let w1 :=
                with_connections
                  (JsMap.set (id connection) connection (connections w))
                  (with_ticks (S (S (ticks w))) w) in
              match save_firebase_calendar_connection
                      (backend_of_connection connection) (backend w)
              with
              | Return b' => Some (Return connection, with_backend b' w1)
              | Throw _ => Some (Throw invalidTokenError, w1)
              end
        end
    end.
Proof.
  unfold processAuthToken, try_catch, bind, lift, throw.
  destruct (atob (trim token)) as [decoded|err]; [|reflexivity].
  destruct (JSON_parse decoded) as [authData|err]; [|reflexivity].
  destruct (negb (String.eqb (a_provider authData) providerId));
    [reflexivity|].
  unfold Date_now, modify, saveConnectionToBackend, ret. simpl.
  destruct (save_firebase_calendar_connection _ _); reflexivity.
Qed.

(** X11.  [processAuthToken] always completes.  The only error it ever
    raises is the invalid-token error, whatever went wrong; a
    connection it returns carries the requested provider and no
    refresh token, expires one hour after the first reading of the
    clock, is stored in the table under its id, and is the record the
    Credential Store accepted. *)
Theorem processAuthToken_error_contract :
  forall providerId token (w : World),
  exists r w',
    processAuthToken providerId token w = Some (r, w')
    /\ match r with
       | Throw e => e = invalidTokenError
       | Return c =>
           provider c = providerId
           /\ refreshToken c = None
           /\ expiresAt c = (clock (ticks w) + 3600 * 1000)%Z
           /\ JsMap.get (id c) (connections w') = Some c
           /\ save_firebase_calendar_connection
                (backend_of_connection c) (backend w)
              = Return (backend w')
       end.
Proof.
  intros providerId token w. rewrite processAuthToken_run.
  destruct (atob (trim token)) as [decoded|err];
    [|eexists _, _; split; reflexivity].
  destruct (JSON_parse decoded) as [authData|err];
    [|eexists _, _; split; reflexivity].
  destruct (negb (String.eqb (a_provider authData) providerId));
    [eexists _, _; split; reflexivity|].
  cbv zeta.
  destruct (save_firebase_calendar_connection _ _) as [b'|err] eqn:Hs;
    eexists _, _; (split; [reflexivity|]); [|reflexivity].
  simpl. repeat split; try reflexivity.
  - apply JsMapFacts.get_set_same.
  - exact Hs.
Qed.

(** X10.  When the Credential Store rejects the save of a well-formed
    token for the requested provider, [processAuthToken] raises the
    invalid-token error, but the connection it built stays in the
    table: it is listed by [getConnections] although it was never
    persisted. *)
Theorem rejected_save_leaves_connection_listed :
  forall providerId token (w : World) decoded authData,
    atob (trim token) = Return decoded ->
    JSON_parse decoded = Return authData ->
    a_provider authData = providerId ->
    (forall row, exists err,
        save_firebase_calendar_connection row (backend w) = Throw err) ->
    exists c w',
      processAuthToken providerId token w
      = Some (Throw invalidTokenError, w')
      /\ JsMap.get (derivedId providerId (a_uid authData))
           (connections w') = Some c
      /\ In c (getConnections w')
      /\ accessToken c = a_accessToken authData
      /\ backend w' = backend w.
Proof.
  intros providerId token w decoded authData Hd Hj Hp Hsave.
  rewrite processAuthToken_run, Hd, Hj, Hp, String.eqb_refl. simpl.
  match goal with
  | |- context [save_firebase_calendar_connection ?row (backend w)] =>
      destruct (Hsave row) as [err Herr]; rewrite Herr
  end.
  eexists _, _. split; [reflexivity|]. simpl.
  assert (Hget : forall c m,
             JsMap.get (id c) (JsMap.set (id c) c m) = Some c)
    by (intros; apply JsMapFacts.get_set_same).
  split; [apply (Hget (mkConnection _ _ _ _ _ _ _))|].
  split; [|split; reflexivity].
  unfold getConnections. simpl.
  eapply get_Some_In_values. apply (Hget (mkConnection _ _ _ _ _ _ _)).
Qed.

End Authentication.

(** ** Fetching and aggregating *)

Section Fetching.
Context {platform : Platform} {store : CredentialStore}.
Local Open Scope string_scope.
Local Open Scope list_scope.

Lemma requests_afterFetch c outcome (w : World) :
  requests (afterFetch c outcome w) = requests w.
Proof.
  unfold afterFetch. destruct outcome as [events|err]; [reflexivity|].
  destruct (includes "401" (message err)); [|reflexivity].
  apply requests_afterRemove.
Qed.

Lemma connections_afterFetch c outcome (w : World) :
  connections (afterFetch c outcome w)
  = if unauthorized outcome then JsMap.delete (id c) (connections w)
    else connections w.
Proof.
  unfold afterFetch, unauthorized.
  destruct outcome as [events|err]; [reflexivity|].
  destruct (includes "401" (message err)); [|reflexivity].
  apply connections_afterRemove.
Qed.

(** X13.  Over a range with an invalid date the two fetchers differ:
    the Google fetcher raises the [RangeError] of the date rendering
    to its caller, the Microsoft fetcher returns the empty list.
    Neither issues a request or touches the table or the store. *)
Theorem fetchers_on_invalid_range :
  forall fuel c startDate endDate (w : World),
    startDate = InvalidDate \/ endDate = InvalidDate ->
    fetchGoogleCalendarEvents (S fuel) c startDate endDate w
    = Some (Throw (RangeError "Invalid time value"), w)
    /\ exists w',
        fetchMicrosoftCalendarEvents (S fuel) c startDate endDate w
        = Some (Return [], w')
        /\ connections w' = connections w
        /\ requests w' = requests w
        /\ backend w' = backend w.
Proof.
  intros fuel c startDate endDate w H.
  split; [apply fetchGoogle_run_invalid, H|].
  destruct (fetchMicrosoft_run_invalid fuel c startDate endDate w H)
    as [n Hn].
  exists (with_ticks n w). rewrite Hn. auto.
Qed.

Lemma includes_in_apiError prefix status body :
  includes "401" body = true ->
  includes "401" (prefix +++ String_of_nat status +++ " - " +++ body)
  = true.
Proof.
  intros H. repeat apply includes_append_r. exact H.
Qed.

(** X14.  The eviction is decided by the text of the error, not by the
    status: a fetch whose provider call answers any non-2xx status with
    a body that contains ["401"] returns the empty list and evicts the
    connection, the other connections staying listed as before.  Both
    fetchers. *)
Theorem fetch_evicts_on_401_text :
  forall fuel c s e status body (w : World),
    table_ok (connections w) ->
    response_ok status = false ->
    includes "401" body = true ->
    (fetch (googleRequest c (toISOString s) (toISOString e))
     = Response status body ->
     exists w',
       fetchGoogleCalendarEvents (S fuel) c (ValidDate s) (ValidDate e) w
       = Some (Return [], w')
       /\ JsMap.get (id c) (connections w') = None
       /\ getConnections w'
          = filter (fun c' => negb (String.eqb (id c') (id c)))
              (getConnections w))
    /\
    (fetch (microsoftRequest c (toISOString s) (toISOString e))
     = Response status body ->
     exists w',
       fetchMicrosoftCalendarEvents (S fuel) c
         (ValidDate s) (ValidDate e) w
       = Some (Return [], w')
       /\ JsMap.get (id c) (connections w') = None
       /\ getConnections w'
          = filter (fun c' => negb (String.eqb (id c') (id c)))
              (getConnections w)).
Proof.
  intros fuel c s e status body w Hok Hst Hbody. split; intros Hf.
  - destruct (fetchGoogle_run fuel c s e w) as [n Hn].
    assert (Hout : googleTryOutcome c s e
                   = Throw (googleApiError status body)).
    { unfold googleTryOutcome. rewrite Hf, Hst. reflexivity. }
    rewrite Hout in Hn. eexists. split; [exact Hn|].
    assert (H401 : unauthorized (Throw (googleApiError status body))
                   = true)
      by exact (includes_in_apiError "Google Calendar API error: "
                  status body Hbody).
    unfold getConnections. rewrite connections_afterFetch, H401.
    simpl connections.
    split; [apply JsMapFacts.get_delete_same, Hok|].
    apply values_delete_key, Hok.
  - destruct (fetchMicrosoft_run fuel c s e w) as [n Hn].
    assert (Hout : microsoftTryOutcome c s e
                   = Throw (microsoftApiError status body)).
    { unfold microsoftTryOutcome. rewrite Hf, Hst. reflexivity. }
    rewrite Hout in Hn. eexists. split; [exact Hn|].
    assert (H401 : unauthorized (Throw (microsoftApiError status body))
                   = true)
      by exact (includes_in_apiError "Microsoft Graph API error: "
                  status body Hbody).
    unfold getConnections. rewrite connections_afterFetch, H401.
    simpl connections.
    split; [apply JsMapFacts.get_delete_same, Hok|].
    apply values_delete_key, Hok.
Qed.

(** X15.  A fetch whose provider call answers 2xx with a body that
    parses returns the normalised items, or the empty list when the
    response carries no array of items, and changes nothing but the
    request log and the clock: the table and the Credential Store are
    as they were.  Both fetchers. *)
Theorem fetch_success_changes_nothing :
  forall fuel c s e status body (w : World),
    response_ok status = true ->
    (forall data,
        fetch (googleRequest c (toISOString s) (toISOString e))
        = Response status body ->
        json_google body = Return data ->
        exists w',
          fetchGoogleCalendarEvents (S fuel) c
            (ValidDate s) (ValidDate e) w
          = Some (Return (match items data with
                          | Some l => map googleEvent l
                          | None => []
                          end), w')
          /\ connections w' = connections w
          /\ backend w' = backend w
          /\ requests w'
             = requests w
               ++ [googleRequest c (toISOString s) (toISOString e)])
    /\
    (forall data,
        fetch (microsoftRequest c (toISOString s) (toISOString e))
        = Response status body ->
        json_microsoft body = Return data ->
        exists w',
          fetchMicrosoftCalendarEvents (S fuel) c
            (ValidDate s) (ValidDate e) w
          = Some (Return (match value data with
                          | Some l => map microsoftEvent l
                          | None => []
                          end), w')
          /\ connections w' = connections w
          /\ backend w' = backend w
          /\ requests w'
             = requests w
               ++ [microsoftRequest c (toISOString s) (toISOString e)]).
Proof.
  intros fuel c s e status body w Hst. split; intros data Hf Hj.
  - destruct (fetchGoogle_run fuel c s e w) as [n Hn].
    assert (Hout : googleTryOutcome c s e
                   = Return (match items data with
                             | Some l => map googleEvent l
                             | None => []
                             end)).
    { unfold googleTryOutcome. rewrite Hf, Hst, Hj. simpl.
      destruct (items data); reflexivity. }
    rewrite Hout in Hn. eexists. split; [exact Hn|].
    simpl. auto.
  - destruct (fetchMicrosoft_run fuel c s e w) as [n Hn].
    assert (Hout : microsoftTryOutcome c s e
                   = Return (match value data with
                             | Some l => map microsoftEvent l
                             | None => []
                             end)).
    { unfold microsoftTryOutcome. rewrite Hf, Hst, Hj. simpl.
      destruct (value data); reflexivity. }
    rewrite Hout in Hn. eexists. split; [exact Hn|].
    simpl. auto.
Qed.

(** *** One turn of the loop *)

Lemma fetchFor_effect fuel c startDate endDate (w : World) :
  exists r w',
    fetchFor (S fuel) c startDate endDate w = Some (r, w')
    /\ eventsOf r = contribution startDate endDate c
    /\ requests w' = requests w ++ requestsFor startDate endDate c
    /\ connections w'
       = if evicted startDate endDate c
         then JsMap.delete (id c) (connections w)
         else connections w.
Proof.
  unfold fetchFor, contribution, requestsFor, evicted.
  destruct (String.eqb (provider c) "google").
  - destruct startDate as [s|].
    + destruct endDate as [e|].
      * destruct (fetchGoogle_run fuel c s e w) as [n Hn].
        rewrite Hn. eexists _, _. split; [reflexivity|].
        split; [reflexivity|].
        rewrite requests_afterFetch, connections_afterFetch.
        split; reflexivity.
      * rewrite fetchGoogle_run_invalid by auto.
        eexists _, _. split; [reflexivity|].
        rewrite app_nil_r. auto.
    + rewrite fetchGoogle_run_invalid by auto.
      eexists _, _. split; [reflexivity|].
      rewrite app_nil_r. auto.
  - destruct (String.eqb (provider c) "microsoft").
    + destruct startDate as [s|].
      * destruct endDate as [e|].
        -- destruct (fetchMicrosoft_run fuel c s e w) as [n Hn].
           rewrite Hn. eexists _, _. split; [reflexivity|].
           split; [reflexivity|].
           rewrite requests_afterFetch, connections_afterFetch.
           split; reflexivity.
        -- destruct (fetchMicrosoft_run_invalid fuel c
                       (ValidDate s) InvalidDate w) as [n Hn]; [auto|].
           rewrite Hn. eexists _, _. split; [reflexivity|].
           rewrite app_nil_r. auto.
      * destruct (fetchMicrosoft_run_invalid fuel c
                    InvalidDate endDate w) as [n Hn]; [auto|].
        rewrite Hn. eexists _, _. split; [reflexivity|].
        rewrite app_nil_r. auto.
    + eexists _, _. split; [reflexivity|].
      destruct startDate, endDate; rewrite app_nil_r; auto.
Qed.

Lemma fetchInto_effect fuel allEvents c startDate endDate (w : World) :
  exists w',
    fetchInto (S fuel) allEvents c startDate endDate w
    = Some (Return (allEvents ++ contribution startDate endDate c), w')
    /\ requests w' = requests w ++ requestsFor startDate endDate c
    /\ connections w'
       = if evicted startDate endDate c
         then JsMap.delete (id c) (connections w)
         else connections w.
Proof.
  destruct (fetchFor_effect fuel c startDate endDate w)
    as [r [w' [Hr [Hev [Hreq Hconn]]]]].
  exists w'. split; [|split; assumption].
  unfold fetchInto, try_catch, bind. rewrite Hr.
  destruct r as [events|err]; simpl in Hev; rewrite <- Hev.
  - reflexivity.
  - rewrite app_nil_r. reflexivity.
Qed.

Lemma keys_app {V : Type} (a b : JsMap.t V) :
  JsMap.keys (a ++ b) = JsMap.keys a ++ JsMap.keys b.
Proof. unfold JsMap.keys. rewrite entries_app, map_app. reflexivity. Qed.

Lemma delete_here {V : Type} k (v : V) (pre suf : JsMap.t V) :
  ~ In k (JsMap.keys pre) ->
  JsMap.delete k (pre ++ Some (k, v) :: suf) = pre ++ None :: suf.
Proof.
  induction pre as [|[[k0 v0]|] pre IH]; simpl; intros H.
  - rewrite String.eqb_refl. reflexivity.
  - destruct (String.eqb_spec k0 k) as [E|_].
    + exfalso. apply H. left. exact E.
    + rewrite IH; [reflexivity|]. intros Hin. apply H. right. exact Hin.
  - rewrite IH by exact H. reflexivity.
Qed.

Lemma values_sweep startDate endDate
    (m : JsMap.t CalendarConnection) :
  JsMap.values (map (sweep startDate endDate) m)
  = filter (fun c => negb (evicted startDate endDate c))
      (JsMap.values m).
Proof.
  unfold JsMap.values.
  induction m as [|[[k c]|] m IH]; simpl; [reflexivity| |exact IH].
  destruct (evicted startDate endDate c); simpl; rewrite IH;
    reflexivity.
Qed.

(** The loop, started at any position of the table: what it returns,
    the requests it issues and the table it leaves. *)
Lemma forOfConnections_effect startDate endDate
    (suf : JsMap.t CalendarConnection) :
  forall pre fuel allEvents (w : World),
    connections w = pre ++ suf ->
    JsMap.wf (pre ++ suf) ->
    keyed suf ->
    length suf < fuel ->
    exists w',
      forOfConnections fuel (length pre) allEvents startDate endDate w
      = Some (Return
                (allEvents
                 ++ flat_map (contribution startDate endDate)
                      (JsMap.values suf)), w')
      /\ requests w'
         = requests w
           ++ flat_map (requestsFor startDate endDate) (JsMap.values suf)
      /\ connections w' = pre ++ map (sweep startDate endDate) suf.
Proof.
  induction suf as [|slot suf IH];
    intros pre fuel allEvents w Hw Hwf Hk Hf.
  - destruct fuel as [|fuel]; [simpl in Hf; lia|].
    exists w. simpl. rewrite Hw.
    replace (nth_error (pre ++ []) (length pre))
      with (@None (option (string * CalendarConnection))).
    + rewrite !app_nil_r. auto.
    + symmetry. apply nth_error_None. rewrite app_nil_r. lia.
  - destruct fuel as [|fuel]; [simpl in Hf; lia|].
    simpl in Hf.
    assert (Hnth : nth_error (connections w) (length pre) = Some slot).
    { rewrite Hw, nth_error_app2 by lia.
      rewrite Nat.sub_diag. reflexivity. }
    simpl forOfConnections. rewrite Hnth.
    assert (Hlen : forall x : option (string * CalendarConnection),
               length (pre ++ [x]) = S (length pre)).
    { intros x. rewrite length_app. simpl. lia. }
    destruct slot as [[k c]|].
    + destruct (fetchInto_effect
                  (pred fuel) allEvents c startDate endDate w)
        as [w1 [Hrun [Hreq Hconn]]].
      replace (S (pred fuel)) with fuel in Hrun by lia.
      unfold bind. rewrite Hrun.
      assert (Hkey : k = id c).
      { unfold keyed in Hk. simpl in Hk. inversion Hk; subst.
        assumption. }
      assert (Hk' : keyed suf).
      { unfold keyed in *. simpl in Hk. inversion Hk; assumption. }
      assert (Hfresh : ~ In k (JsMap.keys pre)).
      { unfold JsMap.wf in Hwf. rewrite keys_app in Hwf.
        simpl in Hwf. apply NoDup_remove_2 in Hwf.
        intros Hin. apply Hwf, in_or_app. left. exact Hin. }
      assert (Hw1 : connections w1
                    = (pre ++ [sweep startDate endDate (Some (k, c))])
                      ++ suf).
      { rewrite Hconn, Hw, <- app_assoc. simpl.
        destruct (evicted startDate endDate c); [|reflexivity].
        rewrite <- Hkey. apply delete_here, Hfresh. }
      assert (Hwf1 : JsMap.wf
                       ((pre ++ [sweep startDate endDate (Some (k, c))])
                        ++ suf)).
      { rewrite <- app_assoc. simpl.
        destruct (evicted startDate endDate c); [|exact Hwf].
        unfold JsMap.wf in *. rewrite keys_app in *. simpl in *.
        apply NoDup_remove_1 in Hwf. exact Hwf. }
      destruct (IH _ fuel
                  (allEvents ++ contribution startDate endDate c)
                  w1 Hw1 Hwf1 Hk' ltac:(lia))
        as [w' [Hloop [Hreq' Hconn']]].
      exists w'. rewrite Hlen in Hloop. rewrite Hloop.
      rewrite values_cons_some. simpl flat_map.
      rewrite <- !app_assoc.
      split; [reflexivity|]. split.
      * rewrite Hreq', Hreq, <- app_assoc. reflexivity.
      * rewrite Hconn', <- app_assoc. reflexivity.
    + assert (Hw1 : connections w = (pre ++ [None]) ++ suf).
      { rewrite <- app_assoc. exact Hw. }
      assert (Hwf1 : JsMap.wf ((pre ++ [None]) ++ suf)).
      { rewrite <- app_assoc. exact Hwf. }
      destruct (IH (pre ++ [None]) fuel allEvents w Hw1 Hwf1
                  (keyed_app_inv [None] suf Hk) ltac:(lia))
        as [w' [Hloop [Hreq' Hconn']]].
      exists w'. rewrite Hlen in Hloop.
      split; [exact Hloop|]. split; [exact Hreq'|].
      rewrite Hconn', <- app_assoc. reflexivity.
Qed.

(** The aggregate in full: what it returns, the requests it issues and
    the table it leaves. *)
Lemma getAllCalendarEvents_effect fuel startDate endDate (w : World) :
  table_ok (connections w) ->
  length (connections w) < fuel ->
  exists w',
    getAllCalendarEvents fuel startDate endDate w
    = Some (Return
              (Array_sort byStart
                 (flat_map (contribution startDate endDate)
                    (getConnections w))), w')
    /\ requests w'
       = requests w
         ++ flat_map (requestsFor startDate endDate) (getConnections w)
    /\ connections w' = map (sweep startDate endDate) (connections w).
Proof.
  intros [Hwf Hk] Hf.
  destruct (forOfConnections_effect startDate endDate (connections w)
              [] fuel [] w eq_refl Hwf Hk Hf)
    as [w' [Hloop [Hreq Hconn]]].
  exists w'. unfold getAllCalendarEvents, bind.
  simpl in Hloop. rewrite Hloop. auto.
Qed.

Lemma flat_map_all_nil {B C : Type} (f : B -> list C) (l : list B) :
  (forall x, f x = []) -> flat_map f l = [].
Proof.
  intros H. induction l as [|x l IH]; simpl; [reflexivity|].
  rewrite H, IH. reflexivity.
Qed.

Lemma requestsFor_at_most_one startDate endDate
    (l : list CalendarConnection) :
  length (flat_map (requestsFor startDate endDate) l) <= length l.
Proof.
  induction l as [|c l IH]; simpl; [lia|].
  rewrite length_app.
  assert (length (requestsFor startDate endDate c) <= 1).
  { unfold requestsFor. destruct startDate, endDate; simpl; try lia.
    destruct (String.eqb (provider c) "google"); simpl; [lia|].
    destruct (String.eqb (provider c) "microsoft"); simpl; lia. }
  lia.
Qed.

Lemma invalid_range_is_inert startDate endDate c :
  startDate = InvalidDate \/ endDate = InvalidDate ->
  contribution startDate endDate c = []
  /\ requestsFor startDate endDate c = []
  /\ evicted startDate endDate c = false.
Proof.
  intros Hinv. unfold contribution, requestsFor, evicted.
  destruct startDate, endDate; auto. destruct Hinv; discriminate.
Qed.

Lemma sweep_nothing startDate endDate
    (m : JsMap.t CalendarConnection) :
  (forall c, evicted startDate endDate c = false) ->
  map (sweep startDate endDate) m = m.
Proof.
  intros H. induction m as [|[[k c]|] m IH]; simpl;
    [reflexivity| |]; rewrite IH; try reflexivity.
  rewrite H. reflexivity.
Qed.

(** X16.  Whatever the table holds, [getAllCalendarEvents] returns,
    without raising, the events the listed connections contribute,
    each once.  When every one of these events has a start time, the
    result is in ascending order of start, and events of equal start
    keep the order in which they were fetched. *)
Theorem getAllCalendarEvents_any_table :
  forall fuel startDate endDate (w : World),
    table_ok (connections w) ->
    length (connections w) < fuel ->
    exists result w',
      getAllCalendarEvents fuel startDate endDate w
      = Some (Return result, w')
      /\ Permutation result
           (flat_map (contribution startDate endDate) (getConnections w))
      /\ (Forall hasStartTime
            (flat_map (contribution startDate endDate)
               (getConnections w)) ->
          StronglySorted startsNoLater result
          /\ forall t,
               filter (startsAt t) result
               = filter (startsAt t)
                   (flat_map (contribution startDate endDate)
                      (getConnections w))).
Proof.
  intros fuel startDate endDate w Hok Hf.
  destruct (getAllCalendarEvents_effect fuel startDate endDate w Hok Hf)
    as [w' [Hrun _]].
  eexists _, w'. split; [exact Hrun|].
  split; [apply Array_sort_perm|].
  intros Hstart. split; [apply Array_sort_sorted, Hstart|].
  intros t. apply Array_sort_stable.
Qed.

(** X17.  The network calls of one aggregate, in order: one request
    per listed Google or Microsoft connection, in the order of the
    table, none for a connection of another provider, and none at all
    over a range with an invalid date. *)
Theorem getAllCalendarEvents_requests :
  forall fuel startDate endDate (w : World),
    table_ok (connections w) ->
    length (connections w) < fuel ->
    exists result w',
      getAllCalendarEvents fuel startDate endDate w
      = Some (Return result, w')
      /\ requests w'
         = requests w
           ++ flat_map (requestsFor startDate endDate) (getConnections w)
      /\ length (requests w')
         <= length (requests w) + length (getConnections w)
      /\ (startDate = InvalidDate \/ endDate = InvalidDate ->
          requests w' = requests w).
Proof.
  intros fuel startDate endDate w Hok Hf.
  destruct (getAllCalendarEvents_effect fuel startDate endDate w Hok Hf)
    as [w' [Hrun [Hreq _]]].
  eexists _, w'. split; [exact Hrun|]. split; [exact Hreq|].
  rewrite Hreq. split.
  - rewrite length_app. apply Nat.add_le_mono_l.
    apply requestsFor_at_most_one.
  - intros Hinv. rewrite flat_map_all_nil; [apply app_nil_r|].
    intros c. apply (invalid_range_is_inert _ _ c Hinv).
Qed.

(** X18.  After an aggregate the table lists exactly the connections
    whose fetch was not answered by an error mentioning 401, in their
    former order; the others have been evicted. *)
Theorem getAllCalendarEvents_evicts_unauthorized :
  forall fuel startDate endDate (w : World),
    table_ok (connections w) ->
    length (connections w) < fuel ->
    exists result w',
      getAllCalendarEvents fuel startDate endDate w
      = Some (Return result, w')
      /\ getConnections w'
         = filter (fun c => negb (evicted startDate endDate c))
             (getConnections w)
      /\ (forall c, In c (getConnections w) ->
            evicted startDate endDate c = true ->
            contribution startDate endDate c = []).
Proof.
  intros fuel startDate endDate w Hok Hf.
  destruct (getAllCalendarEvents_effect fuel startDate endDate w Hok Hf)
    as [w' [Hrun [_ Hconn]]].
  eexists _, w'. split; [exact Hrun|]. split.
  - unfold getConnections. rewrite Hconn. apply values_sweep.
  - intros c _. unfold evicted, contribution.
    destruct startDate as [s|]; [|reflexivity].
    destruct endDate as [e|]; [|reflexivity].
    destruct (String.eqb (provider c) "google").
    + destruct (googleTryOutcome c s e); [discriminate|reflexivity].
    + destruct (String.eqb (provider c) "microsoft"); [|reflexivity].
      destruct (microsoftTryOutcome c s e); [discriminate|reflexivity].
Qed.

(** X19.  Over a range with an invalid date [getAllCalendarEvents]
    returns the empty list without raising (the [RangeError] of the
    Google fetcher is contained by the loop), and leaves the table and
    the request log as they were. *)
Theorem getAllCalendarEvents_on_invalid_range :
  forall fuel startDate endDate (w : World),
    table_ok (connections w) ->
    length (connections w) < fuel ->
    startDate = InvalidDate \/ endDate = InvalidDate ->
    exists w',
      getAllCalendarEvents fuel startDate endDate w
      = Some (Return [], w')
      /\ connections w' = connections w
      /\ requests w' = requests w.
Proof.
  intros fuel startDate endDate w Hok Hf Hinv.
  destruct (getAllCalendarEvents_effect fuel startDate endDate w Hok Hf)
    as [w' [Hrun [Hreq Hconn]]].
  exists w'. split; [|split].
  - rewrite Hrun, flat_map_all_nil; [reflexivity|].
    intros c. apply (invalid_range_is_inert _ _ c Hinv).
  - rewrite Hconn. apply sweep_nothing.
    intros c. apply (invalid_range_is_inert _ _ c Hinv).
  - rewrite Hreq, flat_map_all_nil; [apply app_nil_r|].
    intros c. apply (invalid_range_is_inert _ _ c Hinv).
Qed.

Lemma forOfConnections_nothing_listed startDate endDate
    (suf : JsMap.t CalendarConnection) :
  forall pre fuel allEvents (w : World),
    connections w = pre ++ suf ->
    JsMap.values suf = [] ->
    length suf < fuel ->
    forOfConnections fuel (length pre) allEvents startDate endDate w
    = Some (Return allEvents, w).
Proof.
  induction suf as [|slot suf IH]; intros pre fuel allEvents w Hw Hv Hf.
  - destruct fuel as [|fuel]; [simpl in Hf; lia|].
    simpl. rewrite Hw.
    replace (nth_error (pre ++ []) (length pre))
      with (@None (option (string * CalendarConnection)));
      [reflexivity|].
    symmetry. apply nth_error_None. rewrite app_nil_r. lia.
  - destruct fuel as [|fuel]; [simpl in Hf; lia|].
    simpl in Hf.
    destruct slot as [[k c]|]; [discriminate|].
    simpl forOfConnections.
    replace (nth_error (connections w) (length pre))
      with (Some (@None (string * CalendarConnection))).
    + replace (S (length pre)) with (length (pre ++ [None]))
        by (rewrite length_app; simpl; lia).
      apply IH; [|exact Hv|lia].
      rewrite <- app_assoc. exact Hw.
    + symmetry. rewrite Hw, nth_error_app2 by lia.
      rewrite Nat.sub_diag. reflexivity.
Qed.

(** X27.  When the table lists no connection, [getAllCalendarEvents]
    returns the empty list and changes nothing: no request, no reading
    of the clock, no access to the store.  This is so in particular on
    a service that has not been initialised, whatever connections the
    Credential Store holds. *)
Theorem getAllCalendarEvents_without_connections :
  forall fuel startDate endDate (w : World),
    getConnections w = [] ->
    length (connections w) < fuel ->
    getAllCalendarEvents fuel startDate endDate w = Some (Return [], w)
    /\ forall b,
         getAllCalendarEvents fuel startDate endDate (initialWorld b)
         = Some (Return [], initialWorld b).
Proof.
  intros fuel startDate endDate w Hnone Hf.
  unfold getAllCalendarEvents, bind. split.
  - pose proof (forOfConnections_nothing_listed startDate endDate
                  (connections w) [] fuel [] w eq_refl Hnone Hf) as H.
    simpl in H. rewrite H. reflexivity.
  - intros b.
    assert (H : forOfConnections fuel 0 [] startDate endDate
                  (initialWorld b)
                = Some (Return [], initialWorld b)).
    { apply (forOfConnections_nothing_listed startDate endDate
               [] [] fuel [] (initialWorld b) eq_refl eq_refl).
      simpl. lia. }
    rewrite H. reflexivity.
Qed.

End Fetching.

(* ================================================================= *)
(** * Properties of the page's calendar handlers *)

Module PageFacts.
Import Page.

Section Facts.
Context {platform : Platform} {store : CredentialStore}.
Context {locale : LocalTime}.
Local Open Scope string_scope.
Local Open Scope list_scope.

Lemma loadCalendarConnections_run (p : State) (w : World) :
  exists w',
    initialize w = Some (Return tt, w')
    /\ loadCalendarConnections p w
       = Some (setCalendarConnections
                 (map summarize (getConnections w')) p, w').
Proof.
  destruct (initialize_completes w) as [w' [Hrun _]].
  exists w'. split; [exact Hrun|].
  unfold loadCalendarConnections. rewrite Hrun. reflexivity.
Qed.

Lemma loadCalendarConnections_initialized (p : State) (w : World) :
  isInitialized w = true ->
  loadCalendarConnections p w
  = Some (setCalendarConnections (map summarize (getConnections w)) p, w).
Proof.
  intros Hinit. unfold loadCalendarConnections, initialize.
  rewrite Hinit. reflexivity.
Qed.

(** X20.  In the desktop shell, asking the page to connect a supported
    provider only initialises the service and opens the token dialog
    for that provider, with an empty token field: the provider the
    dialog waits for is the one read back from the error of
    [connectProvider].  The busy flag is down again, and the list of
    connections on the page is as it was.  When the service is already
    initialised, or no redirect result is pending (so that
    [initialize] schedules no message of its own), exactly one message
    is shown. *)
Theorem connectCalendarProvider_asks_for_token :
  forall providerId (p : State) (w : World),
    inTauri = true ->
    providerId = "google" \/ providerId = "microsoft" ->
    exists p' w',
      connectCalendarProvider providerId p w = Some (p', w')
      /\ initialize w = Some (Return tt, w')
      /\ showTokenInput p' = true
      /\ pendingProvider p' = providerId
      /\ authToken p' = ""
      /\ isConnectingCalendar p' = false
      /\ calendarConnections p' = calendarConnections p
      /\ (isInitialized w = true
          \/ (forall r, getRedirectResult <> Return (Some r)) ->
          length (alerts p') = S (length (alerts p))).
Proof.
  intros providerId p w Htauri Hsup.
  destruct (initialize_completes w) as [w' [Hrun _]].
  unfold connectCalendarProvider, bind. rewrite Hrun.
  rewrite connectProvider_desktop_run by assumption.
  eexists _, w'. split; [reflexivity|]. split; [reflexivity|].
  destruct Hsup as [-> | ->]; cbn;
    rewrite length_app; cbn; repeat split; intros; lia.
Qed.

Lemma processAuthToken_keeps_initialized providerId token (w : World)
    r w' :
  processAuthToken providerId token w = Some (r, w') ->
  isInitialized w' = isInitialized w.
Proof.
  rewrite processAuthToken_run.
  destruct (atob (trim token)) as [decoded|err];
    [|intros H; injection H as _ <-; reflexivity].
  destruct (JSON_parse decoded) as [authData|err];
    [|intros H; injection H as _ <-; reflexivity].
  destruct (negb (String.eqb (a_provider authData) providerId));
    [intros H; injection H as _ <-; reflexivity|].
  cbv zeta.
  destruct (save_firebase_calendar_connection _ _);
    intros H; injection H as _ <-; reflexivity.
Qed.

Lemma processAuthToken_raises_invalid providerId token (w : World)
    err w' :
  processAuthToken providerId token w = Some (Throw err, w') ->
  err = invalidTokenError.
Proof.
  rewrite processAuthToken_run.
  destruct (atob (trim token)) as [decoded|e];
    [|intros H; injection H as <- _; reflexivity].
  destruct (JSON_parse decoded) as [authData|e];
    [|intros H; injection H as <- _; reflexivity].
  destruct (negb (String.eqb (a_provider authData) providerId));
    [intros H; injection H as <- _; reflexivity|].
  cbv zeta.
  destruct (save_firebase_calendar_connection _ _);
    [discriminate | intros H; injection H as <- _; reflexivity].
Qed.

Lemma processAuthToken_stores providerId token (w : World) c w' :
  processAuthToken providerId token w = Some (Return c, w') ->
  JsMap.get (id c) (connections w') = Some c.
Proof.
  rewrite processAuthToken_run.
  destruct (atob (trim token)) as [decoded|e]; [|discriminate].
  destruct (JSON_parse decoded) as [authData|e]; [|discriminate].
  destruct (negb (String.eqb (a_provider authData) providerId));
    [discriminate|].
  cbv zeta.
  destruct (save_firebase_calendar_connection _ _); [|discriminate].
  intros H. injection H as <- <-. simpl.
  apply JsMapFacts.get_set_same.
Qed.

(** X21.  Submitting the token dialog without a connection.  With a
    blank token or no pending provider nothing happens at all.
    Otherwise, whenever [processAuthToken] raises, whatever the cause,
    the page shows the one invalid-token message and keeps the dialog,
    the typed token and the pending provider as they are, with the
    busy flag down. *)
Theorem submitAuthToken_without_connection :
  forall (p : State) (w : World),
    (truthy (trim (authToken p)) = false \/ pendingProvider p = "" ->
     submitAuthToken p w = Some (p, w))
    /\ (forall err w1,
          truthy (trim (authToken p)) = true ->
          pendingProvider p <> "" ->
          processAuthToken (pendingProvider p) (authToken p) w
          = Some (Throw err, w1) ->
          submitAuthToken p w
          = Some (setIsConnectingCalendar false
                    (alert
                       "Failed to process token: Invalid token format. Please try authentication again."
                       p), w1)).
Proof.
  intros p w. split.
  - intros [H|H]; unfold submitAuthToken.
    + rewrite H. reflexivity.
    + rewrite H. simpl. rewrite orb_true_r. reflexivity.
  - intros err w1 Htok Hprov Hrun. unfold submitAuthToken.
    rewrite Htok. unfold truthy.
    destruct (String.eqb_spec (pendingProvider p) "") as [E|_];
      [contradiction|].
    simpl. rewrite Hrun.
    rewrite (processAuthToken_raises_invalid _ _ _ _ _ Hrun).
    reflexivity.
Qed.

(** X22.  Submitting a token that [processAuthToken] accepts, on an
    initialised service: the dialog is closed and its fields are
    cleared, the busy flag is down, the page lists the connections of
    the service, the new one among them, and the success message is
    shown. *)
Theorem submitAuthToken_connects :
  forall (p : State) (w : World) c w1,
    truthy (trim (authToken p)) = true ->
    pendingProvider p <> "" ->
    isInitialized w = true ->
    processAuthToken (pendingProvider p) (authToken p) w
    = Some (Return c, w1) ->
    exists p',
      submitAuthToken p w = Some (p', w1)
      /\ showTokenInput p' = false
      /\ authToken p' = ""
      /\ pendingProvider p' = ""
      /\ isConnectingCalendar p' = false
      /\ calendarConnections p' = map summarize (getConnections w1)
      /\ In (summarize c) (calendarConnections p')
      /\ alerts p' = alerts p ++ [connectedMessage c].
Proof.
  intros p w c w1 Htok Hprov Hinit Hrun.
  unfold submitAuthToken. rewrite Htok. unfold truthy.
  destruct (String.eqb_spec (pendingProvider p) "") as [E|_];
    [contradiction|].
  simpl. rewrite Hrun.
  rewrite loadCalendarConnections_initialized
    by (rewrite (processAuthToken_keeps_initialized _ _ _ _ _ Hrun);
        exact Hinit).
  eexists. split; [reflexivity|]. simpl.
  repeat split; try reflexivity.
  apply in_map. unfold getConnections.
  apply (get_Some_In_values (id c)).
  apply (processAuthToken_stores _ _ _ _ _ Hrun).
Qed.

Lemma isInitialized_afterRemove k (w : World) :
  isInitialized (afterRemove k w) = isInitialized w.
Proof.
  unfold afterRemove. simpl.
  destruct (remove_calendar_connection k (backend w)); reflexivity.
Qed.

(** X23.  Disconnecting a calendar never fails on the page: after the
    service has been initialised, the connection is removed and the
    page lists the other connections of the service, in their order;
    no entry of the page's list carries the removed id, whether or not
    the backend accepted the removal. *)
Theorem disconnectCalendar_unlists :
  forall connectionId (p : State) (w : World),
    table_ok (connections w) ->
    exists w0 p' w',
      initialize w = Some (Return tt, w0)
      /\ disconnectCalendar connectionId p w = Some (p', w')
      /\ getConnections w'
         = filter (fun c => negb (String.eqb (id c) connectionId))
             (getConnections w0)
      /\ calendarConnections p' = map summarize (getConnections w')
      /\ ~ In connectionId (map s_id (calendarConnections p')).
Proof.
  intros k p w Hok.
  destruct (initialize_completes w) as [w0 [Hrun [Hinit _]]].
  pose proof (initialize_table w (Return tt) w0 Hok Hrun) as Hok0.
  exists w0.
  unfold disconnectCalendar, bind. rewrite Hrun, removeConnection_run.
  rewrite loadCalendarConnections_initialized
    by (rewrite isInitialized_afterRemove; exact Hinit).
  eexists _, _. split; [reflexivity|]. split; [reflexivity|].
  assert (Hlist : getConnections (afterRemove k w0)
                  = filter (fun c => negb (String.eqb (id c) k))
                      (getConnections w0)).
  { unfold getConnections. rewrite connections_afterRemove.
    apply values_delete_key, Hok0. }
  split; [exact Hlist|]. split; [reflexivity|].
  simpl. rewrite Hlist, map_map. simpl.
  intros Hin. apply in_map_iff in Hin.
  destruct Hin as [c [Hid Hc]]. apply filter_In in Hc.
  destruct Hc as [_ Hne]. rewrite Hid, String.eqb_refl in Hne.
  discriminate.
Qed.

(** X24.  A synchronisation replaces the events on the page by what
    [getAllCalendarEvents] returns, on the initialised service, for the
    range from [T00:00:00] to [T23:59:59] of the current date: the
    events the connections contribute, each once, in ascending order of
    start when every one of them has a start time.  When the current
    date does not parse, the events on the page are replaced by the
    empty list and no provider request is issued. *)
Theorem syncCalendars_shows_the_aggregate :
  forall fuel (p : State) (w w0 : World),
    table_ok (connections w) ->
    initialize w = Some (Return tt, w0) ->
    length (connections w0) < fuel ->
    exists events w',
      getAllCalendarEvents fuel (dayStart p) (dayEnd p) w0
      = Some (Return events, w')
      /\ syncCalendars fuel p w = Some (setCalendarEvents events p, w')
      /\ Permutation events
           (flat_map (contribution (dayStart p) (dayEnd p))
              (getConnections w0))
      /\ (Forall hasStartTime
            (flat_map (contribution (dayStart p) (dayEnd p))
               (getConnections w0)) ->
          StronglySorted startsNoLater events)
      /\ (dayStart p = InvalidDate \/ dayEnd p = InvalidDate ->
          events = [] /\ requests w' = requests w).
Proof.
  intros fuel p w w0 Hok Hrun Hf.
  pose proof (initialize_table w (Return tt) w0 Hok Hrun) as Hok0.
  destruct (getAllCalendarEvents_effect fuel (dayStart p) (dayEnd p)
              w0 Hok0 Hf) as [w' [Hall [Hreq _]]].
  eexists _, w'. split; [exact Hall|].
  split; [unfold syncCalendars, bind; rewrite Hrun, Hall; reflexivity|].
  split; [apply Array_sort_perm|].
  split; [apply Array_sort_sorted|].
  intros Hinv.
  rewrite !flat_map_all_nil in *
    by (intros c; apply (invalid_range_is_inert _ _ c Hinv)).
  split; [reflexivity|].
  rewrite Hreq, app_nil_r.
  destruct (initialize_completes w) as [w1 [Hrun1 [_ [Hreq1 _]]]].
  rewrite Hrun in Hrun1. injection Hrun1 as <-. exact Hreq1.
Qed.

(** *** The time grid *)

Lemma minuteOfDay_range d a :
  minuteOfDay d = Num a -> (0 <= a <= 1439)%Z.
Proof.
  destruct d as [ms|]; simpl; [|discriminate].
  intros H. injection H as <-.
  pose proof (getHours_range ms). pose proof (getMinutes_range ms).
  lia.
Qed.

Lemma gridSlots_spec slot :
  In slot gridSlots
  <-> exists h, (0 <= h < 24)%Z
        /\ (slot = h * 60 \/ slot = h * 60 + 30)%Z.
Proof.
  unfold gridSlots. rewrite in_flat_map. split.
  - intros [n [Hn Hs]]. apply in_seq in Hn.
    exists (Z.of_nat n). split; [lia|].
    simpl in Hs. destruct Hs as [<-|[<-|[]]]; auto.
  - intros [h [Hh Hs]]. exists (Z.to_nat h). split.
    + apply in_seq. lia.
    + rewrite Z2Nat.id by lia. simpl.
      destruct Hs as [->| ->]; auto.
Qed.

Lemma In_getEventsForTime (p : State) ev a b slot :
  minuteOfDay (start ev) = Num a ->
  minuteOfDay (end_ ev) = Num b ->
  In ev (getEventsForTime p slot)
  <-> In ev (calendarEvents p) /\ (a <= slot < b)%Z.
Proof.
  intros Ha Hb. unfold getEventsForTime. rewrite filter_In, Ha, Hb.
  simpl. rewrite andb_true_iff, Z.leb_le, Z.ltb_lt. tauto.
Qed.

(** X25.  Where the time grid shows an event.  The grid asks for the
    events of the 48 half-hour slots of the day, and an event is among
    those of a slot when the slot starts within it.  So an event of the
    page that lasts from minute [a] to minute [b] of the day is shown
    in some slot when [b] is at least 30 minutes after [a]; it is
    shown in no slot when it does not end after it starts (an event
    that ends at midnight, or on a later day at an earlier time), nor
    when it lies within one half hour without starting on its
    boundary. *)
Theorem grid_shows_events_by_slot_start :
  forall (p : State) ev a b,
    In ev (calendarEvents p) ->
    minuteOfDay (start ev) = Num a ->
    minuteOfDay (end_ ev) = Num b ->
    ((a + 30 <= b)%Z ->
     exists slot, In slot gridSlots /\ In ev (getEventsForTime p slot))
    /\ ((b <= a)%Z \/ (exists k, (30 * k < a /\ b <= 30 * k + 30)%Z) ->
        forall slot, In slot gridSlots ->
                     ~ In ev (getEventsForTime p slot)).
Proof.
  intros p ev a b Hev Ha Hb.
  pose proof (minuteOfDay_range _ _ Ha) as Hra.
  pose proof (minuteOfDay_range _ _ Hb) as Hrb.
  split.
  - intros Hlong.
    exists (30 * ((a + 29) / 30))%Z.
    split.
    + apply gridSlots_spec. exists ((a + 29) / 30 / 2)%Z.
      split; [Z.div_mod_to_equations; lia|].
      destruct (Z.eq_dec (((a + 29) / 30) mod 2) 0) as [E|E];
        [left | right]; Z.div_mod_to_equations; lia.
    + apply (In_getEventsForTime p ev a b _ Ha Hb).
      split; [exact Hev|]. Z.div_mod_to_equations. lia.
  - intros Hhidden slot Hslot Hin.
    apply (In_getEventsForTime p ev a b _ Ha Hb) in Hin.
    destruct Hin as [_ Hab].
    apply gridSlots_spec in Hslot.
    destruct Hslot as [h [Hh Hs]].
    destruct Hhidden as [Hle|[k Hk]]; [lia|].
    destruct Hs as [->| ->]; lia.
Qed.

End Facts.
End PageFacts.

(* ================================================================= *)
(** * The table in every world the service can be in *)

Section Reachable.
Context {platform : Platform} {store : CredentialStore}.
Local Open Scope string_scope.
Local Open Scope list_scope.

Lemma listed_by_id (m : JsMap.t CalendarConnection) c :
  table_ok m -> In c (JsMap.values m) -> JsMap.get (id c) m = Some c.
Proof.
  intros [Hwf Hk]. unfold JsMap.wf, JsMap.keys, JsMap.values, keyed in *.
  induction m as [|[[k0 v0]|] m IH]; simpl in *; [contradiction| |].
  - inversion Hwf as [|? ? Hnot Hwf']; subst.
    inversion Hk as [|? ? He Hk']; subst. simpl in He. subst k0.
    intros [->|Hin].
    + rewrite String.eqb_refl. reflexivity.
    + destruct (String.eqb_spec (id v0) (id c)) as [E|_].
      * exfalso. apply Hnot. rewrite E.
        apply in_map_iff in Hin. destruct Hin as [e [<- He]].
        apply in_map_iff. exists e. split; [|exact He].
        rewrite Forall_forall in Hk'. apply Hk', He.
      * apply IH; assumption.
  - apply IH; assumption.
Qed.

Lemma get_keyed (m : JsMap.t CalendarConnection) k c :
  keyed m -> JsMap.get k m = Some c -> id c = k.
Proof.
  unfold keyed.
  induction m as [|[[k0 v0]|] m IH]; simpl; [discriminate| |].
  - intros Hk. inversion Hk as [|? ? He Hk']; subst. simpl in He.
    destruct (String.eqb_spec k0 k) as [E|_].
    + intros H. injection H as <-. congruence.
    + apply IH, Hk'.
  - exact IH.
Qed.

(** X26.  In every world the service can be in, after any sequence of
    calls of its methods, no two listed connections share an id, every
    listed connection is found under its id, and what is found under an
    id carries that id. *)
Theorem reachable_ids_identify :
  forall (w : World),
    reachable w ->
    NoDup (map id (getConnections w))
    /\ (forall c, In c (getConnections w) ->
                  JsMap.get (id c) (connections w) = Some c)
    /\ (forall k c, JsMap.get k (connections w) = Some c -> id c = k).
Proof.
  intros w Hr. pose proof (reachable_table_ok w Hr) as Hok.
  split; [apply table_ok_ids, Hok|]. split.
  - intros c Hc. apply listed_by_id; assumption.
  - intros k c. apply get_keyed, Hok.
Qed.

End Reachable.

(* ================================================================= *)
(** * The further properties on the sample platform *)

Module Checks.
Import Sample.
Local Open Scope string_scope.
Local Open Scope list_scope.

Ltac distinct :=
  repeat (apply NoDup_cons; [simpl; intuition discriminate|]);
  apply NoDup_nil.

Ltac table_is_ok :=
  split; [unfold JsMap.wf; vm_compute; distinct | repeat constructor].

Lemma initialize_completes_once_witness :
  exists w',
    @initialize platform store (worldOf [google1])
    = Some (Return tt, w')
    /\ w' = worldOf [google1].
Proof.
  destruct (@initialize_completes_once platform store (worldOf [google1]))
    as [w' [Hrun [_ [_ [Hsame _]]]]].
  exists w'. split; [exact Hrun | exact (Hsame eq_refl)].
Defined.

Lemma loadConnections_rebuilds_table_witness :
  exists w',
    @loadConnections platform store (coldWorld [google1; microsoft2])
    = Some (Return tt, w')
    /\ table_ok (connections w')
    /\ JsMap.get "google-u1" (connections w') <> None.
Proof.
  destruct (@loadConnections_rebuilds_table platform store
              (coldWorld [google1; microsoft2]))
    as [w' [Hrun [_ [_ [_ Hrows]]]]].
  destruct (Hrows [@backend_of_connection google1;
                   @backend_of_connection microsoft2] eq_refl)
    as [Hok [_ Hfound]].
  exists w'. split; [exact Hrun|]. split; [exact Hok|].
  apply (Hfound (@backend_of_connection google1)).
  - left. reflexivity.
  - discriminate.
Defined.

Lemma loadConnections_round_trip_witness :
  exists w',
    @loadConnections platform store (coldWorld [google1; microsoft2])
    = Some (Return tt, w')
    /\ getConnections w' = [google1; microsoft2]
    /\ ticks w' = 0.
Proof.
  apply (@loadConnections_round_trip platform store
           [google1; microsoft2] (coldWorld [google1; microsoft2])).
  - reflexivity.
  - distinct.
  - repeat constructor; discriminate.
Defined.

Lemma removeConnection_forgets_witness :
  exists w',
    @removeConnection store "google-u1" (worldOf [google1; microsoft2])
    = Some (Return tt, w')
    /\ JsMap.get "google-u1" (connections w') = None
    /\ getConnections w'
       = filter (fun c => negb (String.eqb (id c) "google-u1"))
           (getConnections (worldOf [google1; microsoft2]))
    /\ (JsMap.get "google-u1"
          (connections (worldOf [google1; microsoft2])) = None ->
        getConnections w'
        = getConnections (worldOf [google1; microsoft2]))
    /\ requests w' = requests (worldOf [google1; microsoft2]).
Proof.
  apply (@removeConnection_forgets store "google-u1"
           (worldOf [google1; microsoft2])).
  table_is_ok.
Defined.

Lemma rejected_removal_is_undone_by_load_witness :
  exists w1,
    @removeConnection readOnlyStore "google-u1" (readOnlyWorld [google1])
    = Some (Return tt, w1)
    /\ backend w1 = backend (readOnlyWorld [google1])
    /\ @loadConnections platform readOnlyStore w1
       = @loadConnections platform readOnlyStore
           (readOnlyWorld [google1]).
Proof.
  apply (@rejected_removal_is_undone_by_load platform readOnlyStore
           "google-u1" (readOnlyWorld [google1])
           (Error "database is locked")
           [@backend_of_connection google1]).
  - reflexivity.
  - reflexivity.
Defined.

Lemma connectProvider_rejects_unknown_provider_witness :
  @connectProvider platform store "yahoo" (worldOf [google1])
  = Some (Throw (Error "Provider yahoo not supported"),
          worldOf [google1]).
Proof.
  apply (@connectProvider_rejects_unknown_provider platform store
           "yahoo" (worldOf [google1])); discriminate.
Defined.

Lemma connectProvider_in_desktop_shell_witness :
  @connectProvider tauriPlatform store "google" (worldOf [])
  = Some (Throw (Error "AUTH_TOKEN_NEEDED:google"), worldOf []).
Proof.
  apply (@connectProvider_in_desktop_shell tauriPlatform store
           "google" (worldOf [])).
  - reflexivity.
  - left. reflexivity.
Defined.

Lemma connectProvider_without_credential_witness :
  exists e,
    @connectProvider blockedPlatform store "google" (worldOf [])
    = Some (Throw e, worldOf [])
    /\ e = Error
             "Redirect initiated. The page will reload after authentication.".
Proof.
  destruct (@connectProvider_without_credential blockedPlatform store
              "google" (worldOf []) popupBlocked
              (or_introl eq_refl) eq_refl eq_refl)
    as [e [Hrun [_ [Hredirect _]]]].
  exists e. split; [exact Hrun|].
  apply Hredirect; reflexivity.
Defined.

Lemma connectProvider_connection_is_complete_witness :
  (provider (fst popupAuth) = "google"
   \/ provider (fst popupAuth) = "microsoft")
  /\ accessToken (fst popupAuth) <> ""
  /\ refreshToken (fst popupAuth) = None
  /\ expiresAt (fst popupAuth) = (1700000000000 + 3600 * 1000)%Z
  /\ connectedAt (fst popupAuth) = 1700000000001%Z
  /\ JsMap.get (id (fst popupAuth)) (connections (snd popupAuth))
     = Some (fst popupAuth)
  /\ @save_firebase_calendar_connection store
       (backend_of_connection (fst popupAuth)) []
     = Return (backend (snd popupAuth)).
Proof.
  apply (@connectProvider_connection_is_complete platform store
           "google" (worldOf []) (fst popupAuth) (snd popupAuth)).
  vm_compute. reflexivity.
Defined.

Lemma rejected_save_leaves_connection_listed_witness :
  exists c w',
    @processAuthToken platform readOnlyStore "google" "google:u1"
      (readOnlyWorld [])
    = Some (Throw invalidTokenError, w')
    /\ JsMap.get "google-u1" (connections w') = Some c
    /\ In c (getConnections w')
    /\ accessToken c = "tok-g"
    /\ backend w' = backend (readOnlyWorld []).
Proof.
  apply (@rejected_save_leaves_connection_listed platform readOnlyStore
           "google" "google:u1" (readOnlyWorld []) "google:u1"
           {| a_provider := "google"; a_email := "ann@example.org";
              a_uid := "u1"; a_accessToken := "tok-g";
              a_idToken := "id-token" |}).
  - reflexivity.
  - reflexivity.
  - reflexivity.
  - intros row. eexists. reflexivity.
Defined.

Lemma getProviderIdFromUser_decides_witness :
  getProviderIdFromUser
    {| uid := "u9"; u_email := None;
       providerData := ["password"; "microsoft.com"];
       getIdToken := Return "id-token" |}
  = Return "microsoft".
Proof.
  apply (@getProviderIdFromUser_decides
           {| uid := "u9"; u_email := None;
              providerData := ["password"; "microsoft.com"];
              getIdToken := Return "id-token" |}).
  - right. left. reflexivity.
  - simpl. intuition discriminate.
Defined.

Lemma fetchers_on_invalid_range_witness :
  @fetchGoogleCalendarEvents platform store 1 google1
    InvalidDate range_end (worldOf [google1])
  = Some (Throw (RangeError "Invalid time value"), worldOf [google1])
  /\ exists w',
      @fetchMicrosoftCalendarEvents platform store 1 google1
        InvalidDate range_end (worldOf [google1])
      = Some (Return [], w')
      /\ connections w' = connections (worldOf [google1])
      /\ requests w' = requests (worldOf [google1])
      /\ backend w' = backend (worldOf [google1]).
Proof.
  apply (@fetchers_on_invalid_range platform store 0 google1
           InvalidDate range_end (worldOf [google1])).
  left. reflexivity.
Defined.

Lemma fetch_evicts_on_401_text_witness :
  exists w',
    @fetchGoogleCalendarEvents gatewayPlatform store 1 google1
      range_start range_end (worldOf [google1; microsoft2])
    = Some (Return [], w')
    /\ JsMap.get (id google1) (connections w') = None
    /\ getConnections w'
       = filter (fun c' => negb (String.eqb (id c') (id google1)))
           (getConnections (worldOf [google1; microsoft2])).
Proof.
  apply (proj1 (@fetch_evicts_on_401_text gatewayPlatform store 0
                  google1 0%Z 100%Z 502 "upstream answered 401"
                  (worldOf [google1; microsoft2])
                  ltac:(table_is_ok) eq_refl eq_refl)).
  reflexivity.
Defined.

Lemma fetch_success_changes_nothing_witness :
  exists w',
    @fetchGoogleCalendarEvents bareGoogle store 1 google1
      range_start range_end (worldOf [google1])
    = Some (Return [], w')
    /\ connections w' = connections (worldOf [google1])
    /\ backend w' = backend (worldOf [google1])
    /\ requests w' = [@googleRequest google1 "0" "100"].
Proof.
  apply (proj1 (@fetch_success_changes_nothing bareGoogle store 0
                  google1 0%Z 100%Z 200 "{}" (worldOf [google1])
                  eq_refl)
           {| items := None |}).
  - reflexivity.
  - reflexivity.
Defined.

Lemma getAllCalendarEvents_any_table_witness :
  exists result w',
    @getAllCalendarEvents platform store 4 range_start range_end
      (worldOf [google1; yahoo7; microsoft2])
    = Some (Return result, w')
    /\ Permutation result (googleEvents ++ microsoftEvents)
    /\ StronglySorted startsNoLater result.
Proof.
  destruct (@getAllCalendarEvents_any_table platform store 4
              range_start range_end
              (worldOf [google1; yahoo7; microsoft2])
              ltac:(table_is_ok) ltac:(simpl; lia))
    as [result [w' [Hrun [Hperm Hsorted]]]].
  exists result, w'. split; [exact Hrun|]. split; [exact Hperm|].
  apply Hsorted.
  repeat constructor; eexists; vm_compute; reflexivity.
Defined.

Lemma getAllCalendarEvents_requests_witness :
  exists result w',
    @getAllCalendarEvents platform store 4 range_start range_end
      (worldOf [google1; yahoo7; microsoft2])
    = Some (Return result, w')
    /\ requests w'
       = [@googleRequest google1 "0" "100";
          @microsoftRequest microsoft2 "0" "100"].
Proof.
  destruct (@getAllCalendarEvents_requests platform store 4
              range_start range_end
              (worldOf [google1; yahoo7; microsoft2])
              ltac:(table_is_ok) ltac:(simpl; lia))
    as [result [w' [Hrun [Hreq _]]]].
  exists result, w'. split; [exact Hrun | exact Hreq].
Defined.

Lemma getAllCalendarEvents_evicts_unauthorized_witness :
  exists result w',
    @getAllCalendarEvents platform store 4 range_start range_end
      (worldOf [googleOld; google1; microsoftOld])
    = Some (Return result, w')
    /\ getConnections w' = [google1].
Proof.
  destruct (@getAllCalendarEvents_evicts_unauthorized platform store 4
              range_start range_end
              (worldOf [googleOld; google1; microsoftOld])
              ltac:(table_is_ok) ltac:(simpl; lia))
    as [result [w' [Hrun [Hlist _]]]].
  exists result, w'. split; [exact Hrun | exact Hlist].
Defined.

Lemma getAllCalendarEvents_on_invalid_range_witness :
  exists w',
    @getAllCalendarEvents platform store 3 range_start InvalidDate
      (worldOf [google1; microsoft2])
    = Some (Return [], w')
    /\ connections w' = connections (worldOf [google1; microsoft2])
    /\ requests w' = requests (worldOf [google1; microsoft2]).
Proof.
  apply (@getAllCalendarEvents_on_invalid_range platform store 3
           range_start InvalidDate (worldOf [google1; microsoft2])).
  - table_is_ok.
  - simpl. lia.
  - right. reflexivity.
Defined.

Lemma reachable_ids_identify_witness :
  NoDup (map id (getConnections (snd started)))
  /\ (forall c, In c (getConnections (snd started)) ->
                JsMap.get (id c) (connections (snd started)) = Some c)
  /\ (forall k c, JsMap.get k (connections (snd started)) = Some c ->
                  id c = k).
Proof.
  apply (@reachable_ids_identify platform store (snd started)).
  apply (@reachable_call platform store
           (@initialWorld store
              [@backend_of_connection yahoo7;
               @backend_of_connection google1]));
    [apply reachable_initial|].
  apply (@call_initialize platform store _ (Return tt)).
  vm_compute. reflexivity.
Defined.

Lemma getAllCalendarEvents_without_connections_witness :
  @getAllCalendarEvents platform store 1 range_start range_end
    (coldWorld [google1; microsoft2])
  = Some (Return [], coldWorld [google1; microsoft2]).
Proof.
  apply (@getAllCalendarEvents_without_connections platform store 1
           range_start range_end (coldWorld [google1; microsoft2])).
  - reflexivity.
  - simpl. lia.
Defined.

(** ** The page *)

Lemma connectCalendarProvider_asks_for_token_witness :
  exists p' w',
    @Page.connectCalendarProvider tauriPlatform store "microsoft"
      (pageOn "2024-05-01") (coldWorld [google1])
    = Some (p', w')
    /\ Page.showTokenInput p' = true
    /\ Page.pendingProvider p' = "microsoft"
    /\ Page.authToken p' = ""
    /\ Page.isConnectingCalendar p' = false
    /\ length (Page.alerts p') = 1.
Proof.
  destruct (@PageFacts.connectCalendarProvider_asks_for_token
              tauriPlatform store "microsoft"
              (pageOn "2024-05-01") (coldWorld [google1])
              eq_refl (or_intror eq_refl))
    as [p' [w' [Hrun [_ [H1 [H2 [H3 [H4 [_ Hone]]]]]]]]].
  exists p', w'. repeat split; try assumption.
  apply Hone. right. intros r. discriminate.
Defined.

Lemma submitAuthToken_without_connection_witness :
  @Page.submitAuthToken platform store
    (pageWithToken "microsoft:u2") (worldOf [])
  = Some (Page.setIsConnectingCalendar false
            (Page.alert
               "Failed to process token: Invalid token format. Please try authentication again."
               (pageWithToken "microsoft:u2")), worldOf []).
Proof.
  apply (proj2 (@PageFacts.submitAuthToken_without_connection
                  platform store (pageWithToken "microsoft:u2")
                  (worldOf []))
           invalidTokenError (worldOf [])).
  - reflexivity.
  - discriminate.
  - vm_compute. reflexivity.
Defined.

Lemma submitAuthToken_connects_witness :
  exists p',
    @Page.submitAuthToken platform store
      (pageWithToken "google:u1") (worldOf [])
    = Some (p', snd tokenAuth)
    /\ Page.showTokenInput p' = false
    /\ Page.authToken p' = ""
    /\ Page.pendingProvider p' = ""
    /\ Page.isConnectingCalendar p' = false
    /\ Page.calendarConnections p'
       = map Page.summarize (getConnections (snd tokenAuth))
    /\ In (Page.summarize (fst tokenAuth)) (Page.calendarConnections p')
    /\ Page.alerts p'
       = Page.alerts (pageWithToken "google:u1")
         ++ [Page.connectedMessage (fst tokenAuth)].
Proof.
  apply (@PageFacts.submitAuthToken_connects platform store
           (pageWithToken "google:u1") (worldOf [])
           (fst tokenAuth) (snd tokenAuth)).
  - reflexivity.
  - discriminate.
  - reflexivity.
  - vm_compute. reflexivity.
Defined.

Lemma disconnectCalendar_unlists_witness :
  exists w0 p' w',
    @initialize platform store (coldWorld [google1; microsoft2])
    = Some (Return tt, w0)
    /\ @Page.disconnectCalendar platform store "google-u1"
         (pageOn "2024-05-01") (coldWorld [google1; microsoft2])
       = Some (p', w')
    /\ getConnections w'
       = filter (fun c => negb (String.eqb (id c) "google-u1"))
           (getConnections w0)
    /\ Page.calendarConnections p'
       = map Page.summarize (getConnections w')
    /\ ~ In "google-u1" (map Page.s_id (Page.calendarConnections p')).
Proof.
  apply (@PageFacts.disconnectCalendar_unlists platform store
           "google-u1" (pageOn "2024-05-01")
           (coldWorld [google1; microsoft2])).
  split; [apply NoDup_nil | constructor].
Defined.

Lemma syncCalendars_shows_the_aggregate_witness :
  exists events w',
    @Page.syncCalendars calendarPlatform store 3
      (pageOn "2024-05-01") (worldOf [google1; microsoft2])
    = Some (Page.setCalendarEvents events (pageOn "2024-05-01"), w')
    /\ Permutation events
         (flat_map (@contribution calendarPlatform range_start range_end)
            [google1; microsoft2])
    /\ StronglySorted startsNoLater events.
Proof.
  destruct (@PageFacts.syncCalendars_shows_the_aggregate
              calendarPlatform store 3 (pageOn "2024-05-01")
              (worldOf [google1; microsoft2])
              (worldOf [google1; microsoft2])
              ltac:(table_is_ok) eq_refl ltac:(simpl; lia))
    as [events [w' [_ [Hrun [Hperm [Hsorted _]]]]]].
  exists events, w'. split; [exact Hrun|]. split; [exact Hperm|].
  apply Hsorted.
  repeat constructor; eexists; vm_compute; reflexivity.
Defined.

(** With local time UTC, a call from 09:10 to 09:50 is shown in a slot
    of the grid. *)
Lemma grid_shows_events_by_slot_start_witness :
  exists slot,
    In slot Page.gridSlots
    /\ In (eventBetween 33000000 35400000)
          (@Page.getEventsForTime utc
             (pageShowing [eventBetween 33000000 35400000]) slot).
Proof.
  apply (proj1 (@PageFacts.grid_shows_events_by_slot_start utc
                  (pageShowing [eventBetween 33000000 35400000])
                  (eventBetween 33000000 35400000) 550%Z 590%Z
                  (or_introl eq_refl) eq_refl eq_refl)).
  lia.
Defined.

(** The sample aggregate as the page shows it after a synchronisation,
    and a call from 09:10 to 09:25, which the grid shows nowhere. *)
Example sample_sync :
  option_map
    (fun r => map ev_id (Page.calendarEvents (fst r)))
    (@Page.syncCalendars calendarPlatform store 3
       (pageOn "2024-05-01") (worldOf [google1; microsoft2]))
  = Some ["g-early"; "m-early"; "m-mid"; "g-late"].
Proof. vm_compute. reflexivity. Qed.

Example sample_hidden_call :
  map (fun slot =>
         length (@Page.getEventsForTime utc
                   (pageShowing [eventBetween 33000000 33900000]) slot))
      Page.gridSlots
  = repeat 0 48.
Proof. vm_compute. reflexivity. Qed.

End Checks.
